(** * Birthday reminder bot: reminder scheduling and delivery engine

    A shallow embedding of the date arithmetic of [commandParser.js], of the
    birthday and reminder repositories and of the cron scheduler, with the
    properties of the design document stated against it.

    Conventions of the embedding:
    - a value of a SQL [DATE] column or a ['YYYY-MM-DD'] parameter is a
      [Date] record; on four-digit years the string comparisons of the SQL
      statements ([=], [<], [strftime('%m-%d', _)]) are the comparisons of
      the fields, and [format_YYYY_MM_DD] prints the stored text;
    - a table is the list of its rows, in insertion order; the columns
      [created_at], [updated_at] that no statement of the engine reads are
      left out;
    - the clock ([moment()], [CURRENT_TIMESTAMP]), [crypto.randomUUID()],
      [Math.random()] and the outcome of the WhatsApp client are inputs,
      collected in an [Env]; the store and the outbox are threaded through
      an exception-and-state monad [Async], in which a rejected promise
      keeps the writes already done;
    - a repository method is [return await database.run(sql, params)] (or
      [get], [all]), and [database.js] rejects the promise on every error
      that SQLite reports.  The definitions give the statement as SQLite
      executes it on the tables of [init.sql]: of the errors of the engine
      they contain the violation of a primary key by an [INSERT], which
      the schema decides, and no other (a locked or missing file, a full
      disk).  What a theorem says of the result of a call is said of the
      call that resolves;
    - a [SELECT] without [ORDER BY], and the rows of equal keys of one
      with [ORDER BY], come in the order of the scan of the first table,
      one of the orders that SQLite may choose; a statement that would
      depend on that choice is made up to permutation;
    - [console_errors] holds what the [catch] blocks of [cronScheduler.js]
      and [commandParser.js] log; the lines that [whatsappClient.js] and
      [database.js] write themselves before they rethrow are not
      recorded. *)

From Stdlib Require Import ZArith List String Ascii Bool Lia.
From Stdlib Require Import Sorting.Sorted Sorting.Permutation.
From Stdlib Require OrderedTypeEx.
Import ListNotations.

Local Open Scope Z_scope.

(* ================================================================= *)
(** ** Calendar dates and the operations of the moment library        *)
(* ================================================================= *)

Record Date := mkDate { year : Z; month : Z; day : Z }.

(** A moment in local wall-clock time: a calendar date and the
    milliseconds elapsed since local midnight. *)
Record Moment := mkMoment { local_date : Date; millis : Z }.

Definition MS_PER_DAY : Z := 86400000.

Module MomentJs.

Definition isLeapYear (y : Z) : bool :=
  ((y mod 4 =? 0) && negb (y mod 100 =? 0)) || (y mod 400 =? 0).

(** [daysInMonth(year, month)], months numbered 1..12. *)
Definition daysInMonth (y m : Z) : Z :=
  if m =? 2 then (if isLeapYear y then 29 else 28)
  else if (m =? 4) || (m =? 6) || (m =? 9) || (m =? 11) then 30
  else 31.

Definition valid_date (d : Date) : bool :=
  (1 <=? month d) && (month d <=? 12) &&
  (1 <=? day d) && (day d <=? daysInMonth (year d) (month d)).

Definition valid_moment (m : Moment) : bool :=
  valid_date (local_date m) && (0 <=? millis m) && (millis m <? MS_PER_DAY).

(** Number of days from 1970-01-01 to the date (proleptic Gregorian
    calendar), the day part of [valueOf()]. *)
Definition days_from_civil (d : Date) : Z :=
  let y := if month d <=? 2 then year d - 1 else year d in
  let era := y / 400 in
  let yoe := y - era * 400 in
  let mp := if month d <=? 2 then month d + 9 else month d - 3 in
  let doy := (153 * mp + 2) / 5 + day d - 1 in
  let doe := yoe * 365 + yoe / 4 - yoe / 100 + doy in
  era * 146097 + doe - 719468.

(** [valueOf()] on the local time line. *)
Definition valueOf (m : Moment) : Z :=
  days_from_civil (local_date m) * MS_PER_DAY + millis m.

(** [moment('YYYY-MM-DD')]: local midnight of that date. *)
Definition of_date (d : Date) : Moment := mkMoment d 0.

(** [m.year(v)], the setter: February 29 of a leap year is moved to the
    last day of February of the new year, every other date keeps its
    month and day. *)
Definition set_year (m : Moment) (v : Z) : Moment :=
  let d := local_date m in
  if isLeapYear (year d) && (month d =? 2) && (day d =? 29)
  then mkMoment (mkDate v 2 (daysInMonth v 2)) (millis m)
  else mkMoment (mkDate v (month d) (day d)) (millis m).

(** [m.add(1, 'year')]: twelve months later, the day of the month
    clamped to the length of the target month. *)
Definition add_one_year (m : Moment) : Moment :=
  let d := local_date m in
  mkMoment (mkDate (year d + 1) (month d)
                   (Z.min (day d) (daysInMonth (year d + 1) (month d))))
           (millis m).

Definition date_eqb (a b : Date) : bool :=
  (year a =? year b) && (month a =? month b) && (day a =? day b).

(** Calendar order, as the text order of ['YYYY-MM-DD']. *)
Definition date_ltb (a b : Date) : bool :=
  (year a <? year b) ||
  ((year a =? year b) &&
   ((month a <? month b) || ((month a =? month b) && (day a <? day b)))).

(** [a.isBefore(b, 'day')]: the calendar day of [a] is strictly
    earlier than the calendar day of [b]. *)
Definition isBefore_day (a b : Moment) : bool :=
  date_ltb (local_date a) (local_date b).

(** [a.diff(b, 'days')]: the difference of the two local times in
    days, truncated toward zero. *)
Definition diff_days (a b : Moment) : Z :=
  Z.quot (valueOf a - valueOf b) MS_PER_DAY.

(** [m.add(1, 'day')] and [m.subtract(1, 'day')] on the date part. *)
Definition next_day (d : Date) : Date :=
  if day d <? daysInMonth (year d) (month d)
  then mkDate (year d) (month d) (day d + 1)
  else if month d <? 12 then mkDate (year d) (month d + 1) 1
  else mkDate (year d + 1) 1 1.

Definition prev_day (d : Date) : Date :=
  if 1 <? day d then mkDate (year d) (month d) (day d - 1)
  else if 1 <? month d
       then mkDate (year d) (month d - 1) (daysInMonth (year d) (month d - 1))
       else mkDate (year d - 1) 12 31.

Definition subtract_days (n : nat) (d : Date) : Date := Nat.iter n prev_day d.

(** Printing: two and four decimal digits, zero padded. *)
Definition digit_char (n : Z) : ascii :=
  ascii_of_nat (48 + Z.to_nat (n mod 10)).

Definition pad2 (n : Z) : string :=
  String (digit_char (n / 10)) (String (digit_char n) EmptyString).

Definition pad4 (n : Z) : string :=
  String (digit_char (n / 1000)) (String (digit_char (n / 100)) (pad2 n)).

Definition format_MM_DD (d : Date) : string :=
  (pad2 (month d) ++ "-" ++ pad2 (day d))%string.

Definition format_YYYY_MM_DD (d : Date) : string :=
  (pad4 (year d) ++ "-" ++ format_MM_DD d)%string.

(** Strict parsing, [moment(str, 'DD<sep>MM', true)]: exactly two
    digits, the separator, two digits.  The year is not in the format
    and defaults to the current year; a day that does not exist in that
    month of that year makes the moment invalid. *)
Definition digit_of (c : ascii) : option Z :=
  let n := Z.of_nat (nat_of_ascii c) in
  if (48 <=? n) && (n <=? 57) then Some (n - 48) else None.

Definition parse_DD_MM (sep : ascii) (s : string) : option (Z * Z) :=
  match s with
  | String d1 (String d2 (String c (String m1 (String m2 EmptyString)))) =>
      if Ascii.eqb c sep then
        match digit_of d1, digit_of d2, digit_of m1, digit_of m2 with
        | Some a, Some b, Some x, Some y => Some (10 * a + b, 10 * x + y)
        | _, _, _, _ => None
        end
      else None
  | _ => None
  end.

Definition parse_strict (sep : ascii) (s : string) (now : Moment)
  : option Moment :=
  match parse_DD_MM sep s with
  | Some (dd, mm) =>
      let d := mkDate (year (local_date now)) mm dd in
      if valid_date d then Some (of_date d) else None
  | None => None
  end.

End MomentJs.

Import MomentJs.

(* ================================================================= *)
(** ** commandParser.js: date validation and next occurrence          *)
(* ================================================================= *)

Record Validation := mkValidation {
  isValid : bool;
  v_date : option Moment;
  v_error : option string
}.

(** The loop over the formats ['DD/MM'], ['DD-MM'], ['DD.MM']: the first
    format under which the string is a valid moment wins. *)
Fixpoint first_valid (formats : list ascii) (dateStr : string) (now : Moment)
  : option Moment :=
  match formats with
  | [] => None
  | sep :: rest =>
      match parse_strict sep dateStr now with
      | Some m => Some m
      | None => first_valid rest dateStr now
      end
  end.

Definition validateDate (dateStr : string) (now : Moment) : Validation :=
  match first_valid ["/"; "-"; "."]%char dateStr now with
  | None =>
      mkValidation false None
        (Some "Invalid date format. Please use DD/MM, DD-MM, or DD.MM"%string)
  | Some parsed =>
      (* Set year to current year for storage *)
      let currentYear := year (local_date now) in
      mkValidation true (Some (set_year parsed currentYear)) None
  end.

(** The [birthDate] argument that [handleAddBirthday] hands to
    [addOrUpdateBirthday]: [validation.date.format('YYYY-MM-DD')], when
    the validation succeeds. *)
Definition handleAddBirthday_birthDate (dateStr : string) (now : Moment)
  : option Date :=
  match v_date (validateDate dateStr now) with
  | Some m => Some (local_date m)
  | None => None
  end.

Definition getNextBirthdayDate (birthDate : Moment) (now : Moment) : Moment :=
  let thisYear := year (local_date now) in
  let nextBirthday := set_year birthDate thisYear in
  (* If birthday has passed this year, use next year *)
  if isBefore_day nextBirthday now then add_one_year nextBirthday
  else nextBirthday.

(** [daysUntil], as [handleListBirthdays], [handleMyBirthday] and
    [handleUpcoming] compute it from a stored [birth_date]:
    [getNextBirthdayDate(moment(birth_date)).diff(moment(), 'days')]. *)
Definition daysUntil (birth_date : Date) (now : Moment) : Z :=
  diff_days (getNextBirthdayDate (of_date birth_date) now) now.

(** The three branches of the reply of [handleMyBirthday]. *)
Inductive DayText :=
| ItIsToday
| ItIsTomorrow
| DaysLeft (n : Z).

Definition handleMyBirthday_dayText (birth_date : Date) (now : Moment)
  : DayText :=
  let n := daysUntil birth_date now in
  if n =? 0 then ItIsToday
  else if n =? 1 then ItIsTomorrow
  else DaysLeft n.


(* ================================================================= *)
(** ** The store: init.sql                                            *)
(* ================================================================= *)

(** [users (phone_number PRIMARY KEY, name NOT NULL)] *)
Record UserRow := mkUser { u_phone_number : string; u_name : string }.

(** [groups (group_id PRIMARY KEY, group_name NOT NULL, bot_active)] *)
Record GroupRow := mkGroup {
  g_group_id : string;
  group_name : string;
  bot_active : bool
}.

(** [birthdays (id PRIMARY KEY, phone_number, birth_date DATE, group_id)] *)
Record BirthdayRow := mkBirthday {
  b_id : string;
  b_phone_number : string;
  birth_date : Date;
  b_group_id : string
}.

(** [reminders (id PRIMARY KEY, birthday_id, reminder_date DATE,
    sent DEFAULT false, sent_at NULL)]; the table declares no constraint
    on the pair [(birthday_id, reminder_date)]. *)
Record ReminderRow := mkReminder {
  r_id : string;
  birthday_id : string;
  reminder_date : Date;
  sent : bool;
  sent_at : option Z
}.

Record Database := mkDatabase {
  users : list UserRow;
  groups : list GroupRow;
  birthdays : list BirthdayRow;
  reminders : list ReminderRow
}.

Definition set_birthdays (d : Database) (l : list BirthdayRow) : Database :=
  mkDatabase (users d) (groups d) l (reminders d).

Definition set_reminders (d : Database) (l : list ReminderRow) : Database :=
  mkDatabase (users d) (groups d) (birthdays d) l.

(** A row of [getPendingReminders]:
    [r.*, b.phone_number, b.birth_date, b.group_id, u.name, g.group_name]. *)
Record PendingReminder := mkPending {
  p_reminder : ReminderRow;
  phone_number : string;
  p_birth_date : Date;
  group_id : string;
  name : option string;
  p_group_name : option string
}.

(** The resolution value of [database.run]: [{ id: lastID, changes }],
    of which only [changes] is modelled. *)
Record RunResult := mkRun { changes : nat }.

(** One of the four texts of [createBirthdayMessage]; all of them
    mention [@phoneNumber] and none uses the name. *)
Record Message := mkMessage { template : nat; mention : string }.

(* ================================================================= *)
(** ** Promises: state, exceptions and the inputs of a run            *)
(* ================================================================= *)

Inductive Exn :=
| TypeError (what : string)
| SqliteConstraint (what : string)
| ClientError (chatId : string).

Inductive Outcome (A : Type) :=
| Resolved (a : A)
| Rejected (e : Exn).
Arguments Resolved {A} a.
Arguments Rejected {A} e.

(** What a run reads from outside: the local clock, the clock of the
    database, the stream of random UUIDs, the stream of
    [Math.floor(Math.random() * 4)] and, for the n-th call of
    [whatsappClient.sendMessage], whether the client delivers. *)
Record Env := mkEnv {
  now : Moment;
  CURRENT_TIMESTAMP : Z;
  randomUUID : nat -> string;
  randomIndex : nat -> nat;
  client_delivers : nat -> string -> bool
}.

Record World := mkWorld {
  db : Database;
  uuids_drawn : nat;
  randoms_drawn : nat;
  send_attempts : nat;
  outbox : list (string * Message);
  console_errors : list Exn
}.

Definition set_db (w : World) (d : Database) : World :=
  mkWorld d (uuids_drawn w) (randoms_drawn w) (send_attempts w)
          (outbox w) (console_errors w).

Definition Async (A : Type) : Type := World -> Outcome A * World.

Definition ret {A} (a : A) : Async A := fun w => (Resolved a, w).

Definition throw {A} (e : Exn) : Async A := fun w => (Rejected e, w).

Definition bind {A B} (c : Async A) (k : A -> Async B) : Async B :=
  fun w =>
    match c w with
    | (Resolved a, w') => k a w'
    | (Rejected e, w') => (Rejected e, w')
    end.

(** [try { c } catch (error) { h error }] *)
Definition try_catch {A} (c : Async A) (h : Exn -> Async A) : Async A :=
  fun w =>
    match c w with
    | (Resolved a, w') => (Resolved a, w')
    | (Rejected e, w') => h e w'
    end.

Declare Scope async_scope.
Delimit Scope async_scope with async.
Notation "x <- c ;; k" := (bind c (fun x => k))
  (at level 61, c at next level, right associativity) : async_scope.
Notation "c ;; k" := (bind c (fun _ => k))
  (at level 61, right associativity) : async_scope.
Local Open Scope async_scope.

Definition get_db : Async Database := fun w => (Resolved (db w), w).

Definition put_db (d : Database) : Async unit :=
  fun w => (Resolved tt, set_db w d).

(** [console.error(..., error)] *)
Definition console_error (e : Exn) : Async unit :=
  fun w =>
    (Resolved tt,
     mkWorld (db w) (uuids_drawn w) (randoms_drawn w) (send_attempts w)
             (outbox w) (console_errors w ++ [e])).

(** [crypto.randomUUID()] *)
Definition crypto_randomUUID (env : Env) : Async string :=
  fun w =>
    (Resolved (randomUUID env (uuids_drawn w)),
     mkWorld (db w) (S (uuids_drawn w)) (randoms_drawn w) (send_attempts w)
             (outbox w) (console_errors w)).

(** [Math.floor(Math.random() * messages.length)], four messages. *)
Definition Math_random_index (env : Env) : Async nat :=
  fun w =>
    (Resolved (Nat.modulo (randomIndex env (randoms_drawn w)) 4),
     mkWorld (db w) (uuids_drawn w) (S (randoms_drawn w)) (send_attempts w)
             (outbox w) (console_errors w)).

(** [whatsappClient.sendMessage(chatId, message)]: throws when the
    client is not ready or the transport fails, and records the message
    as delivered otherwise.  The line that the client writes to the
    console before it rethrows a failure of the transport is its own
    and is not kept in [console_errors]. *)
Definition sendMessage (env : Env) (chatId : string) (message : Message)
  : Async unit :=
  fun w =>
    let w' outbox' :=
      mkWorld (db w) (uuids_drawn w) (randoms_drawn w) (S (send_attempts w))
              outbox' (console_errors w) in
    if client_delivers env (send_attempts w) chatId
    then (Resolved tt, w' (outbox w ++ [(chatId, message)]))
    else (Rejected (ClientError chatId), w' (outbox w)).

(** [await this.delay(ms)]: time is an input of the run, the pause
    changes nothing that the model observes. *)
Definition delay (ms : Z) : Async unit := ret tt.

(** [for (const x of xs) { await body(x); }] *)
Fixpoint for_of {A} (xs : list A) (body : A -> Async unit) : Async unit :=
  match xs with
  | [] => ret tt
  | x :: rest => body x ;; for_of rest body
  end.

(* ================================================================= *)
(** ** SQL: joins, ordering                                           *)
(* ================================================================= *)

Definition inner_join {A B} (l : list A) (tbl : list B) (on : A -> B -> bool)
  : list (A * B) :=
  flat_map (fun a => map (fun b => (a, b)) (filter (on a) tbl)) l.

(** A row without a partner is kept, with NULL for the right side. *)
Definition left_join {A B} (l : list A) (tbl : list B) (on : A -> B -> bool)
  : list (A * option B) :=
  flat_map (fun a =>
              match filter (on a) tbl with
              | [] => [(a, None)]
              | matches => map (fun b => (a, Some b)) matches
              end) l.

(** Text order of the default collation: byte by byte, NULL first. *)
Definition compare_nullable (a b : option string) : comparison :=
  match a, b with
  | None, None => Eq
  | None, Some _ => Lt
  | Some _, None => Gt
  | Some x, Some y => String.compare x y
  end.

(** [ORDER BY k1, k2] on a pair of nullable text keys. *)
Definition order_key_leb (a b : option string * option string) : bool :=
  match compare_nullable (fst a) (fst b) with
  | Lt => true
  | Gt => false
  | Eq => match compare_nullable (snd a) (snd b) with
          | Gt => false
          | _ => true
          end
  end.

Fixpoint insert_by {A} (leb : A -> A -> bool) (x : A) (l : list A) : list A :=
  match l with
  | [] => [x]
  | y :: rest => if leb x y then x :: l else y :: insert_by leb x rest
  end.

(** A stable sort: rows with equal keys keep the order of the scan. *)
Definition order_by {A} (leb : A -> A -> bool) (l : list A) : list A :=
  fold_right (insert_by leb) [] l.

Definition month_day (d : Date) : Z * Z := (month d, day d).

Definition month_day_eqb (a b : Z * Z) : bool :=
  (fst a =? fst b) && (snd a =? snd b).

(* ================================================================= *)
(** ** birthdayRepository.js                                          *)
(* ================================================================= *)

(** [SELECT b.*, u.name FROM birthdays b LEFT JOIN users u ...
    WHERE b.phone_number = ? AND b.group_id = ?], first row. *)
Definition getBirthdayByUserAndGroup (phoneNumber groupId : string)
  : Async (option BirthdayRow) :=
  d <- get_db ;;
  ret (hd_error
         (map fst
            (filter (fun bu => String.eqb (b_phone_number (fst bu)) phoneNumber
                               && String.eqb (b_group_id (fst bu)) groupId)
               (left_join (birthdays d) (users d)
                  (fun b u => String.eqb (b_phone_number b)
                                         (u_phone_number u)))))).

Definition update_birth_date (phoneNumber groupId : string) (birthDate : Date)
  (b : BirthdayRow) : BirthdayRow :=
  if String.eqb (b_phone_number b) phoneNumber
     && String.eqb (b_group_id b) groupId
  then mkBirthday (b_id b) (b_phone_number b) birthDate (b_group_id b)
  else b.

Definition count_if {A} (f : A -> bool) (l : list A) : nat :=
  List.length (filter f l).

Definition addOrUpdateBirthday (env : Env)
  (phoneNumber : string) (birthDate : Date) (groupId : string)
  : Async RunResult :=
  existingBirthday <- getBirthdayByUserAndGroup phoneNumber groupId ;;
  match existingBirthday with
  | Some _ =>
      d <- get_db ;;
      put_db (set_birthdays d
                (map (update_birth_date phoneNumber groupId birthDate)
                     (birthdays d))) ;;
      ret (mkRun (count_if
                    (fun b => String.eqb (b_phone_number b) phoneNumber
                              && String.eqb (b_group_id b) groupId)
                    (birthdays d)))
  | None =>
      birthdayId <- crypto_randomUUID env ;;
      d <- get_db ;;
      if existsb (fun b => String.eqb (b_id b) birthdayId) (birthdays d)
      then throw (SqliteConstraint "UNIQUE constraint failed: birthdays.id")
      else
        put_db (set_birthdays d
                  (birthdays d
                   ++ [mkBirthday birthdayId phoneNumber birthDate groupId])) ;;
        ret (mkRun 1)
  end.

(* ================================================================= *)
(** ** reminderRepository.js                                          *)
(* ================================================================= *)

(** [INSERT INTO reminders (id, birthday_id, reminder_date, sent, sent_at)
    VALUES (?, ?, ?, false, NULL)] *)
Definition createReminder (env : Env) (birthdayId : string)
  (reminderDate : Date) : Async RunResult :=
  reminderId <- crypto_randomUUID env ;;
  d <- get_db ;;
  if existsb (fun r => String.eqb (r_id r) reminderId) (reminders d)
  then throw (SqliteConstraint "UNIQUE constraint failed: reminders.id")
  else
    put_db (set_reminders d
              (reminders d
               ++ [mkReminder reminderId birthdayId reminderDate false None])) ;;
    ret (mkRun 1).

Definition mark_sent (reminderId : string) (ts : Z) (r : ReminderRow)
  : ReminderRow :=
  if String.eqb (r_id r) reminderId
  then mkReminder (r_id r) (birthday_id r) (reminder_date r) true (Some ts)
  else r.

(** [UPDATE reminders SET sent = true, sent_at = CURRENT_TIMESTAMP
    WHERE id = ?] *)
Definition markReminderSent (env : Env) (reminderId : string)
  : Async RunResult :=
  d <- get_db ;;
  put_db (set_reminders d
            (map (mark_sent reminderId (CURRENT_TIMESTAMP env))
                 (reminders d))) ;;
  ret (mkRun (count_if (fun r => String.eqb (r_id r) reminderId)
                       (reminders d))).

(** The [FROM] clause of [getPendingReminders]:
    [reminders r INNER JOIN birthdays b ON r.birthday_id = b.id
     LEFT JOIN users u ON b.phone_number = u.phone_number
     LEFT JOIN groups g ON b.group_id = g.group_id]. *)
Definition pending_from (d : Database)
  : list (ReminderRow * BirthdayRow * option UserRow * option GroupRow) :=
  left_join
    (left_join
       (inner_join (reminders d) (birthdays d)
          (fun r b => String.eqb (birthday_id r) (b_id b)))
       (users d)
       (fun rb u => String.eqb (b_phone_number (snd rb)) (u_phone_number u)))
    (groups d)
    (fun rbu g => String.eqb (b_group_id (snd (fst rbu))) (g_group_id g)).

(** [WHERE r.reminder_date = ? AND r.sent = false AND g.bot_active = true];
    on a NULL group the last comparison is not true. *)
Definition pending_where (reminderDate : Date)
  (row : ReminderRow * BirthdayRow * option UserRow * option GroupRow) : bool :=
  let '(r, _, _, g) := row in
  date_eqb (reminder_date r) reminderDate
  && negb (sent r)
  && match g with Some g => bot_active g | None => false end.

Definition pending_select
  (row : ReminderRow * BirthdayRow * option UserRow * option GroupRow)
  : PendingReminder :=
  let '(r, b, u, g) := row in
  mkPending r (b_phone_number b) (birth_date b) (b_group_id b)
            (option_map u_name u) (option_map group_name g).

(** [ORDER BY g.group_name, u.name] *)
Definition pending_order_key (p : PendingReminder)
  : option string * option string :=
  (p_group_name p, name p).

Definition pending_leb (p q : PendingReminder) : bool :=
  order_key_leb (pending_order_key p) (pending_order_key q).

Definition select_pending (reminderDate : Date) (d : Database)
  : list PendingReminder :=
  order_by pending_leb
    (map pending_select (filter (pending_where reminderDate) (pending_from d))).

Definition getPendingReminders (env : Env) (date : option Date)
  : Async (list PendingReminder) :=
  let reminderDate :=
    match date with Some d => d | None => local_date (now env) end in
  d <- get_db ;;
  ret (select_pending reminderDate d).

(** [SELECT 1 FROM reminders WHERE birthday_id = ? AND reminder_date = ?] *)
Definition has_reminder (birthdayId : string) (reminderDate : Date)
  (rs : list ReminderRow) : bool :=
  existsb (fun r => String.eqb (birthday_id r) birthdayId
                    && date_eqb (reminder_date r) reminderDate) rs.

Definition reminderExists (birthdayId : string) (reminderDate : Date)
  : Async bool :=
  d <- get_db ;;
  ret (has_reminder birthdayId reminderDate (reminders d)).

(** [DELETE FROM reminders WHERE reminder_date < ? AND sent = true], the
    parameter being [moment().subtract(daysOld, 'days')]. *)
Definition deleteOldReminders (env : Env) (daysOld : nat) : Async RunResult :=
  let cutoffDate := subtract_days daysOld (local_date (now env)) in
  d <- get_db ;;
  let old r := date_ltb (reminder_date r) cutoffDate && sent r in
  put_db (set_reminders d (filter (fun r => negb (old r)) (reminders d))) ;;
  ret (mkRun (count_if old (reminders d))).

(** The query of [createTodaysReminders]:
    [SELECT b.id as birthday_id FROM birthdays b
     INNER JOIN groups g ON b.group_id = g.group_id
     WHERE strftime('%m-%d', b.birth_date) = ? AND g.bot_active = true
     AND NOT EXISTS (SELECT 1 FROM reminders r
                     WHERE r.birthday_id = b.id AND r.reminder_date = ?)]
    The statement has no [ORDER BY]: the list is given in the order of
    the scan of [birthdays], and SQLite may return the same rows group by
    group. *)
Definition birthdays_without_reminder (todayMD : Z * Z) (today : Date)
  (d : Database) : list string :=
  map (fun bg => b_id (fst bg))
    (filter (fun bg =>
               month_day_eqb (month_day (birth_date (fst bg))) todayMD
               && bot_active (snd bg)
               && negb (has_reminder (b_id (fst bg)) today (reminders d)))
       (inner_join (birthdays d) (groups d)
          (fun b g => String.eqb (b_group_id b) (g_group_id g)))).

(** The loop [for (const birthday of birthdays)
    { results.push(await this.createReminder(birthday.birthday_id, today)) }] *)
Fixpoint createReminders (env : Env) (ids : list string) (today : Date)
  : Async (list RunResult) :=
  match ids with
  | [] => ret []
  | birthdayId :: rest =>
      result <- createReminder env birthdayId today ;;
      results <- createReminders env rest today ;;
      ret (result :: results)
  end.

Definition createTodaysReminders (env : Env) : Async (list RunResult) :=
  let today := local_date (now env) in
  let todayMD := month_day (local_date (now env)) in
  d <- get_db ;;
  createReminders env (birthdays_without_reminder todayMD today d) today.

(* ================================================================= *)
(** ** The repository object as the scheduler reaches it              *)
(* ================================================================= *)

(** The values that cross a method call. *)
Inductive JsValue :=
| JsUndefined
| JsString (s : string)
| JsNumber (n : nat)
| JsBoolean (b : bool)
| JsDate (d : Date)
| JsRun (r : RunResult)
| JsRuns (rs : list RunResult)
| JsRows (rows : list PendingReminder).

Definition Method : Type := Env -> list JsValue -> Async JsValue.

(** The methods that [class ReminderRepository] defines, by name.  The
    four pure queries whose rows no caller in the engine consumes
    resolve without a modelled value; an argument list that the typed
    store cannot bind is rejected. *)
Definition ReminderRepository_prototype : list (string * Method) :=
  [ ("createReminder"%string,
     fun env args =>
       match args with
       | JsString birthdayId :: JsDate reminderDate :: _ =>
           r <- createReminder env birthdayId reminderDate ;; ret (JsRun r)
       | _ => throw (SqliteConstraint "reminders: parameters")
       end);
    ("markReminderSent"%string,
     fun env args =>
       match args with
       | JsString reminderId :: _ =>
           r <- markReminderSent env reminderId ;; ret (JsRun r)
       | _ => ret (JsRun (mkRun 0))
       end);
    ("getPendingReminders"%string,
     fun env args =>
       match args with
       | [] | JsUndefined :: _ =>
           rows <- getPendingReminders env None ;; ret (JsRows rows)
       | JsDate d :: _ =>
           rows <- getPendingReminders env (Some d) ;; ret (JsRows rows)
       | JsString EmptyString :: _ | JsNumber O :: _ | JsBoolean false :: _ =>
           (* [date || moment().format('YYYY-MM-DD')]: a falsy argument *)
           rows <- getPendingReminders env None ;; ret (JsRows rows)
       | _ => ret (JsRows [])
       end);
    ("getReminderById"%string, fun _ _ => ret JsUndefined);
    ("getRemindersByBirthday"%string, fun _ _ => ret JsUndefined);
    ("getReminderHistory"%string, fun _ _ => ret JsUndefined);
    ("reminderExists"%string,
     fun env args =>
       match args with
       | JsString birthdayId :: JsDate reminderDate :: _ =>
           b <- reminderExists birthdayId reminderDate ;; ret (JsBoolean b)
       | _ => ret (JsBoolean false)
       end);
    ("deleteOldReminders"%string,
     fun env args =>
       match args with
       | [] | JsUndefined :: _ =>
           r <- deleteOldReminders env 365 ;; ret (JsRun r)
       | JsNumber daysOld :: _ =>
           r <- deleteOldReminders env daysOld ;; ret (JsRun r)
       | _ => throw (SqliteConstraint "reminders: parameters")
       end);
    ("getReminderStats"%string, fun _ _ => ret JsUndefined);
    ("createTodaysReminders"%string,
     fun env _ => rs <- createTodaysReminders env ;; ret (JsRuns rs)) ].

Fixpoint get_property (prop : string) (obj : list (string * Method))
  : option Method :=
  match obj with
  | [] => None
  | (key, m) :: rest =>
      if String.eqb key prop then Some m else get_property prop rest
  end.

(** [await reminderRepository.<prop>(...args)]: calling a property that
    the object does not have throws a [TypeError]. *)
Definition reminderRepository (prop : string) (args : list JsValue)
  (env : Env) : Async JsValue :=
  match get_property prop ReminderRepository_prototype with
  | Some method => method env args
  | None =>
      throw (TypeError ("reminderRepository." ++ prop ++ " is not a function"))
  end.

(* ================================================================= *)
(** ** cronScheduler.js                                               *)
(* ================================================================= *)

Definition createBirthdayMessage (env : Env) (name : option string)
  (phoneNumber : string) : Async Message :=
  randomIndex <- Math_random_index env ;;
  ret (mkMessage randomIndex phoneNumber).

Definition processBirthdayReminder (env : Env) (reminder : PendingReminder)
  : Async unit :=
  try_catch
    (let id := r_id (p_reminder reminder) in
     message <- createBirthdayMessage env (name reminder)
                  (phone_number reminder) ;;
     (* Send message to group *)
     sendMessage env (group_id reminder) message ;;
     (* Mark reminder as sent *)
     reminderRepository "markReminderAsSent" [JsString id] env ;;
     ret tt)
    (fun error => console_error error).

Definition checkTodaysBirthdays (env : Env) : Async unit :=
  try_catch
    (v <- reminderRepository "getPendingReminders" [] env ;;
     match v with
     | JsRows pendingReminders =>
         if (List.length pendingReminders =? 0)%nat then ret tt
         else
           for_of pendingReminders
             (fun reminder =>
                processBirthdayReminder env reminder ;;
                delay 1000)
     | _ => throw (TypeError "pendingReminders.length")
     end)
    (fun error => console_error error).

Definition createTomorrowReminders (env : Env) : Async unit :=
  try_catch
    (let tomorrow := format_MM_DD (next_day (local_date (now env))) in
     reminderRepository "createRemindersForDate" [JsString tomorrow] env ;;
     ret tt)
    (fun error => console_error error).

Definition cleanupOldReminders (env : Env) : Async unit :=
  try_catch
    (reminderRepository "deleteOldReminders" [JsNumber 7] env ;; ret tt)
    (fun error => console_error error).

(** The manual triggers of the scheduler. *)
Definition triggerBirthdayCheck (env : Env) : Async unit :=
  checkTodaysBirthdays env.

Definition triggerReminderCreation (env : Env) : Async unit :=
  createTomorrowReminders env.

(* ================================================================= *)
(** ** Predicates of the statements                                   *)
(* ================================================================= *)

(** [(month, day)] strictly earlier in the calendar. *)
Definition month_day_ltb (a b : Z * Z) : bool :=
  (fst a <? fst b) || ((fst a =? fst b) && (snd a <? snd b)).

(** Number of reminder records of a birthday for a date. *)
Definition count_reminders (birthdayId : string) (d : Date)
  (rs : list ReminderRow) : nat :=
  count_if (fun r => String.eqb (birthday_id r) birthdayId
                     && date_eqb (reminder_date r) d) rs.

(** The dedup key: no pair [(birthday_id, reminder_date)] has two
    records. *)
Definition dedup_key (rs : list ReminderRow) : Prop :=
  forall birthdayId d, (count_reminders birthdayId d rs <= 1)%nat.

(** The primary keys of [groups] and [birthdays]. *)
Definition primary_keys (d : Database) : Prop :=
  NoDup (map g_group_id (groups d)) /\ NoDup (map b_id (birthdays d)).

(** A birthday that the materialization of [today] is due for: its
    month and day are today's and its group is active. *)
Definition eligible (d : Database) (today : Date) (b : BirthdayRow) : Prop :=
  In b (birthdays d)
  /\ month_day (birth_date b) = month_day today
  /\ exists g, In g (groups d)
               /\ g_group_id g = b_group_id b /\ bot_active g = true.

(** The group with that identifier is active. *)
Definition active_group (d : Database) (groupId : string) : Prop :=
  exists g, In g (groups d) /\ g_group_id g = groupId /\ bot_active g = true.

(** [sent_at] is non-null exactly on the sent records. *)
Definition sent_at_iff_sent (r : ReminderRow) : Prop :=
  sent_at r <> None <-> sent r = true.

(** The order of the design document: by [groupId], then by [ownerId]. *)
Definition spec_group_then_owner_leb (p q : PendingReminder) : bool :=
  match String.compare (group_id p) (group_id q) with
  | Lt => true
  | Gt => false
  | Eq => String.leb (phone_number p) (phone_number q)
  end.

(* ================================================================= *)
(** ** Sample data                                                    *)
(* ================================================================= *)

(** The rows that [init.sql] inserts. *)
Definition init_sql : Database :=
  mkDatabase
    [ mkUser "1234567890" "John Doe"; mkUser "0987654321" "Jane Smith" ]
    [ mkGroup "sample_group_123" "Family Group" true ]
    [ mkBirthday "bd_001" "1234567890" (mkDate 1990 3 15) "sample_group_123";
      mkBirthday "bd_002" "0987654321" (mkDate 1985 7 22) "sample_group_123" ]
    [].

Definition uuid_of_nat (n : nat) : string :=
  ("uuid-" ++ pad4 (Z.of_nat n))%string.

(** A run at the given local time in which the n-th delivery succeeds
    when [delivers n] holds. *)
Definition env_at (t : Moment) (delivers : nat -> bool) : Env :=
  mkEnv t 1742000000 uuid_of_nat (fun n => n) (fun n _ => delivers n).

Definition always : nat -> bool := fun _ => true.

Definition world_of (d : Database) : World := mkWorld d 0 0 0 [] [].

(** 2025-03-14 23:59 and 2025-03-15 00:00, the two cron times. *)
Definition march_14_2359 : Moment := mkMoment (mkDate 2025 3 14) 86340000.
Definition march_15_0000 : Moment := mkMoment (mkDate 2025 3 15) 0.
Definition march_14_1000 : Moment := mkMoment (mkDate 2025 3 14) 36000000.
Definition march_14_0000 : Moment := mkMoment (mkDate 2025 3 14) 0.

(** [init.sql] with the reminder of bd_001 for 2025-03-15, pending. *)
Definition pending_march_15 : Database :=
  set_reminders init_sql
    [ mkReminder "r_001" "bd_001" (mkDate 2025 3 15) false None ].

(** The same reminder, already sent at an earlier time. *)
Definition sent_march_15 : Database :=
  set_reminders init_sql
    [ mkReminder "r_001" "bd_001" (mkDate 2025 3 15) true (Some 1741996800) ].

(** Two active groups whose names sort against their identifiers. *)
Definition two_groups : Database :=
  mkDatabase
    [ mkUser "111" "Ann"; mkUser "222" "Bob" ]
    [ mkGroup "g1" "Zulu" true; mkGroup "g2" "Alpha" true ]
    [ mkBirthday "bd_a" "111" (mkDate 1990 3 15) "g1";
      mkBirthday "bd_b" "222" (mkDate 1991 3 15) "g2" ]
    [ mkReminder "r_a" "bd_a" (mkDate 2025 3 15) false None;
      mkReminder "r_b" "bd_b" (mkDate 2025 3 15) false None ].

(** Three members of one group with a pending reminder each: R1, R2, R3
    in the order of [getPendingReminders]. *)
Definition three_pending : Database :=
  mkDatabase
    [ mkUser "111" "Ann"; mkUser "222" "Bob"; mkUser "333" "Cid" ]
    [ mkGroup "sample_group_123" "Family Group" true ]
    [ mkBirthday "bd_1" "111" (mkDate 1990 3 15) "sample_group_123";
      mkBirthday "bd_2" "222" (mkDate 1991 3 15) "sample_group_123";
      mkBirthday "bd_3" "333" (mkDate 1992 3 15) "sample_group_123" ]
    [ mkReminder "R1" "bd_1" (mkDate 2025 3 15) false None;
      mkReminder "R2" "bd_2" (mkDate 2025 3 15) false None;
      mkReminder "R3" "bd_3" (mkDate 2025 3 15) false None ].

(** The second delivery of the run fails, the others succeed. *)
Definition second_fails : nat -> bool := fun n => negb (Nat.eqb n 1).

(** A group that was switched off after its reminder was created. *)
Definition inactive_group : Database :=
  mkDatabase
    [ mkUser "1234567890" "John Doe" ]
    [ mkGroup "sample_group_123" "Family Group" false ]
    [ mkBirthday "bd_001" "1234567890" (mkDate 1990 3 15) "sample_group_123" ]
    [ mkReminder "r_001" "bd_001" (mkDate 2025 3 15) false None ].

(** The new rows of a materialization: a UUID and a birthday each. *)
Definition new_reminder (today : Date) (p : string * string) : ReminderRow :=
  mkReminder (fst p) (snd p) today false None.

(** A boolean comparison as a relation. *)
Definition le_of {A} (leb : A -> A -> bool) (x y : A) : Prop := leb x y = true.

(** The order of [getPendingReminders] as a relation. *)
Definition pending_le : PendingReminder -> PendingReminder -> Prop :=
  le_of pending_leb.

Definition spec_group_then_owner_le
  : PendingReminder -> PendingReminder -> Prop :=
  le_of spec_group_then_owner_leb.

(* ================================================================= *)
(** ** birthdayRepository.js, the other statements                    *)
(* ================================================================= *)

(** [WHERE phone_number = ? AND group_id = ?] on [birthdays]. *)
Definition same_member (phoneNumber groupId : string) (b : BirthdayRow)
  : bool :=
  String.eqb (b_phone_number b) phoneNumber
  && String.eqb (b_group_id b) groupId.

(** [DELETE FROM birthdays WHERE phone_number = ? AND group_id = ?];
    foreign keys are not enforced, the reminders of the birthday stay. *)
Definition removeBirthday (phoneNumber groupId : string) : Async RunResult :=
  d <- get_db ;;
  put_db (set_birthdays d
            (filter (fun b => negb (same_member phoneNumber groupId b))
                    (birthdays d))) ;;
  ret (mkRun (count_if (same_member phoneNumber groupId) (birthdays d))).

Definition hasBirthdayInGroup (phoneNumber groupId : string) : Async bool :=
  birthday <- getBirthdayByUserAndGroup phoneNumber groupId ;;
  ret (match birthday with Some _ => true | None => false end).

(** The text order of ['MM-DD'] on two-digit fields. *)
Definition month_day_leb (a b : Z * Z) : bool := negb (month_day_ltb b a).

(** [SELECT b.*, u.name FROM birthdays b LEFT JOIN users u ...
    WHERE b.group_id = ? ORDER BY strftime('%m-%d', b.birth_date)] *)
Definition getBirthdaysByGroup (groupId : string)
  : Async (list (BirthdayRow * option string)) :=
  d <- get_db ;;
  ret (order_by
         (fun x y => month_day_leb (month_day (birth_date (fst x)))
                                   (month_day (birth_date (fst y))))
         (map (fun bu => (fst bu, option_map u_name (snd bu)))
            (filter (fun bu => String.eqb (b_group_id (fst bu)) groupId)
               (left_join (birthdays d) (users d)
                  (fun b u => String.eqb (b_phone_number b)
                                         (u_phone_number u)))))).

(** [if (groupId)]: [null], [undefined] and the empty string are falsy. *)
Definition truthy (s : option string) : bool :=
  match s with
  | Some x => negb (String.eqb x "")
  | None => false
  end.

(** [getTodaysBirthdays(groupId = null)]:
    [SELECT b.*, u.name, g.group_name FROM birthdays b
     LEFT JOIN users u ... LEFT JOIN groups g ...
     WHERE strftime('%m-%d', b.birth_date) = ? [AND b.group_id = ?]
     AND g.bot_active = true] *)
Definition getTodaysBirthdays (env : Env) (groupId : option string)
  : Async (list (BirthdayRow * option string * option string)) :=
  let today := month_day (local_date (now env)) in
  d <- get_db ;;
  ret (map (fun bug => (fst (fst bug), option_map u_name (snd (fst bug)),
                        option_map group_name (snd bug)))
         (filter
            (fun bug =>
               month_day_eqb (month_day (birth_date (fst (fst bug)))) today
               && (if truthy groupId
                   then match groupId with
                        | Some g => String.eqb (b_group_id (fst (fst bug))) g
                        | None => true
                        end
                   else true)
               && match snd bug with
                  | Some g => bot_active g
                  | None => false
                  end)
            (left_join
               (left_join (birthdays d) (users d)
                  (fun b u => String.eqb (b_phone_number b) (u_phone_number u)))
               (groups d)
               (fun bu g => String.eqb (b_group_id (fst bu)) (g_group_id g))))).

(* ================================================================= *)
(** ** reminderRepository.js, the other statements                    *)
(* ================================================================= *)

(** [getReminderById]: the joins and columns of [getPendingReminders],
    [WHERE r.id = ?], first row. *)
Definition getReminderById (reminderId : string)
  : Async (option PendingReminder) :=
  d <- get_db ;;
  ret (hd_error
         (map pending_select
            (filter (fun row => String.eqb (r_id (fst (fst (fst row))))
                                           reminderId)
                    (pending_from d)))).

(** [SELECT * FROM reminders WHERE birthday_id = ?
    ORDER BY reminder_date DESC]; the order of two reminders of one date
    is left to SQLite. *)
Definition getRemindersByBirthday (birthdayId : string)
  : Async (list ReminderRow) :=
  d <- get_db ;;
  ret (order_by
         (fun x y => negb (date_ltb (reminder_date x) (reminder_date y)))
         (filter (fun r => String.eqb (birthday_id r) birthdayId)
                 (reminders d))).



(** A row of [getReminderHistory]:
    [r.*, b.phone_number, b.birth_date, u.name]. *)
Record HistoryRow := mkHistory {
  h_reminder : ReminderRow;
  h_phone_number : string;
  h_birth_date : Date;
  h_name : option string
}.

(** [ORDER BY r.sent_at DESC]: later first, NULL last. *)
Definition sent_at_geb (a b : option Z) : bool :=
  match a, b with
  | _, None => true
  | None, Some _ => false
  | Some x, Some y => y <=? x
  end.

(** [getReminderHistory(groupId, limit = 50)]:
    [... WHERE b.group_id = ? AND r.sent = true
     ORDER BY r.sent_at DESC LIMIT ?] *)
Definition getReminderHistory (groupId : string) (limit : nat)
  : Async (list HistoryRow) :=
  d <- get_db ;;
  ret (firstn limit
         (order_by
            (fun x y => sent_at_geb (sent_at (h_reminder x))
                                    (sent_at (h_reminder y)))
            (map (fun rbu =>
                    mkHistory (fst (fst rbu))
                              (b_phone_number (snd (fst rbu)))
                              (birth_date (snd (fst rbu)))
                              (option_map u_name (snd rbu)))
               (filter (fun rbu =>
                          String.eqb (b_group_id (snd (fst rbu))) groupId
                          && sent (fst (fst rbu)))
                  (left_join
                     (inner_join (reminders d) (birthdays d)
                        (fun r b => String.eqb (birthday_id r) (b_id b)))
                     (users d)
                     (fun rb u => String.eqb (b_phone_number (snd rb))
                                             (u_phone_number u))))))).

(* ================================================================= *)
(** ** groupRepository.js                                             *)
(* ================================================================= *)

Definition set_groups (d : Database) (l : list GroupRow) : Database :=
  mkDatabase (users d) l (birthdays d) (reminders d).

(** [INSERT OR REPLACE INTO groups (group_id, group_name, bot_active,
    created_at) VALUES (...)]: a row with the same primary key is
    deleted, then the new row is inserted. *)
Definition createOrUpdateGroup (groupId groupName : string) (botActive : bool)
  : Async RunResult :=
  d <- get_db ;;
  put_db (set_groups d
            (filter (fun g => negb (String.eqb (g_group_id g) groupId))
                    (groups d)
             ++ [mkGroup groupId groupName botActive])) ;;
  ret (mkRun 1).

(** [SELECT * FROM groups WHERE group_id = ?], first row. *)
Definition getGroupById (groupId : string) : Async (option GroupRow) :=
  d <- get_db ;;
  ret (hd_error (filter (fun g => String.eqb (g_group_id g) groupId)
                        (groups d))).

(** [SELECT * FROM groups WHERE bot_active = true ORDER BY group_name] *)
Definition getActiveGroups : Async (list GroupRow) :=
  d <- get_db ;;
  ret (order_by (fun x y => String.leb (group_name x) (group_name y))
                (filter bot_active (groups d))).

Definition set_bot_active (groupId : string) (botActive : bool) (g : GroupRow)
  : GroupRow :=
  if String.eqb (g_group_id g) groupId
  then mkGroup (g_group_id g) (group_name g) botActive
  else g.

(** [UPDATE groups SET bot_active = ? WHERE group_id = ?] *)
Definition updateBotStatus (groupId : string) (botActive : bool)
  : Async RunResult :=
  d <- get_db ;;
  put_db (set_groups d (map (set_bot_active groupId botActive) (groups d))) ;;
  ret (mkRun (count_if (fun g => String.eqb (g_group_id g) groupId)
                       (groups d))).

Definition groupExists (groupId : string) : Async bool :=
  group <- getGroupById groupId ;;
  ret (match group with Some _ => true | None => false end).

(* ================================================================= *)
(** ** cronScheduler.js: the registry of jobs                         *)
(* ================================================================= *)

(** A job of node-cron: the expression [minute hour * * *], the
    [timezone] option and whether [job.start()] has been called. *)
Record CronJob := mkCronJob {
  at_minute : Z;
  at_hour : Z;
  timezone : option string;
  started : bool
}.

(** The fields of the scheduler: [this.jobs], a [Map] in insertion
    order, and [this.isRunning]. *)
Record CronScheduler := mkCronScheduler {
  jobs : list (string * CronJob);
  isRunning : bool
}.

(** [constructor()] *)
Definition newCronScheduler : CronScheduler := mkCronScheduler [] false.

(** [Map.prototype.set]: an existing key keeps its place. *)
Fixpoint Map_set (key : string) (job : CronJob) (m : list (string * CronJob))
  : list (string * CronJob) :=
  match m with
  | [] => [(key, job)]
  | (k, j) :: rest =>
      if String.eqb k key then (k, job) :: rest
      else (k, j) :: Map_set key job rest
  end.

(** [Map.prototype.delete] *)
Definition Map_delete (key : string) (m : list (string * CronJob))
  : list (string * CronJob) :=
  filter (fun kj => negb (String.eqb (fst kj) key)) m.

Definition register (name : string) (job : CronJob) (s : CronScheduler)
  : CronScheduler :=
  mkCronScheduler (Map_set name job (jobs s)) (isRunning s).

(** ['0 0 * * *'], ['0 2 * * *'] and ['59 23 * * *'] in Africa/Lagos;
    each job is created unscheduled and started at once. *)
Definition scheduleBirthdayCheck (s : CronScheduler) : CronScheduler :=
  register "birthdayCheck" (mkCronJob 0 0 (Some "Africa/Lagos"%string) true) s.

Definition scheduleCleanupJob (s : CronScheduler) : CronScheduler :=
  register "cleanup" (mkCronJob 0 2 (Some "Africa/Lagos"%string) true) s.

Definition scheduleReminderCreation (s : CronScheduler) : CronScheduler :=
  register "reminderCreation"
    (mkCronJob 59 23 (Some "Africa/Lagos"%string) true) s.

Definition start (s : CronScheduler) : CronScheduler :=
  if isRunning s then s
  else
    let s1 := scheduleBirthdayCheck s in
    let s2 := scheduleCleanupJob s1 in
    let s3 := scheduleReminderCreation s2 in
    mkCronScheduler (jobs s3) true.

(** Every job is stopped, then the map is cleared. *)
Definition stop (s : CronScheduler) : CronScheduler :=
  if negb (isRunning s) then s
  else mkCronScheduler [] false.

Record Status := mkStatus {
  status_isRunning : bool;
  activeJobs : list string;
  jobCount : nat
}.

Definition getStatus (s : CronScheduler) : Status :=
  mkStatus (isRunning s) (map fst (jobs s)) (List.length (jobs s)).

(** [scheduleTestJob(delayMinutes = 1)]: a job at the minute and hour of
    [moment().add(delayMinutes, 'minutes')], without a timezone. *)
Definition scheduleTestJob (reference : Moment) (delayMinutes : Z)
  (s : CronScheduler) : CronScheduler :=
  let minutes := millis reference / 60000 + delayMinutes in
  register "test" (mkCronJob (minutes mod 60) ((minutes / 60) mod 24) None true)
           s.

(** The end of the callback of the test job:
    [this.jobs.delete('test')]. *)
Definition testJobExecuted (s : CronScheduler) : CronScheduler :=
  mkCronScheduler (Map_delete "test" (jobs s)) (isRunning s).

(** The states that calls of the methods reach from the constructor. *)
Inductive reachable : CronScheduler -> Prop :=
| reach_new : reachable newCronScheduler
| reach_start s : reachable s -> reachable (start s)
| reach_stop s : reachable s -> reachable (stop s)
| reach_test s reference delayMinutes :
    reachable s -> reachable (scheduleTestJob reference delayMinutes s)
| reach_executed s : reachable s -> reachable (testJobExecuted s).

(** What a registered job is under its name: the three daily jobs with
    their expression and timezone, any other name (the test job) a
    started job without timezone at a minute and an hour of the day. *)
Definition scheduled_as (name : string) (job : CronJob) : Prop :=
  if String.eqb name "birthdayCheck"
  then job = mkCronJob 0 0 (Some "Africa/Lagos"%string) true
  else if String.eqb name "cleanup"
  then job = mkCronJob 0 2 (Some "Africa/Lagos"%string) true
  else if String.eqb name "reminderCreation"
  then job = mkCronJob 59 23 (Some "Africa/Lagos"%string) true
  else started job = true /\ timezone job = None
       /\ 0 <= at_minute job < 60 /\ 0 <= at_hour job < 24.

Definition daily_jobs : list string :=
  ["birthdayCheck"; "cleanup"; "reminderCreation"]%string.

(* ================================================================= *)
(** ** commandParser.js: the handlers that write or read a birthday   *)
(* ================================================================= *)

(** A line of the reply of [handleListBirthdays],
    [`${index + 1}. ${name} - ${formattedDate}${dayText}`]: the index is
    the place in the list. *)
Record BirthdayLine := mkLine {
  line_name : string;
  line_date : Date;
  line_text : option DayText
}.

(** The replies of the handlers, by their text; the date and the day
    text are the parts that depend on the data. *)
Inductive Reply :=
| AddBirthdayUsage
| InvalidDateFormat
| BirthdayAdded (birthDate : Date)
| NoBirthdayRegistered
| BirthdayRemoved
| NoBirthdayYet
| YourBirthday (birth_date : Date) (text : DayText)
| NoBirthdaysYet
| GroupBirthdays (lines : list BirthdayLine)
| ErrorReply (errorMsg : string).

(** A conversation: the world and the replies delivered so far, each
    with its chat. *)
Record Session := mkSession {
  world : World;
  replies : list (string * Reply)
}.

Definition Chat (A : Type) : Type := Session -> Outcome A * Session.

Definition chat_ret {A} (a : A) : Chat A := fun s => (Resolved a, s).

Definition chat_throw {A} (e : Exn) : Chat A := fun s => (Rejected e, s).

Definition chat_bind {A B} (c : Chat A) (k : A -> Chat B) : Chat B :=
  fun s =>
    match c s with
    | (Resolved a, s') => k a s'
    | (Rejected e, s') => (Rejected e, s')
    end.

Definition chat_try {A} (c : Chat A) (h : Exn -> Chat A) : Chat A :=
  fun s =>
    match c s with
    | (Resolved a, s') => (Resolved a, s')
    | (Rejected e, s') => h e s'
    end.

(** A call into the repositories or the console. *)
Definition lift {A} (c : Async A) : Chat A :=
  fun s =>
    match c (world s) with
    | (o, w') => (o, mkSession w' (replies s))
    end.

Declare Scope chat_scope.
Delimit Scope chat_scope with chat.
Notation "x <- c ;; k" := (chat_bind c (fun x => k))
  (at level 61, c at next level, right associativity) : chat_scope.
Notation "c ;; k" := (chat_bind c (fun _ => k))
  (at level 61, right associativity) : chat_scope.

(** [this.sendMessage(chatId, message)], which is
    [whatsappClient.sendMessage]: the same client as the scheduler's,
    with the same convention for what the client writes to the console
    itself. *)
Definition sendReply (env : Env) (chatId : string) (reply : Reply)
  : Chat unit :=
  fun s =>
    let w := world s in
    let w' :=
      mkWorld (db w) (uuids_drawn w) (randoms_drawn w) (S (send_attempts w))
              (outbox w) (console_errors w) in
    if client_delivers env (send_attempts w) chatId
    then (Resolved tt, mkSession w' (replies s ++ [(chatId, reply)]))
    else (Rejected (ClientError chatId), mkSession w' (replies s)).

Definition sendErrorMessage (env : Env) (chatId errorMsg : string)
  : Chat unit :=
  sendReply env chatId (ErrorReply errorMsg).

(** [handleAddBirthday(message, chat, contact, args)] with
    [chat.id._serialized] and [contact.number]. *)
Definition handleAddBirthday (env : Env) (chatId phoneNumber : string)
  (args : list string) : Chat unit :=
  (match args with
   | [] => sendReply env chatId AddBirthdayUsage
   | dateStr :: _ =>
       let groupId := chatId in
       (* Validate date format *)
       let validation := validateDate dateStr (now env) in
       if negb (isValid validation)
       then sendReply env chatId InvalidDateFormat
       else
         match v_date validation with
         | None => chat_throw (TypeError "validation.date.format")
         | Some m =>
             let birthDate := local_date m in
             chat_try
               (lift (addOrUpdateBirthday env phoneNumber birthDate groupId) ;;
                sendReply env chatId (BirthdayAdded birthDate))
               (fun error =>
                  lift (console_error error) ;;
                  sendErrorMessage env chatId
                    "Failed to add your birthday. Please try again.")
         end
   end)%chat.

Definition handleRemoveBirthday (env : Env) (chatId phoneNumber : string)
  : Chat unit :=
  (let groupId := chatId in
   chat_try
     (hasBirthday <- lift (hasBirthdayInGroup phoneNumber groupId) ;;
      if negb hasBirthday
      then sendReply env chatId NoBirthdayRegistered
      else
        lift (removeBirthday phoneNumber groupId) ;;
        sendReply env chatId BirthdayRemoved)
     (fun error =>
        lift (console_error error) ;;
        sendErrorMessage env chatId
          "Failed to remove your birthday. Please try again."))%chat.

Definition handleMyBirthday (env : Env) (chatId phoneNumber : string)
  : Chat unit :=
  (let groupId := chatId in
   chat_try
     (birthday <- lift (getBirthdayByUserAndGroup phoneNumber groupId) ;;
      match birthday with
      | None => sendReply env chatId NoBirthdayYet
      | Some row =>
          sendReply env chatId
            (YourBirthday (birth_date row)
               (handleMyBirthday_dayText (birth_date row) (now env)))
      end)
     (fun error =>
        lift (console_error error) ;;
        sendErrorMessage env chatId
          "Failed to get your birthday info. Please try again."))%chat.

(** [birthday.name || 'Unknown']: NULL and the empty string are falsy. *)
Definition name_or_Unknown (name : option string) : string :=
  match name with
  | Some n => if String.eqb n "" then "Unknown" else n
  | None => "Unknown"
  end.

(** The text after the date in a line of [handleListBirthdays]: nothing
    beyond seven days. *)
Definition handleListBirthdays_dayText (birth_date : Date) (now : Moment)
  : option DayText :=
  let n := daysUntil birth_date now in
  if n =? 0 then Some ItIsToday
  else if n =? 1 then Some ItIsTomorrow
  else if n <=? 7 then Some (DaysLeft n)
  else None.

(** [dateA.format('MM-DD').localeCompare(dateB.format('MM-DD'))] as the
    comparison of [birthdays.sort], a stable sort. *)
Definition compare_MM_DD (a b : BirthdayRow * option string) : bool :=
  month_day_leb (month_day (birth_date (fst a)))
                (month_day (birth_date (fst b))).

Definition handleListBirthdays (env : Env) (chatId : string) : Chat unit :=
  (let groupId := chatId in
   chat_try
     (birthdays <- lift (getBirthdaysByGroup groupId) ;;
      match birthdays with
      | [] => sendReply env chatId NoBirthdaysYet
      | _ :: _ =>
          (* Sort birthdays by month and day *)
          let sortedBirthdays := order_by compare_MM_DD birthdays in
          sendReply env chatId
            (GroupBirthdays
               (map (fun birthday =>
                       mkLine (name_or_Unknown (snd birthday))
                              (birth_date (fst birthday))
                              (handleListBirthdays_dayText
                                 (birth_date (fst birthday)) (now env)))
                    sortedBirthdays))
      end)
     (fun error =>
        lift (console_error error) ;;
        sendErrorMessage env chatId
          "Failed to get birthday list. Please try again."))%chat.

(* ================================================================= *)
(** * Date arithmetic                                                 *)
(* ================================================================= *)

Section DateMath.

Lemma valid_date_bounds d :
  valid_date d = true ->
  1 <= month d <= 12 /\ 1 <= day d <= daysInMonth (year d) (month d).
Proof.
  unfold valid_date. rewrite !andb_true_iff, !Z.leb_le. tauto.
Qed.

Lemma daysInMonth_upper y m : daysInMonth y m <= 31.
Proof.
  unfold daysInMonth.
  destruct (m =? 2); [destruct (isLeapYear y); lia |].
  destruct ((m =? 4) || (m =? 6) || (m =? 9) || (m =? 11)); lia.
Qed.

Lemma daysInMonth_not_feb y y' m : m <> 2 -> daysInMonth y m = daysInMonth y' m.
Proof.
  intros H. unfold daysInMonth.
  destruct (Z.eqb_spec m 2); [contradiction | reflexivity].
Qed.

Lemma daysInMonth_feb y : 28 <= daysInMonth y 2 <= 29.
Proof. unfold daysInMonth. simpl. destruct (isLeapYear y); lia. Qed.

Lemma date_ltb_irrefl d : date_ltb d d = false.
Proof.
  unfold date_ltb. rewrite !Z.ltb_irrefl, !Z.eqb_refl. reflexivity.
Qed.

(** The candidate of [getNextBirthdayDate] keeps the month and the day
    of a stored date, unless that date is a February 29 and the
    reference year has none. *)
Lemma set_year_keeps_month_day b y :
  valid_date b = true ->
  (month b = 2 -> day b = 29 -> daysInMonth y 2 = 29) ->
  set_year (of_date b) y = of_date (mkDate y (month b) (day b)).
Proof.
  intros Hb Hfeb. unfold set_year, of_date. simpl.
  destruct (isLeapYear (year b) && (month b =? 2) && (day b =? 29)) eqn:E;
    [| reflexivity].
  rewrite !andb_true_iff, !Z.eqb_eq in E. destruct E as [[_ Hm] Hd].
  rewrite Hm, Hd, (Hfeb Hm Hd). reflexivity.
Qed.

Lemma diff_days_same_day d ms :
  0 <= ms < MS_PER_DAY -> diff_days (of_date d) (mkMoment d ms) = 0.
Proof.
  intros H. unfold diff_days, valueOf, of_date. simpl.
  replace (days_from_civil d * MS_PER_DAY + 0
           - (days_from_civil d * MS_PER_DAY + ms)) with (- ms) by lia.
  rewrite Z.quot_opp_l by (unfold MS_PER_DAY; lia).
  rewrite Z.quot_small by exact H. reflexivity.
Qed.

End DateMath.

Section NextOccurrence.

Variable b : Date.
Variable reference : Moment.
Hypothesis b_valid : valid_date b = true.
Hypothesis reference_valid : valid_moment reference = true.

Lemma reference_date_valid : valid_date (local_date reference) = true.
Proof.
  unfold valid_moment in reference_valid.
  rewrite !andb_true_iff in reference_valid. tauto.
Qed.

Lemma reference_millis : 0 <= millis reference < MS_PER_DAY.
Proof.
  unfold valid_moment in reference_valid.
  rewrite !andb_true_iff, Z.leb_le, Z.ltb_lt in reference_valid. tauto.
Qed.

Lemma next_on_the_day :
  month_day b = month_day (local_date reference) ->
  getNextBirthdayDate (of_date b) reference
  = of_date (mkDate (year (local_date reference)) (month b) (day b)).
Proof.
  intros Hmd. unfold month_day in Hmd. injection Hmd as Hm Hd.
  unfold getNextBirthdayDate.
  rewrite set_year_keeps_month_day; [| exact b_valid |].
  - unfold isBefore_day, of_date. simpl.
    replace (mkDate (year (local_date reference)) (month b) (day b))
      with (local_date reference)
      by (destruct (local_date reference); simpl in *; congruence).
    rewrite date_ltb_irrefl. reflexivity.
  - intros Hfeb H29.
    pose proof (valid_date_bounds _ reference_date_valid) as [_ [_ Hle]].
    pose proof (daysInMonth_feb (year (local_date reference))) as Hb.
    rewrite <- Hm, Hfeb in Hle. lia.
Qed.

Lemma days_until_on_the_day :
  month_day b = month_day (local_date reference) -> daysUntil b reference = 0.
Proof.
  intros Hmd. unfold daysUntil. rewrite (next_on_the_day Hmd).
  unfold month_day in Hmd. injection Hmd as Hm Hd.
  replace (mkDate (year (local_date reference)) (month b) (day b))
    with (local_date reference)
    by (destruct (local_date reference); simpl in *; congruence).
  replace reference with (mkMoment (local_date reference) (millis reference))
    by (destruct reference; reflexivity).
  apply diff_days_same_day. simpl. exact reference_millis.
Qed.

Lemma next_after_the_day :
  month_day_ltb (month_day b) (month_day (local_date reference)) = true ->
  month_day b <> (2, 29) ->
  getNextBirthdayDate (of_date b) reference
  = of_date (mkDate (year (local_date reference) + 1) (month b) (day b)).
Proof.
  intros Hlt Hnot.
  pose proof (valid_date_bounds _ b_valid) as [Hmonth [Hday1 Hday]].
  assert (Hfeb : month b = 2 -> day b = 29 -> False).
  { intros Hm Hd. apply Hnot. unfold month_day. congruence. }
  unfold getNextBirthdayDate.
  rewrite set_year_keeps_month_day;
    [| exact b_valid | intros Hm Hd; destruct (Hfeb Hm Hd)].
  unfold month_day_ltb, month_day in Hlt. cbn [fst snd] in Hlt.
  unfold isBefore_day, of_date, date_ltb.
  cbn [local_date year month day millis].
  rewrite Z.ltb_irrefl, Z.eqb_refl, Hlt.
  cbn [orb andb]. unfold add_one_year.
  cbn [local_date year month day millis].
  rewrite Z.min_l; [reflexivity |].
  destruct (Z.eq_dec (month b) 2) as [Hm | Hm].
  - rewrite Hm in *. pose proof (daysInMonth_feb (year b)).
    pose proof (daysInMonth_feb (year (local_date reference) + 1)).
    assert (day b <> 29) by (intros Hd; exact (Hfeb eq_refl Hd)). lia.
  - rewrite (daysInMonth_not_feb (year (local_date reference) + 1) (year b)
               _ Hm).
    exact Hday.
Qed.

End NextOccurrence.

(** Where the code follows the rule of the next occurrence:
    [getNextBirthdayDate] builds the candidate in the local year of the
    reference instant and adds one year exactly when the candidate's
    calendar day is strictly before the reference day.  When the stored
    (month, day) is the reference day's own, the result is that day in
    the reference year and [daysUntil] is 0.  When the stored (month,
    day) is strictly earlier than the reference day's and is another day
    than February 29, the result is that (month, day) in the reference
    year plus one. *)
Theorem getNextBirthdayDate_next_occurrence (b : Date) (reference : Moment) :
  valid_date b = true ->
  valid_moment reference = true ->
  let today := local_date reference in
  let candidate := set_year (of_date b) (year today) in
  getNextBirthdayDate (of_date b) reference
  = (if date_ltb (local_date candidate) today
     then add_one_year candidate else candidate)
  /\ (month_day b = month_day today ->
      getNextBirthdayDate (of_date b) reference
      = of_date (mkDate (year today) (month b) (day b))
      /\ daysUntil b reference = 0)
  /\ (month_day_ltb (month_day b) (month_day today) = true ->
      month_day b <> (2, 29) ->
      getNextBirthdayDate (of_date b) reference
      = of_date (mkDate (year today + 1) (month b) (day b))).
Proof.
  intros Hb Hr today candidate. split; [reflexivity | split].
  - intros Hmd. split.
    + exact (next_on_the_day b reference Hb Hr Hmd).
    + exact (days_until_on_the_day b reference Hb Hr Hmd).
  - exact (next_after_the_day b reference Hb).
Qed.

Lemma getNextBirthdayDate_next_occurrence_witness :
  (getNextBirthdayDate (of_date (mkDate 1990 3 15)) march_15_0000
   = of_date (mkDate 2025 3 15)
   /\ daysUntil (mkDate 1990 3 15) march_15_0000 = 0)
  /\ getNextBirthdayDate (of_date (mkDate 1990 3 15))
       (mkMoment (mkDate 2025 7 22) 0)
     = of_date (mkDate 2026 3 15).
Proof.
  split.
  - destruct (getNextBirthdayDate_next_occurrence
                (mkDate 1990 3 15) march_15_0000 eq_refl eq_refl)
      as [_ [H _]].
    apply H. reflexivity.
  - destruct (getNextBirthdayDate_next_occurrence
                (mkDate 1990 3 15) (mkMoment (mkDate 2025 7 22) 0)
                eq_refl eq_refl)
      as [_ [_ H]].
    apply H; [reflexivity | discriminate].
Defined.

(** C5, where the code leaves the rule.  A birthday stored on February
    29, asked for after February 28 of a common year that a leap year
    follows: February 29 is strictly earlier in the calendar than the
    reference day and exists in the reference year plus one, yet
    [getNextBirthdayDate] returns February 28 of that year.  The year
    setter has moved the candidate to February 28 of the common year,
    and adding one year keeps the 28.  Asked in the leap year itself, on
    or before February 29, the same function returns February 29. *)
Theorem getNextBirthdayDate_feb_29_clamped (b : Date) (reference : Moment) :
  valid_date b = true ->
  month_day b = (2, 29) ->
  valid_date (local_date reference) = true ->
  let today := local_date reference in
  isLeapYear (year today) = false ->
  isLeapYear (year today + 1) = true ->
  month_day_ltb (2, 28) (month_day today) = true ->
  month_day_ltb (month_day b) (month_day today) = true
  /\ valid_date (mkDate (year today + 1) (month b) (day b)) = true
  /\ getNextBirthdayDate (of_date b) reference
     = of_date (mkDate (year today + 1) 2 28)
  /\ getNextBirthdayDate (of_date b) reference
     <> of_date (mkDate (year today + 1) (month b) (day b))
  /\ (forall later,
        year (local_date later) = year today + 1 ->
        month_day_ltb (2, 29) (month_day (local_date later)) = false ->
        getNextBirthdayDate (of_date b) later
        = of_date (mkDate (year today + 1) 2 29)).
Proof.
  intros Hb Hmd Ht today Hcommon Hleap Hafter. subst today.
  destruct b as [yb mb db0]. unfold month_day in Hmd. cbn [month day] in Hmd.
  injection Hmd as -> ->.
  assert (Hyb : isLeapYear yb = true).
  { apply valid_date_bounds in Hb. unfold daysInMonth in Hb.
    cbn [year month day Z.eqb Pos.eqb] in Hb.
    destruct (isLeapYear yb); [reflexivity | lia]. }
  assert (Hm : 3 <= month (local_date reference)).
  { apply valid_date_bounds in Ht.
    unfold daysInMonth in Ht. rewrite Hcommon in Ht.
    unfold month_day_ltb, month_day in Hafter. cbn [fst snd] in Hafter.
    rewrite orb_true_iff, andb_true_iff, !Z.ltb_lt, Z.eqb_eq in Hafter.
    destruct (Z.eqb_spec (month (local_date reference)) 2) as [E | E]; lia. }
  cbn [month day month_day].
  assert (Hset : forall y,
            set_year (of_date (mkDate yb 2 29)) y
            = of_date (mkDate y 2 (daysInMonth y 2))).
  { intros y. unfold set_year, of_date. cbn [local_date year month day millis].
    rewrite Hyb. reflexivity. }
  assert (H28 : daysInMonth (year (local_date reference)) 2 = 28)
    by (unfold daysInMonth; cbn [Z.eqb Pos.eqb]; now rewrite Hcommon).
  assert (H29 : daysInMonth (year (local_date reference) + 1) 2 = 29)
    by (unfold daysInMonth; cbn [Z.eqb Pos.eqb]; now rewrite Hleap).
  assert (Hnext : getNextBirthdayDate (of_date (mkDate yb 2 29)) reference
                  = of_date (mkDate (year (local_date reference) + 1) 2 28)).
  { unfold getNextBirthdayDate. cbv zeta. rewrite Hset, H28.
    unfold isBefore_day, of_date, date_ltb.
    cbn [local_date year month day].
    rewrite Z.ltb_irrefl, Z.eqb_refl.
    replace (2 <? month (local_date reference)) with true
      by (symmetry; apply Z.ltb_lt; lia).
    cbn [orb andb]. unfold add_one_year.
    cbn [local_date year month day millis]. rewrite H29. reflexivity. }
  split.
  { unfold month_day_ltb, month_day. cbn [fst snd month day].
    apply orb_true_iff. left. apply Z.ltb_lt. lia. }
  split.
  { unfold valid_date. cbn [year month day]. rewrite H29. reflexivity. }
  split; [exact Hnext |]. split.
  { rewrite Hnext. unfold of_date. intros [= ]. }
  intros later Hyear Hnot.
  unfold getNextBirthdayDate. cbv zeta. rewrite Hyear, Hset, H29.
  unfold isBefore_day, of_date, date_ltb. cbn [local_date year month day].
  rewrite Hyear, Z.ltb_irrefl, Z.eqb_refl. cbn [orb andb].
  unfold month_day_ltb, month_day in Hnot. cbn [fst snd] in Hnot.
  rewrite Hnot. reflexivity.
Qed.

Lemma getNextBirthdayDate_feb_29_clamped_witness :
  getNextBirthdayDate (of_date (mkDate 2024 2 29))
    (mkMoment (mkDate 2027 6 1) 0)
  = of_date (mkDate 2028 2 28)
  /\ valid_date (mkDate 2028 2 29) = true
  /\ getNextBirthdayDate (of_date (mkDate 2024 2 29))
       (mkMoment (mkDate 2028 1 15) 0)
     = of_date (mkDate 2028 2 29).
Proof.
  destruct (getNextBirthdayDate_feb_29_clamped (mkDate 2024 2 29)
              (mkMoment (mkDate 2027 6 1) 0)
              eq_refl eq_refl eq_refl eq_refl eq_refl eq_refl)
    as (_ & Hvalid & Hnext & _ & Hlater).
  split; [exact Hnext |]. split; [exact Hvalid |].
  exact (Hlater (mkMoment (mkDate 2028 1 15) 0) eq_refl eq_refl).
Defined.

(** C6, evaluated.  A birthday on the next calendar day: at local
    midnight [daysUntil] is 1, at ten in the morning of the same day it
    is 0, and [handleMyBirthday] then answers with the text of the day
    itself. *)
Theorem daysUntil_depends_on_time_of_day :
  next_day (local_date march_14_1000) = mkDate 2025 3 15
  /\ getNextBirthdayDate (of_date (mkDate 2024 3 15)) march_14_1000
     = of_date (mkDate 2025 3 15)
  /\ daysUntil (mkDate 2024 3 15) march_14_0000 = 1
  /\ daysUntil (mkDate 2024 3 15) march_14_1000 = 0
  /\ handleMyBirthday_dayText (mkDate 2024 3 15) march_14_1000 = ItIsToday.
Proof.
  repeat split; reflexivity.
Qed.

(* ================================================================= *)
(** * The stored birth date                                           *)
(* ================================================================= *)

Lemma parse_DD_MM_any_separator sep1 sep2 s p1 p2 :
  parse_DD_MM sep1 s = Some p1 -> parse_DD_MM sep2 s = Some p2 -> p1 = p2.
Proof.
  unfold parse_DD_MM.
  destruct s as [| d1 [| d2 [| c [| m1 [| m2 [| ? ?]]]]]]; try discriminate.
  destruct (Ascii.eqb c sep1); [| discriminate].
  destruct (Ascii.eqb c sep2); [| discriminate].
  destruct (digit_of d1), (digit_of d2), (digit_of m1), (digit_of m2);
    try discriminate.
  congruence.
Qed.

Lemma first_valid_inv formats s reference m :
  first_valid formats s reference = Some m ->
  exists sep dd mm,
    parse_DD_MM sep s = Some (dd, mm)
    /\ valid_date (mkDate (year (local_date reference)) mm dd) = true
    /\ m = of_date (mkDate (year (local_date reference)) mm dd).
Proof.
  induction formats as [| sep rest IH]; simpl; [discriminate |].
  unfold parse_strict at 1.
  destruct (parse_DD_MM sep s) as [[dd mm] |] eqn:Hp; [| exact IH].
  destruct (valid_date _) eqn:Hv; [| exact IH].
  intros [= <-]. exists sep, dd, mm. auto.
Qed.

Lemma handleAddBirthday_birthDate_inv s reference d :
  handleAddBirthday_birthDate s reference = Some d ->
  exists sep dd mm,
    parse_DD_MM sep s = Some (dd, mm)
    /\ d = mkDate (year (local_date reference)) mm dd.
Proof.
  unfold handleAddBirthday_birthDate, validateDate.
  destruct (first_valid _ s reference) as [m |] eqn:Hf; simpl;
    [| discriminate].
  destruct (first_valid_inv _ _ _ _ Hf) as (sep & dd & mm & Hp & Hv & ->).
  intros [= <-]. exists sep, dd, mm. split; [exact Hp |].
  rewrite set_year_keeps_month_day; [reflexivity | exact Hv |].
  simpl. intros -> ->.
  apply valid_date_bounds in Hv. simpl in Hv.
  pose proof (daysInMonth_feb (year (local_date reference))). lia.
Qed.

Lemma left_join_fst {A B} (l : list A) (tbl : list B) on a x :
  In (a, x) (left_join l tbl on) -> In a l.
Proof.
  unfold left_join. rewrite in_flat_map. intros (a' & Ha & Hin).
  destruct (filter (on a') tbl) as [| b0 rest].
  - destruct Hin as [[= <- _] | []]. exact Ha.
  - apply in_map_iff in Hin. destruct Hin as (y & [= <- _] & _). exact Ha.
Qed.

Lemma hd_error_In {A} (l : list A) a : hd_error l = Some a -> In a l.
Proof. destruct l; simpl; [discriminate | intros [= ->]; now left]. Qed.

(** A resolved [addOrUpdateBirthday] leaves a row of that member in that
    group whose [birth_date] is the argument. *)
Lemma addOrUpdateBirthday_stores env phoneNumber birthDate groupId w r w' :
  addOrUpdateBirthday env phoneNumber birthDate groupId w = (Resolved r, w') ->
  exists row,
    In row (birthdays (db w'))
    /\ b_phone_number row = phoneNumber
    /\ b_group_id row = groupId
    /\ birth_date row = birthDate.
Proof.
  unfold addOrUpdateBirthday, getBirthdayByUserAndGroup.
  cbn [bind get_db ret].
  match goal with
  | |- context [hd_error ?l] => destruct (hd_error l) as [existing |] eqn:Hex
  end.
  - simpl. intros [= _ <-]. simpl.
    apply hd_error_In in Hex. apply in_map_iff in Hex.
    destruct Hex as ([b0 u] & Hfst & Hin). simpl in Hfst. subst b0.
    apply filter_In in Hin. destruct Hin as [Hin Hmatch]. simpl in Hmatch.
    apply left_join_fst in Hin.
    exists (update_birth_date phoneNumber groupId birthDate existing).
    split; [apply in_map; exact Hin |].
    unfold update_birth_date. rewrite Hmatch. simpl.
    apply andb_true_iff in Hmatch. destruct Hmatch as [H1 H2].
    apply String.eqb_eq in H1, H2. auto.
  - cbn [bind crypto_randomUUID get_db db].
    match goal with
    | |- context [existsb ?f ?l] => destruct (existsb f l)
    end; [discriminate |].
    cbn. intros [= _ <-]. simpl.
    exists (mkBirthday (randomUUID env (uuids_drawn w)) phoneNumber birthDate
                       groupId).
    split; [apply in_or_app; right; now left | auto].
Qed.

(** C9, the statement as written fails: the same input ["15/03"] from
    the same member is stored as 2024-03-15 when the command runs in 2024
    and as 2025-03-15 when it runs in 2025. *)
Lemma stored_birth_date_depends_on_year :
  let add reference :=
    match handleAddBirthday_birthDate "15/03" reference with
    | Some birthDate =>
        map (fun b => format_YYYY_MM_DD (birth_date b))
          (birthdays (db (snd (addOrUpdateBirthday (env_at reference always)
                                 "2348000000000" birthDate "sample_group_123"
                                 (world_of init_sql)))))
    | None => []
    end in
  add (mkMoment (mkDate 2024 6 1) 0)
  = ["1990-03-15"; "1985-07-22"; "2024-03-15"]%string
  /\ add (mkMoment (mkDate 2025 6 1) 0)
     = ["1990-03-15"; "1985-07-22"; "2025-03-15"]%string
  /\ add (mkMoment (mkDate 2024 6 1) 0) <> add (mkMoment (mkDate 2025 6 1) 0).
Proof.
  repeat split; try reflexivity. discriminate.
Qed.

(* ================================================================= *)
(** * The reminder store                                              *)
(* ================================================================= *)

Lemma date_eqb_eq a b : date_eqb a b = true <-> a = b.
Proof.
  unfold date_eqb. rewrite !andb_true_iff, !Z.eqb_eq.
  destruct a, b; simpl. split.
  - intros [[-> ->] ->]. reflexivity.
  - intros [= -> -> ->]. auto.
Qed.

Lemma date_eqb_refl a : date_eqb a a = true.
Proof. now apply date_eqb_eq. Qed.

Lemma set_reminders_same d : set_reminders d (reminders d ++ []) = d.
Proof. destruct d. unfold set_reminders. simpl. now rewrite app_nil_r. Qed.

(** ** [markReminderSent] *)

Lemma markReminderSent_run env reminderId w :
  markReminderSent env reminderId w
  = (Resolved (mkRun (count_if (fun r => String.eqb (r_id r) reminderId)
                               (reminders (db w)))),
     set_db w (set_reminders (db w)
                 (map (mark_sent reminderId (CURRENT_TIMESTAMP env))
                      (reminders (db w))))).
Proof. reflexivity. Qed.

(** C4, as amended.  [markReminderSent] is not guarded by the current
    value of [sent]: whenever the call resolves, every record with the
    given identifier has [sent = true] and [sent_at] equal to the current
    timestamp, whatever it held before; the records with another
    identifier are kept as they are; and the result is the number of the
    records with that identifier, not a boolean.  A resolved
    [createReminder] appends exactly one record, with the drawn
    identifier, [sent = false] and a null [sent_at]; a rejected one
    leaves the store as it was.  Both calls keep, on every record, that
    [sent_at] is non-null exactly when [sent] is true. *)
Theorem markReminderSent_unconditional (env : Env) (reminderId : string)
  (w : World) :
  (forall result w',
     markReminderSent env reminderId w = (Resolved result, w') ->
     changes result
     = count_if (fun r => String.eqb (r_id r) reminderId) (reminders (db w))
     /\ List.length (reminders (db w')) = List.length (reminders (db w))
     /\ (forall r, In r (reminders (db w')) -> r_id r = reminderId ->
                   sent r = true /\ sent_at r = Some (CURRENT_TIMESTAMP env))
     /\ (forall r, In r (reminders (db w)) -> r_id r = reminderId ->
                   In (mkReminder (r_id r) (birthday_id r) (reminder_date r)
                                  true (Some (CURRENT_TIMESTAMP env)))
                      (reminders (db w')))
     /\ (forall r, r_id r <> reminderId ->
                   (In r (reminders (db w')) <-> In r (reminders (db w))))
     /\ ((forall r, In r (reminders (db w)) -> sent_at_iff_sent r) ->
         forall r, In r (reminders (db w')) -> sent_at_iff_sent r))
  /\ (forall birthdayId reminderDate out w1,
        createReminder env birthdayId reminderDate w = (out, w1) ->
        (forall result, out = Resolved result ->
           changes result = 1%nat
           /\ reminders (db w1)
              = reminders (db w)
                ++ [mkReminder (randomUUID env (uuids_drawn w)) birthdayId
                               reminderDate false None])
        /\ (forall e, out = Rejected e -> db w1 = db w)
        /\ ((forall r, In r (reminders (db w)) -> sent_at_iff_sent r) ->
            forall r, In r (reminders (db w1)) -> sent_at_iff_sent r)).
Proof.
  split.
  - intros result w'. rewrite markReminderSent_run. intros [= <- <-].
    cbn [changes db set_db set_reminders reminders].
    split; [reflexivity |]. split; [apply length_map |].
    assert (Hsame : forall r, r_id r <> reminderId ->
                      mark_sent reminderId (CURRENT_TIMESTAMP env) r = r).
    { intros r Hne. unfold mark_sent.
      destruct (String.eqb_spec (r_id r) reminderId);
        [contradiction | reflexivity]. }
    assert (Hhit : forall r, r_id r = reminderId ->
                   mark_sent reminderId (CURRENT_TIMESTAMP env) r
                   = mkReminder (r_id r) (birthday_id r) (reminder_date r) true
                                (Some (CURRENT_TIMESTAMP env))).
    { intros r He. unfold mark_sent. rewrite He, String.eqb_refl.
      reflexivity. }
    split; [| split; [| split]].
    + intros r Hin He. apply in_map_iff in Hin. destruct Hin as (r0 & <- & _).
      unfold mark_sent in *. destruct (String.eqb_spec (r_id r0) reminderId);
        [split; reflexivity | contradiction].
    + intros r Hin He. rewrite <- (Hhit r He). apply in_map. exact Hin.
    + intros r Hne. split.
      * intros Hin. apply in_map_iff in Hin. destruct Hin as (r0 & Heq & Hin).
        destruct (String.eqb_spec (r_id r0) reminderId) as [He | Hne0].
        -- rewrite (Hhit r0 He) in Heq. subst r. simpl in Hne. congruence.
        -- rewrite (Hsame r0 Hne0) in Heq. subst r0. exact Hin.
      * intros Hin. rewrite <- (Hsame r Hne). apply in_map. exact Hin.
    + intros Hinv r Hin. apply in_map_iff in Hin.
      destruct Hin as (r0 & <- & Hin).
      unfold mark_sent. destruct (String.eqb (r_id r0) reminderId).
      * unfold sent_at_iff_sent. simpl. split; [reflexivity | discriminate].
      * apply Hinv. exact Hin.
  - intros birthdayId reminderDate out w1.
    unfold createReminder. cbn [bind crypto_randomUUID get_db db].
    match goal with
    | |- context [existsb ?f ?l] => destruct (existsb f l)
    end.
    + intros [= <- <-]. cbn [db].
      split; [discriminate |]. split; [reflexivity |]. auto.
    + cbn [bind put_db ret]. intros [= <- <-].
      cbn [db set_db set_reminders reminders].
      split; [| split; [discriminate |]].
      * intros result [= <-]. split; reflexivity.
      * intros Hinv r Hin. apply in_app_or in Hin.
        destruct Hin as [Hin | [<- | []]]; [now apply Hinv |].
        unfold sent_at_iff_sent. simpl.
        split; [intros H; now destruct H | discriminate].
Qed.

Lemma markReminderSent_unconditional_witness :
  let env := env_at march_15_0000 always in
  let w := world_of pending_march_15 in
  (exists w',
     markReminderSent env "r_001" w = (Resolved (mkRun 1), w')
     /\ In (mkReminder "r_001" "bd_001" (mkDate 2025 3 15) true
                       (Some 1742000000))
           (reminders (db w')))
  /\ map sent (reminders (db (snd (createReminder env "bd_002"
                                     (mkDate 2025 7 22) w))))
     = [false; false].
Proof.
  intros env w.
  destruct (markReminderSent_unconditional env "r_001" w) as [Hmark Hcreate].
  split.
  - exists (snd (markReminderSent env "r_001" w)).
    split; [reflexivity |].
    destruct (Hmark (mkRun 1) (snd (markReminderSent env "r_001" w)) eq_refl)
      as (_ & _ & _ & Hin & _).
    apply (Hin (mkReminder "r_001" "bd_001" (mkDate 2025 3 15) false None));
      [now left | reflexivity].
  - destruct (Hcreate "bd_002"%string (mkDate 2025 7 22) (Resolved (mkRun 1))
                (snd (createReminder env "bd_002" (mkDate 2025 7 22) w))
                eq_refl) as (Hnew & _ & _).
    destruct (Hnew (mkRun 1) eq_refl) as [_ ->]. reflexivity.
Defined.

(** C4, the statement as written fails: on a record that is already
    sent, [markReminderSent] reports one changed row and overwrites
    [sent_at] with the new timestamp. *)
Lemma markReminderSent_overwrites_sent_at :
  let env := env_at march_15_0000 always in
  let w := world_of sent_march_15 in
  map sent (reminders (db w)) = [true]
  /\ map sent_at (reminders (db w)) = [Some 1741996800]
  /\ fst (markReminderSent env "r_001" w) = Resolved (mkRun 1)
  /\ map sent_at (reminders (db (snd (markReminderSent env "r_001" w))))
     = [Some 1742000000]
  /\ snd (markReminderSent env "r_001" w) <> w.
Proof.
  repeat split; try reflexivity. discriminate.
Qed.

(** ** Joins *)

Lemma inner_join_In {A B} (l : list A) (tbl : list B) on a b :
  In (a, b) (inner_join l tbl on) <-> In a l /\ In b tbl /\ on a b = true.
Proof.
  unfold inner_join. rewrite in_flat_map. split.
  - intros (a' & Ha & Hin). apply in_map_iff in Hin.
    destruct Hin as (b' & [= <- <-] & Hb). apply filter_In in Hb. tauto.
  - intros (Ha & Hb & Hon). exists a. split; [exact Ha |].
    apply in_map. apply filter_In. tauto.
Qed.

Lemma left_join_Some {A B} (l : list A) (tbl : list B) on a b :
  In (a, Some b) (left_join l tbl on) -> In a l /\ In b tbl /\ on a b = true.
Proof.
  unfold left_join. rewrite in_flat_map. intros (a' & Ha & Hin).
  destruct (filter (on a') tbl) as [| b0 rest] eqn:Hf.
  - destruct Hin as [[=] | []].
  - apply in_map_iff in Hin. destruct Hin as (b' & [= <- <-] & Hb).
    rewrite <- Hf in Hb. apply filter_In in Hb. tauto.
Qed.

Lemma filter_none {A} (f : A -> bool) l :
  (forall x, In x l -> f x = false) -> filter f l = [].
Proof.
  induction l as [| x l IH]; simpl; intros H; [reflexivity |].
  rewrite (H x (or_introl eq_refl)). apply IH. intros y Hy. apply H. now right.
Qed.

(** A key that occurs once in a table selects at most one row. *)
Lemma unique_key_filter {B} (key : B -> string) (tbl : list B) k :
  NoDup (map key tbl) ->
  (List.length (filter (fun x => String.eqb k (key x)) tbl) <= 1)%nat.
Proof.
  induction tbl as [| x tbl IH]; simpl; intros Hnd; [lia |].
  inversion Hnd as [| ? ? Hnotin Hnd']; subst.
  destruct (String.eqb_spec k (key x)) as [-> | Hne].
  - simpl. rewrite filter_none; [simpl; lia |].
    intros y Hy. apply String.eqb_neq. intros Heq. apply Hnotin.
    rewrite Heq. apply in_map. exact Hy.
  - apply IH. exact Hnd'.
Qed.

Lemma NoDup_map_filter {A B} (f : A -> B) (p : A -> bool) l :
  NoDup (map f l) -> NoDup (map f (filter p l)).
Proof.
  induction l as [| x l IH]; simpl; intros Hnd; [constructor |].
  inversion Hnd as [| ? ? Hnotin Hnd']; subst.
  destruct (p x); [| now apply IH].
  simpl. constructor; [| now apply IH].
  intros Hin. apply Hnotin. apply in_map_iff in Hin.
  destruct Hin as (y & Hy & Hyin). apply filter_In in Hyin.
  rewrite <- Hy. apply in_map. tauto.
Qed.

(** Joining on the primary key of the right table keeps the keys of the
    left table distinct. *)
Lemma inner_join_NoDup {A B} (ka : A -> string) (fk : A -> string)
  (kb : B -> string) (l : list A) (tbl : list B) :
  NoDup (map ka l) ->
  NoDup (map kb tbl) ->
  NoDup (map (fun ab => ka (fst ab))
           (inner_join l tbl (fun a b => String.eqb (fk a) (kb b)))).
Proof.
  intros Hl Htbl. induction l as [| a l IH]; simpl; [constructor |].
  inversion Hl as [| ? ? Hnotin Hl']; subst.
  rewrite map_app. apply NoDup_app.
  - rewrite map_map. simpl.
    pose proof (unique_key_filter kb tbl (fk a) Htbl) as Hle.
    destruct (filter (fun x => String.eqb (fk a) (kb x)) tbl) as [| b0 [| b1 r]];
      simpl in *; [constructor | | lia].
    constructor; [intros [] | constructor].
  - apply IH. exact Hl'.
  - intros k Hk1 Hk2. apply Hnotin.
    apply in_map_iff in Hk1. destruct Hk1 as ([a1 b1] & <- & Hin1).
    apply in_map_iff in Hin1. destruct Hin1 as (b' & [= <- <-] & _).
    apply in_map_iff in Hk2. destruct Hk2 as ([a2 b2] & Hk & Hin2).
    apply inner_join_In in Hin2. simpl in Hk. simpl. rewrite <- Hk.
    apply in_map. tauto.
Qed.

(** ** [ORDER BY] *)

Lemma insert_by_In {A} (leb : A -> A -> bool) x y l :
  In y (insert_by leb x l) <-> y = x \/ In y l.
Proof.
  induction l as [| z l IH]; simpl.
  - intuition.
  - destruct (leb x z); simpl; [intuition |]. rewrite IH. intuition.
Qed.

Lemma order_by_In {A} (leb : A -> A -> bool) l y :
  In y (order_by leb l) <-> In y l.
Proof.
  induction l as [| x l IH]; simpl; [tauto |].
  rewrite insert_by_In, IH. intuition.
Qed.

Lemma insert_by_Permutation {A} (leb : A -> A -> bool) x l :
  Permutation (x :: l) (insert_by leb x l).
Proof.
  induction l as [| z l IH]; simpl; [apply Permutation_refl |].
  destruct (leb x z); [apply Permutation_refl |].
  eapply perm_trans; [apply perm_swap |]. apply perm_skip. exact IH.
Qed.

Lemma order_by_Permutation {A} (leb : A -> A -> bool) l :
  Permutation l (order_by leb l).
Proof.
  induction l as [| x l IH]; simpl; [constructor |].
  eapply perm_trans; [apply perm_skip; exact IH |].
  apply insert_by_Permutation.
Qed.

Section Insertion.

Context {A : Type} (leb : A -> A -> bool).
Hypothesis leb_total : forall x y, leb x y = true \/ leb y x = true.

Lemma insert_by_HdRel x y l :
  le_of leb y x -> HdRel (le_of leb) y l ->
  HdRel (le_of leb) y (insert_by leb x l).
Proof.
  intros Hyx Hhd. destruct l as [| z l]; simpl; [now constructor |].
  destruct (leb x z); constructor; [exact Hyx |].
  inversion Hhd; assumption.
Qed.

Lemma insert_by_Sorted x l :
  Sorted (le_of leb) l -> Sorted (le_of leb) (insert_by leb x l).
Proof.
  induction l as [| z l IH]; simpl; intros Hs.
  - repeat constructor.
  - inversion Hs as [| ? ? Hs' Hhd]; subst.
    destruct (leb x z) eqn:Hxz.
    + constructor; [exact Hs | constructor; exact Hxz].
    + constructor; [apply IH; exact Hs' |].
      apply insert_by_HdRel; [| exact Hhd].
      destruct (leb_total x z) as [H | H]; [congruence | exact H].
Qed.

Lemma order_by_Sorted l : Sorted (le_of leb) (order_by leb l).
Proof.
  induction l as [| x l IH]; simpl; [constructor |].
  apply insert_by_Sorted. exact IH.
Qed.

End Insertion.

(** ** The order of the pending reminders *)

Lemma compare_nullable_antisym a b :
  compare_nullable a b = CompOpp (compare_nullable b a).
Proof.
  destruct a, b; simpl; try reflexivity. apply String.compare_antisym.
Qed.

Lemma compare_nullable_eq a b : compare_nullable a b = Eq <-> a = b.
Proof.
  destruct a as [x |], b as [y |]; simpl;
    try (split; [discriminate | congruence]); [| tauto].
  split.
  - intros H. apply String.compare_eq_iff in H. congruence.
  - intros [= ->]. pose proof (String.compare_antisym y y) as H.
    destruct (String.compare y y); [reflexivity | discriminate | discriminate].
Qed.

Lemma string_compare_lt_trans a b c :
  String.compare a b = Lt -> String.compare b c = Lt -> String.compare a c = Lt.
Proof.
  intros H1 H2.
  apply OrderedTypeEx.String_as_OT.cmp_lt.
  apply OrderedTypeEx.String_as_OT.cmp_lt in H1, H2.
  eapply OrderedTypeEx.String_as_OT.lt_trans; eassumption.
Qed.

Lemma compare_nullable_lt_trans a b c :
  compare_nullable a b = Lt -> compare_nullable b c = Lt ->
  compare_nullable a c = Lt.
Proof.
  destruct a, b, c; simpl; try discriminate; try reflexivity.
  apply string_compare_lt_trans.
Qed.

Lemma order_key_leb_total x y :
  order_key_leb x y = true \/ order_key_leb y x = true.
Proof.
  unfold order_key_leb.
  rewrite (compare_nullable_antisym (fst y) (fst x)).
  rewrite (compare_nullable_antisym (snd y) (snd x)).
  destruct (compare_nullable (fst x) (fst y)); simpl; auto.
  destruct (compare_nullable (snd x) (snd y)); simpl; auto.
Qed.

(** [ORDER BY g.group_name, u.name], spelled out. *)
Lemma order_key_leb_lexicographic x y :
  order_key_leb x y = true
  <-> compare_nullable (fst x) (fst y) = Lt
      \/ (fst x = fst y /\ compare_nullable (snd x) (snd y) <> Gt).
Proof.
  unfold order_key_leb.
  destruct (compare_nullable (fst x) (fst y)) eqn:E1.
  - apply compare_nullable_eq in E1.
    destruct (compare_nullable (snd x) (snd y)); split; intros H;
      try discriminate; try reflexivity.
    + right. split; [exact E1 | discriminate].
    + right. split; [exact E1 | discriminate].
    + destruct H as [H | [_ H]]; [discriminate | congruence].
  - split; [now left | reflexivity].
  - split; [discriminate |].
    intros [H | [H _]]; [discriminate |].
    apply compare_nullable_eq in H. congruence.
Qed.

Lemma order_key_leb_trans x y z :
  order_key_leb x y = true -> order_key_leb y z = true ->
  order_key_leb x z = true.
Proof.
  rewrite !order_key_leb_lexicographic.
  intros [H1 | [E1 H1]] [H2 | [E2 H2]].
  - left. eapply compare_nullable_lt_trans; eassumption.
  - left. rewrite <- E2. exact H1.
  - left. rewrite E1. exact H2.
  - right. split; [congruence |].
    destruct (compare_nullable (snd x) (snd y)) eqn:Exy; [| | congruence].
    + apply compare_nullable_eq in Exy. rewrite Exy. exact H2.
    + destruct (compare_nullable (snd y) (snd z)) eqn:Eyz; [| | congruence].
      * apply compare_nullable_eq in Eyz. rewrite <- Eyz, Exy. discriminate.
      * rewrite (compare_nullable_lt_trans _ _ _ Exy Eyz). discriminate.
Qed.

Lemma select_pending_StronglySorted reminderDate d :
  StronglySorted pending_le (select_pending reminderDate d).
Proof.
  apply Sorted_StronglySorted.
  - intros p q r. unfold pending_le, pending_leb. apply order_key_leb_trans.
  - unfold select_pending. apply order_by_Sorted.
    intros p q. apply order_key_leb_total.
Qed.

(** The rows of the listing, traced back through the joins. *)
Lemma select_pending_In reminderDate d row :
  In row (select_pending reminderDate d) ->
  exists r b u g,
    row = pending_select (r, b, u, Some g)
    /\ In r (reminders d) /\ In b (birthdays d) /\ In g (groups d)
    /\ birthday_id r = b_id b
    /\ b_group_id b = g_group_id g
    /\ bot_active g = true
    /\ sent r = false
    /\ reminder_date r = reminderDate
    /\ (u = None
        \/ exists u0, u = Some u0 /\ In u0 (users d)
                      /\ b_phone_number b = u_phone_number u0).
Proof.
  unfold select_pending. rewrite order_by_In, in_map_iff.
  intros ([[[r b] u] g] & <- & Hin). apply filter_In in Hin.
  destruct Hin as [Hfrom Hwhere]. unfold pending_where in Hwhere.
  rewrite !andb_true_iff, negb_true_iff, date_eqb_eq in Hwhere.
  destruct Hwhere as [[Hdate Hsent] Hactive].
  destruct g as [g |]; [| discriminate].
  unfold pending_from in Hfrom.
  apply left_join_Some in Hfrom. destruct Hfrom as (Hrbu & Hg & Hon3).
  simpl in Hon3. apply String.eqb_eq in Hon3.
  assert (Hrb : In (r, b) (inner_join (reminders d) (birthdays d)
                  (fun r b => String.eqb (birthday_id r) (b_id b)))).
  { eapply left_join_fst. exact Hrbu. }
  apply inner_join_In in Hrb. destruct Hrb as (Hr & Hb & Hon1).
  apply String.eqb_eq in Hon1.
  exists r, b, u, g. repeat (split; [solve [auto] |]).
  destruct u as [u0 |]; [right | now left].
  apply left_join_Some in Hrbu. destruct Hrbu as (_ & Hu & Hon2).
  simpl in Hon2. apply String.eqb_eq in Hon2. eauto.
Qed.

(** C7, as amended.  [getPendingReminders] resolves, without touching
    the store, to the unsent reminders of the date whose group is active,
    each joined with the phone number and group of its birthday and the
    name of its user; the rows are sorted by the name of the group first
    and by the name of the user second (a NULL name first), in the byte
    order of the text. *)
Theorem getPendingReminders_sorted_by_names (env : Env) (date : option Date)
  (w : World) :
  let reminderDate :=
    match date with Some d => d | None => local_date (now env) end in
  exists rows,
    getPendingReminders env date w = (Resolved rows, w)
    /\ StronglySorted pending_le rows
    /\ (forall p q,
          pending_le p q
          <-> compare_nullable (p_group_name p) (p_group_name q) = Lt
              \/ (p_group_name p = p_group_name q
                  /\ compare_nullable (name p) (name q) <> Gt))
    /\ Permutation
         (map pending_select
            (filter (pending_where reminderDate) (pending_from (db w))))
         rows
    /\ forall row, In row rows ->
         In (p_reminder row) (reminders (db w))
         /\ reminder_date (p_reminder row) = reminderDate
         /\ sent (p_reminder row) = false
         /\ exists b g,
              In b (birthdays (db w)) /\ In g (groups (db w))
              /\ b_id b = birthday_id (p_reminder row)
              /\ phone_number row = b_phone_number b
              /\ group_id row = b_group_id b
              /\ g_group_id g = group_id row
              /\ p_group_name row = Some (group_name g)
              /\ (name row = None
                  \/ exists u, In u (users (db w))
                               /\ u_phone_number u = phone_number row
                               /\ name row = Some (u_name u)).
Proof.
  intros reminderDate. exists (select_pending reminderDate (db w)).
  split; [reflexivity |].
  split; [apply select_pending_StronglySorted |].
  split; [intros p q; apply order_key_leb_lexicographic |].
  split; [apply order_by_Permutation |].
  intros row Hin. apply select_pending_In in Hin.
  destruct Hin as (r & b & u & g & -> & Hr & Hb & Hg & Hrb & Hbg & _ & Hs
                   & Hd & Hu).
  simpl. repeat (split; [solve [auto] |]).
  exists b, g. repeat (split; [solve [auto] |]).
  destruct Hu as [-> | (u0 & -> & Hu0 & Hph)]; [now left |].
  right. exists u0. auto.
Qed.

Lemma getPendingReminders_sorted_by_names_witness :
  exists rows,
    getPendingReminders (env_at march_15_0000 always) None
      (world_of two_groups)
    = (Resolved rows, world_of two_groups)
    /\ StronglySorted pending_le rows
    /\ map p_group_name rows = [Some "Alpha"; Some "Zulu"]%string.
Proof.
  destruct (getPendingReminders_sorted_by_names (env_at march_15_0000 always)
              None (world_of two_groups))
    as (rows & Hrun & Hsorted & _).
  exists rows. split; [exact Hrun | split; [exact Hsorted |]].
  injection Hrun as <-. reflexivity.
Defined.

(** C7, the statement as written fails: with group "g1" named "Zulu"
    and group "g2" named "Alpha", the listing starts with the reminder of
    "g2", so it is not sorted by group identifier. *)
Lemma getPendingReminders_not_sorted_by_group_id :
  let rows := select_pending (mkDate 2025 3 15) two_groups in
  getPendingReminders (env_at march_15_0000 always) None (world_of two_groups)
  = (Resolved rows, world_of two_groups)
  /\ map group_id rows = ["g2"; "g1"]%string
  /\ map phone_number rows = ["222"; "111"]%string
  /\ ~ Sorted spec_group_then_owner_le rows.
Proof.
  repeat split.
  intros H. vm_compute in H.
  apply Sorted_inv in H. destruct H as [_ H].
  apply HdRel_inv in H. discriminate H.
Qed.

(** ** Materialization *)

Lemma createReminder_run env birthdayId reminderDate w :
  let reminderId := randomUUID env (uuids_drawn w) in
  let w1 := mkWorld (db w) (S (uuids_drawn w)) (randoms_drawn w)
                    (send_attempts w) (outbox w) (console_errors w) in
  createReminder env birthdayId reminderDate w
  = if existsb (fun r => String.eqb (r_id r) reminderId) (reminders (db w))
    then (Rejected (SqliteConstraint "UNIQUE constraint failed: reminders.id"),
          w1)
    else (Resolved (mkRun 1),
          set_db w1 (set_reminders (db w)
                       (reminders (db w)
                        ++ [new_reminder reminderDate
                              (reminderId, birthdayId)]))).
Proof.
  unfold createReminder. cbn [bind crypto_randomUUID get_db db].
  match goal with
  | |- context [existsb ?f ?l] => destruct (existsb f l)
  end; reflexivity.
Qed.

(** What the loop of [createTodaysReminders] leaves: the rows of the
    birthdays it got through, appended in order; all of them when it
    resolves. *)
Lemma createReminders_inv env today ids :
  forall w out w',
    createReminders env ids today w = (out, w') ->
    exists done rest,
      ids = map snd done ++ rest
      /\ db w' = set_reminders (db w)
                   (reminders (db w) ++ map (new_reminder today) done)
      /\ outbox w' = outbox w
      /\ forall rs, out = Resolved rs ->
                    rest = [] /\ List.length rs = List.length ids.
Proof.
  induction ids as [| birthdayId ids IH]; intros w out w'.
  - simpl. intros [= <- <-]. exists [], []. simpl.
    rewrite set_reminders_same.
    split; [reflexivity | split; [reflexivity | split; [reflexivity |]]].
    intros rs [= <-]. split; reflexivity.
  - simpl. unfold bind at 1. rewrite createReminder_run.
    destruct (existsb _ _).
    + intros [= <- <-]. exists [], (birthdayId :: ids). simpl.
      rewrite set_reminders_same.
      split; [reflexivity | split; [reflexivity | split; [reflexivity |]]].
      discriminate.
    + unfold bind at 1.
      destruct (createReminders env ids today _) as [out1 w1] eqn:Hrest.
      apply IH in Hrest. destruct Hrest as (done & rest & Hids & Hdb & Hout & Hres).
      simpl in Hdb, Hout.
      intros Hrun.
      exists ((randomUUID env (uuids_drawn w), birthdayId) :: done), rest.
      assert (Hw : db w' = db w1 /\ outbox w' = outbox w1
                   /\ forall rs, out = Resolved rs ->
                        exists rs1, out1 = Resolved rs1 /\ rs = mkRun 1 :: rs1).
      { destruct out1 as [rs1 | e]; simpl in Hrun; injection Hrun as <- <-.
        - split; [reflexivity | split; [reflexivity |]].
          intros rs [= <-]. eauto.
        - split; [reflexivity | split; [reflexivity |]]. discriminate. }
      destruct Hw as (Hw1 & Hw2 & Hw3).
      split; [simpl; now rewrite Hids |].
      split; [rewrite Hw1, Hdb; unfold set_reminders; simpl;
              now rewrite <- app_assoc |].
      split; [congruence |].
      intros rs Hrs. destruct (Hw3 rs Hrs) as (rs1 & Hrs1 & ->).
      destruct (Hres rs1 Hrs1) as [-> Hlen]. simpl.
      split; [reflexivity |].
      simpl. now rewrite Hlen.
Qed.

Lemma count_reminders_app birthdayId d l1 l2 :
  count_reminders birthdayId d (l1 ++ l2)
  = (count_reminders birthdayId d l1 + count_reminders birthdayId d l2)%nat.
Proof.
  unfold count_reminders, count_if. now rewrite filter_app, length_app.
Qed.

Lemma has_reminder_false_count birthdayId d rs :
  has_reminder birthdayId d rs = false -> count_reminders birthdayId d rs = 0%nat.
Proof.
  unfold has_reminder, count_reminders, count_if. intros H.
  rewrite filter_none; [reflexivity |].
  intros r Hr. destruct (_ && _) eqn:E; [| reflexivity].
  assert (existsb (fun r => String.eqb (birthday_id r) birthdayId
                            && date_eqb (reminder_date r) d) rs = true)
    by (apply existsb_exists; eauto).
  congruence.
Qed.

Lemma has_reminder_true_count birthdayId d rs :
  has_reminder birthdayId d rs = true ->
  (1 <= count_reminders birthdayId d rs)%nat.
Proof.
  unfold has_reminder, count_reminders, count_if.
  induction rs as [| r rs IH]; simpl; [discriminate |].
  destruct (_ && _); simpl; [lia | exact IH].
Qed.

Lemma count_new_zero today birthdayId d done :
  d <> today \/ ~ In birthdayId (map snd done) ->
  count_reminders birthdayId d (map (new_reminder today) done) = 0%nat.
Proof.
  intros H. unfold count_reminders, count_if. rewrite filter_none; [reflexivity |].
  intros r Hr. apply in_map_iff in Hr. destruct Hr as (p & <- & Hp). simpl.
  destruct (String.eqb_spec (snd p) birthdayId) as [He | Hne]; [| reflexivity].
  destruct (date_eqb today d) eqn:Hd; [| reflexivity].
  apply date_eqb_eq in Hd. destruct H as [H | H]; [congruence |].
  exfalso. apply H. rewrite <- He. apply in_map. exact Hp.
Qed.

Lemma count_new_le_one today birthdayId d done :
  NoDup (map snd done) ->
  (count_reminders birthdayId d (map (new_reminder today) done) <= 1)%nat.
Proof.
  induction done as [| p done IH]; simpl; intros Hnd; [cbv; lia |].
  inversion Hnd as [| ? ? Hnotin Hnd']; subst.
  change (p :: done) with ([p] ++ done).
  change (new_reminder today p :: map (new_reminder today) done)
    with ([new_reminder today p] ++ map (new_reminder today) done).
  rewrite count_reminders_app.
  destruct (String.eqb_spec (snd p) birthdayId) as [He | Hne].
  - rewrite (count_new_zero today birthdayId d done);
      [| right; now rewrite <- He].
    unfold count_reminders, count_if. simpl. destruct (_ && _); simpl; lia.
  - specialize (IH Hnd').
    unfold count_reminders at 1. unfold count_if. simpl.
    destruct (String.eqb_spec (snd p) birthdayId); [contradiction |].
    simpl. exact IH.
Qed.

Lemma count_new_one today birthdayId done :
  NoDup (map snd done) -> In birthdayId (map snd done) ->
  count_reminders birthdayId today (map (new_reminder today) done) = 1%nat.
Proof.
  intros Hnd Hin.
  pose proof (count_new_le_one today birthdayId today done Hnd) as Hle.
  enough (1 <= count_reminders birthdayId today (map (new_reminder today) done))%nat
    by lia.
  apply has_reminder_true_count. unfold has_reminder.
  apply existsb_exists. apply in_map_iff in Hin.
  destruct Hin as (p & Hp & Hin).
  exists (new_reminder today p). split; [apply in_map; exact Hin |].
  simpl. rewrite Hp, String.eqb_refl, date_eqb_refl. reflexivity.
Qed.

Lemma month_day_eqb_eq a b : month_day_eqb a b = true <-> a = b.
Proof.
  unfold month_day_eqb. rewrite andb_true_iff, !Z.eqb_eq.
  destruct a, b; simpl. split; [intros [-> ->]; reflexivity |].
  intros [= -> ->]. auto.
Qed.

(** The birthdays that the query of [createTodaysReminders] selects. *)
Lemma birthdays_without_reminder_In todayMD today d i :
  In i (birthdays_without_reminder todayMD today d)
  <-> exists b g,
        i = b_id b
        /\ In b (birthdays d) /\ In g (groups d)
        /\ b_group_id b = g_group_id g
        /\ month_day (birth_date b) = todayMD
        /\ bot_active g = true
        /\ has_reminder (b_id b) today (reminders d) = false.
Proof.
  unfold birthdays_without_reminder. rewrite in_map_iff. split.
  - intros ([b g] & <- & Hin). apply filter_In in Hin.
    destruct Hin as [Hjoin Hw]. apply inner_join_In in Hjoin.
    simpl in Hw. rewrite !andb_true_iff, negb_true_iff, month_day_eqb_eq in Hw.
    destruct Hjoin as (Hb & Hg & Hon). apply String.eqb_eq in Hon.
    exists b, g. simpl. tauto.
  - intros (b & g & -> & Hb & Hg & Hon & Hmd & Hact & Hno).
    exists (b, g). split; [reflexivity |]. apply filter_In. split.
    + apply inner_join_In. rewrite String.eqb_eq. auto.
    + simpl. rewrite Hmd, Hact, Hno.
      assert (month_day_eqb todayMD todayMD = true) as ->
          by now apply month_day_eqb_eq.
      reflexivity.
Qed.

Lemma birthdays_without_reminder_NoDup todayMD today d :
  primary_keys d -> NoDup (birthdays_without_reminder todayMD today d).
Proof.
  intros [Hg Hb]. unfold birthdays_without_reminder.
  apply (NoDup_map_filter (fun bg => b_id (fst bg))).
  apply (inner_join_NoDup b_id b_group_id g_group_id); assumption.
Qed.

Lemma has_reminder_new today done birthdayId :
  In birthdayId (map snd done) ->
  has_reminder birthdayId today (map (new_reminder today) done) = true.
Proof.
  intros Hin. apply in_map_iff in Hin. destruct Hin as (p & Hp & Hin).
  unfold has_reminder. apply existsb_exists.
  exists (new_reminder today p). split; [apply in_map; exact Hin |].
  simpl. rewrite Hp, String.eqb_refl, date_eqb_refl. reflexivity.
Qed.

(** C3, as amended.  The reminders table has no uniqueness constraint
    on (birthday_id, reminder_date); the dedup is the NOT EXISTS filter
    of [createTodaysReminders].  On a store whose primary keys hold and
    in which no pair has two records, a run of [createTodaysReminders],
    resolved or rejected, leaves no pair with two records; when it
    resolves, every eligible birthday has exactly one record for the
    date, and a run that follows for the same date creates none and
    leaves the world as it is. *)
Theorem createTodaysReminders_dedup (env : Env) (w : World)
  (out1 : Outcome (list RunResult)) (w1 : World) :
  primary_keys (db w) ->
  dedup_key (reminders (db w)) ->
  createTodaysReminders env w = (out1, w1) ->
  let today := local_date (now env) in
  dedup_key (reminders (db w1))
  /\ forall rs, out1 = Resolved rs ->
       (forall b, eligible (db w) today b ->
                  count_reminders (b_id b) today (reminders (db w1)) = 1%nat)
       /\ forall env', local_date (now env') = today ->
                       createTodaysReminders env' w1 = (Resolved [], w1).
Proof.
  intros Hpk Hdedup Hrun today.
  unfold createTodaysReminders in Hrun. cbn [bind get_db] in Hrun.
  fold today in Hrun.
  pose proof (birthdays_without_reminder_NoDup (month_day today) today (db w) Hpk)
    as Hnd.
  pose proof (birthdays_without_reminder_In (month_day today) today (db w))
    as Hids_in.
  destruct (createReminders_inv _ _ _ _ _ _ Hrun)
    as (done & rest & Hids & Hdb & _ & Hres).
  rewrite Hids in Hnd, Hids_in. clear Hids.
  assert (Hnd' : NoDup (map snd done)) by (eapply NoDup_app_remove_r; eassumption).
  assert (Hrs : reminders (db w1)
                = reminders (db w) ++ map (new_reminder today) done)
    by (rewrite Hdb; reflexivity).
  assert (Hfresh : forall i, In i (map snd done) ->
                             count_reminders i today (reminders (db w)) = 0%nat).
  { intros i Hi. apply has_reminder_false_count.
    destruct (proj1 (Hids_in i) (in_or_app _ _ _ (or_introl Hi)))
      as (b & g & -> & _ & _ & _ & _ & _ & Hno). exact Hno. }
  split.
  - intros birthdayId d. rewrite Hrs, count_reminders_app.
    destruct (in_dec string_dec birthdayId (map snd done)) as [Hin | Hnin].
    + destruct (date_eqb d today) eqn:Hd.
      * apply date_eqb_eq in Hd. subst d. rewrite (Hfresh _ Hin).
        apply (count_new_le_one today birthdayId today done Hnd').
      * rewrite (count_new_zero today birthdayId d done).
        -- specialize (Hdedup birthdayId d). lia.
        -- left. intros ->. rewrite date_eqb_refl in Hd. discriminate.
    + rewrite (count_new_zero today birthdayId d done) by (now right).
      specialize (Hdedup birthdayId d). lia.
  - intros rs Hout. destruct (Hres rs Hout) as [-> _].
    rewrite app_nil_r in Hids_in. split.
    + intros b (Hb & Hmd & g & Hg & Hgid & Hact).
      rewrite Hrs, count_reminders_app.
      destruct (has_reminder (b_id b) today (reminders (db w))) eqn:Hhas.
      * pose proof (has_reminder_true_count _ _ _ Hhas).
        specialize (Hdedup (b_id b) today).
        rewrite (count_new_zero today (b_id b) today done); [lia |].
        right. intros Hin. rewrite (Hfresh _ Hin) in H. lia.
      * rewrite (has_reminder_false_count _ _ _ Hhas).
        apply (count_new_one today (b_id b) done Hnd').
        apply Hids_in. exists b, g. repeat split; auto.
    + intros env' Henv. unfold createTodaysReminders. cbn [bind get_db].
      rewrite Henv.
      destruct (birthdays_without_reminder (month_day today) today (db w1))
        as [| i l] eqn:Hids'; [reflexivity |].
      exfalso.
      assert (Hi : In i (birthdays_without_reminder (month_day today) today
                           (db w1))) by (rewrite Hids'; now left).
      apply birthdays_without_reminder_In in Hi.
      destruct Hi as (b & g & -> & Hb & Hg & Hgid & Hmd & Hact & Hno).
      rewrite Hdb in Hb, Hg. simpl in Hb, Hg.
      rewrite Hrs in Hno. unfold has_reminder in Hno.
      rewrite existsb_app in Hno. apply orb_false_iff in Hno.
      destruct Hno as [Hold Hnew].
      assert (Hin : In (b_id b) (map snd done)).
      { apply Hids_in. exists b, g. repeat split; auto. }
      pose proof (has_reminder_new today done (b_id b) Hin) as Hyes.
      unfold has_reminder in Hyes. congruence.
Qed.

Lemma createTodaysReminders_dedup_witness :
  let env := env_at march_15_0000 always in
  let w1 := snd (createTodaysReminders env (world_of init_sql)) in
  count_reminders "bd_001" (mkDate 2025 3 15) (reminders (db w1)) = 1%nat
  /\ createTodaysReminders env w1 = (Resolved [], w1).
Proof.
  intros env w1.
  assert (Hpk : primary_keys (db (world_of init_sql))).
  { split; simpl.
    - repeat constructor; simpl; intuition discriminate.
    - repeat constructor; simpl; intuition discriminate. }
  assert (Hdd : dedup_key (reminders (db (world_of init_sql)))).
  { intros b d. cbv. lia. }
  destruct (createTodaysReminders_dedup env (world_of init_sql)
              (Resolved [mkRun 1]) w1 Hpk Hdd eq_refl) as [_ H].
  destruct (H [mkRun 1] eq_refl) as [Hone Hagain].
  split.
  - apply (Hone (mkBirthday "bd_001" "1234567890" (mkDate 1990 3 15)
                            "sample_group_123")).
    split; [now left |]. split; [reflexivity |].
    exists (mkGroup "sample_group_123" "Family Group" true).
    split; [now left | split; reflexivity].
  - apply Hagain. reflexivity.
Defined.

(** C3, the statement as written fails: nothing in the store keeps a
    second record of the same pair out.  Two calls of [createReminder]
    for bd_001 and 2025-03-15 both resolve and leave two records. *)
Lemma createReminder_twice_two_records :
  let env := env_at march_15_0000 always in
  let run1 := createReminder env "bd_001" (mkDate 2025 3 15)
                (world_of init_sql) in
  let run2 := createReminder env "bd_001" (mkDate 2025 3 15) (snd run1) in
  fst run1 = Resolved (mkRun 1)
  /\ fst run2 = Resolved (mkRun 1)
  /\ count_reminders "bd_001" (mkDate 2025 3 15)
       (reminders (db (snd run2))) = 2%nat
  /\ ~ dedup_key (reminders (db (snd run2))).
Proof.
  repeat split.
  intros H. specialize (H "bd_001"%string (mkDate 2025 3 15)).
  vm_compute in H. lia.
Qed.

(* ================================================================= *)
(** * The scheduler                                                   *)
(* ================================================================= *)

(** The two names that the scheduler calls and the class does not
    define. *)
Lemma markReminderAsSent_not_a_function :
  get_property "markReminderAsSent" ReminderRepository_prototype = None
  /\ get_property "createRemindersForDate" ReminderRepository_prototype = None.
Proof. split; reflexivity. Qed.

Lemma processBirthdayReminder_run env reminder w :
  let message :=
    mkMessage (Nat.modulo (randomIndex env (randoms_drawn w)) 4)
              (phone_number reminder) in
  let w' outbox' errors' :=
    mkWorld (db w) (uuids_drawn w) (S (randoms_drawn w)) (S (send_attempts w))
            outbox' errors' in
  processBirthdayReminder env reminder w
  = if client_delivers env (send_attempts w) (group_id reminder)
    then (Resolved tt,
          w' (outbox w ++ [(group_id reminder, message)])
             (console_errors w
              ++ [TypeError
                    "reminderRepository.markReminderAsSent is not a function"]))
    else (Resolved tt,
          w' (outbox w) (console_errors w ++ [ClientError (group_id reminder)])).
Proof.
  unfold processBirthdayReminder, try_catch, createBirthdayMessage, bind,
    Math_random_index, ret, sendMessage.
  cbn [send_attempts].
  destruct (client_delivers env (send_attempts w) (group_id reminder));
    reflexivity.
Qed.

(** The loop of [checkTodaysBirthdays] attempts one delivery per row,
    whatever the outcome of the others, and leaves the store as it is. *)
Lemma dispatch_loop env rows :
  forall w, exists w',
    for_of rows (fun reminder =>
                   processBirthdayReminder env reminder ;; delay 1000) w
    = (Resolved tt, w')
    /\ db w' = db w
    /\ send_attempts w' = (send_attempts w + List.length rows)%nat
    /\ exists delivered,
         outbox w' = outbox w ++ delivered
         /\ forall chat msg, In (chat, msg) delivered ->
              exists row, In row rows /\ chat = group_id row.
Proof.
  induction rows as [| row rows IH]; intros w.
  - exists w. simpl. repeat split; try lia.
    exists []. rewrite app_nil_r. split; [reflexivity | intros ? ? []].
  - cbn [for_of]. unfold bind at 1. unfold bind at 1.
    rewrite processBirthdayReminder_run.
    destruct (client_delivers env (send_attempts w) (group_id row));
      cbn [delay ret].
    + match goal with
      | |- context [for_of rows ?f ?w0] => destruct (IH w0)
          as (w' & Hrun & Hdb & Hatt & delivered & Hout & Hdel)
      end.
      exists w'. split; [exact Hrun |]. cbn in Hdb, Hatt, Hout.
      split; [exact Hdb |]. split; [simpl; lia |].
      eexists (_ :: delivered). split.
      * rewrite Hout, <- app_assoc. reflexivity.
      * intros chat msg [[= <- _] | Hin].
        -- exists row. split; [now left | reflexivity].
        -- destruct (Hdel chat msg Hin) as (row' & Hrow' & ->).
           exists row'. split; [now right | reflexivity].
    + match goal with
      | |- context [for_of rows ?f ?w0] => destruct (IH w0)
          as (w' & Hrun & Hdb & Hatt & delivered & Hout & Hdel)
      end.
      exists w'. split; [exact Hrun |]. cbn in Hdb, Hatt, Hout.
      split; [exact Hdb |]. split; [simpl; lia |].
      exists delivered. split; [exact Hout |].
      intros chat msg Hin. destruct (Hdel chat msg Hin) as (row' & Hrow' & ->).
      exists row'. split; [now right | reflexivity].
Qed.

(** A run of [checkTodaysBirthdays] resolves, leaves the store as it is
    and delivers only to groups of rows of [getPendingReminders]. *)
Lemma checkTodaysBirthdays_run env w :
  exists w',
    checkTodaysBirthdays env w = (Resolved tt, w')
    /\ db w' = db w
    /\ exists delivered,
         outbox w' = outbox w ++ delivered
         /\ forall chat msg, In (chat, msg) delivered ->
              exists row,
                In row (select_pending (local_date (now env)) (db w))
                /\ chat = group_id row.
Proof.
  unfold checkTodaysBirthdays, try_catch.
  change (reminderRepository "getPendingReminders" [] env)
    with (rows <- getPendingReminders env None ;; ret (JsRows rows)).
  cbn [bind getPendingReminders get_db ret].
  destruct (List.length _ =? 0)%nat.
  - exists w. split; [reflexivity | split; [reflexivity |]].
    exists []. rewrite app_nil_r. split; [reflexivity | intros ? ? []].
  - destruct (dispatch_loop env (select_pending (local_date (now env)) (db w)) w)
      as (w' & Hrun & Hdb & _ & Hdel).
    exists w'. rewrite Hrun. auto.
Qed.

(** C1, evaluated.  One pending reminder for 2025-03-15 in an active
    group, every delivery succeeds.  The run delivers the message, then
    calls [reminderRepository.markReminderAsSent], which is not a method
    of the repository; the [TypeError] is caught and logged, the record
    stays unsent and is still listed as pending, and a second run for the
    same date delivers a second message. *)
Theorem dispatch_leaves_reminder_unsent :
  let env := env_at march_15_0000 always in
  let w0 := world_of pending_march_15 in
  let w1 := snd (checkTodaysBirthdays env w0) in
  let w2 := snd (checkTodaysBirthdays env w1) in
  outbox w1 = [("sample_group_123"%string, mkMessage 0 "1234567890")]
  /\ console_errors w1
     = [TypeError "reminderRepository.markReminderAsSent is not a function"]
  /\ reminders (db w1)
     = [mkReminder "r_001" "bd_001" (mkDate 2025 3 15) false None]
  /\ map p_reminder (select_pending (mkDate 2025 3 15) (db w1))
     = [mkReminder "r_001" "bd_001" (mkDate 2025 3 15) false None]
  /\ outbox w2 = [("sample_group_123"%string, mkMessage 0 "1234567890");
                  ("sample_group_123"%string, mkMessage 1 "1234567890")]
  /\ forall env' w, db (snd (checkTodaysBirthdays env' w)) = db w.
Proof.
  repeat split.
  intros env' w. destruct (checkTodaysBirthdays_run env' w) as (w' & -> & Hdb & _).
  exact Hdb.
Qed.

(** C8, evaluated.  Three pending reminders R1, R2, R3 and a client that
    fails on the second delivery only.  All three deliveries are
    attempted and the messages of R1 and R3 go out, so the failure of R2
    does not stop the batch; but R1 and R3 are not marked as sent, since
    the call of [markReminderAsSent] throws for each of them. *)
Theorem dispatch_failure_isolated_but_nothing_marked :
  let env := env_at march_15_0000 second_fails in
  let w0 := world_of three_pending in
  let w1 := snd (checkTodaysBirthdays env w0) in
  map (fun row => r_id (p_reminder row))
      (select_pending (mkDate 2025 3 15) (db w0))
  = ["R1"; "R2"; "R3"]%string
  /\ send_attempts w1 = 3%nat
  /\ map (fun m => mention (snd m)) (outbox w1) = ["111"; "333"]%string
  /\ console_errors w1
     = [TypeError "reminderRepository.markReminderAsSent is not a function";
        ClientError "sample_group_123";
        TypeError "reminderRepository.markReminderAsSent is not a function"]
  /\ map (fun r => (r_id r, sent r)) (reminders (db w1))
     = [("R1", false); ("R2", false); ("R3", false)]%string.
Proof.
  repeat split.
Qed.

(** C2, evaluated.  At 23:59 on 2025-03-14 the birthday bd_001 (March
    15, active group) is due tomorrow and has no reminder.
    [createTomorrowReminders] calls
    [reminderRepository.createRemindersForDate], which is not a method of
    the repository: the [TypeError] is caught and logged and no record is
    created.  The materialization that the repository does define,
    [createTodaysReminders], creates nothing at that time either, and on
    2025-03-15 it creates the record dated 2025-03-15, the day of the run
    itself. *)
Theorem createTomorrowReminders_creates_nothing :
  let env := env_at march_14_2359 always in
  let w1 := snd (createTomorrowReminders env (world_of init_sql)) in
  next_day (local_date (now env)) = mkDate 2025 3 15
  /\ eligible init_sql (mkDate 2025 3 15)
       (mkBirthday "bd_001" "1234567890" (mkDate 1990 3 15) "sample_group_123")
  /\ reminders init_sql = []
  /\ reminders (db w1) = []
  /\ console_errors w1
     = [TypeError "reminderRepository.createRemindersForDate is not a function"]
  /\ reminders (db (snd (createTodaysReminders env (world_of init_sql)))) = []
  /\ reminders (db (snd (createTodaysReminders (env_at march_15_0000 always)
                           (world_of init_sql))))
     = [mkReminder "uuid-0000" "bd_001" (mkDate 2025 3 15) false None]
  /\ forall env' w, db (snd (createTomorrowReminders env' w)) = db w.
Proof.
  repeat split.
  - now left.
  - exists (mkGroup "sample_group_123" "Family Group" true).
    split; [now left | split; reflexivity].
Qed.

(** C10.  Listing and materialization both filter on [bot_active]:
    every row of [getPendingReminders] is unsent and belongs to a group
    that is active in the store at the time of the query; a reminder
    whose birthdays all lie in groups that are not active is in no row,
    sent or not; every record that [createTodaysReminders] adds belongs
    to a birthday of an active group; and every message that
    [checkTodaysBirthdays] delivers goes to an active group. *)
Theorem reminders_only_for_active_groups (env : Env) (w : World) :
  (forall date, exists rows,
      getPendingReminders env date w = (Resolved rows, w)
      /\ (forall row, In row rows ->
            sent (p_reminder row) = false
            /\ active_group (db w) (group_id row))
      /\ (forall r,
            (forall b, In b (birthdays (db w)) ->
                       b_id b = birthday_id r ->
                       ~ active_group (db w) (b_group_id b)) ->
            ~ In r (map p_reminder rows)))
  /\ (forall out w', createTodaysReminders env w = (out, w') ->
      forall r, In r (reminders (db w')) ->
        In r (reminders (db w))
        \/ exists b, In b (birthdays (db w))
                     /\ b_id b = birthday_id r
                     /\ active_group (db w) (b_group_id b))
  /\ (exists w' delivered,
        checkTodaysBirthdays env w = (Resolved tt, w')
        /\ outbox w' = outbox w ++ delivered
        /\ forall chat msg, In (chat, msg) delivered ->
                            active_group (db w) chat).
Proof.
  split; [| split].
  - intros date.
    exists (select_pending
              (match date with Some d => d | None => local_date (now env) end)
              (db w)).
    split; [reflexivity |]. split.
    + intros row Hin. apply select_pending_In in Hin.
      destruct Hin as (r & b & u & g & -> & _ & _ & Hg & _ & Hbg & Hact & Hs & _).
      simpl. split; [exact Hs |]. exists g. auto.
    + intros r Hinactive Hin. apply in_map_iff in Hin.
      destruct Hin as (row & <- & Hin). apply select_pending_In in Hin.
      destruct Hin as (r & b & u & g & -> & _ & Hb & Hg & Hrb & Hbg & Hact & _).
      simpl in Hinactive. apply (Hinactive b Hb (eq_sym Hrb)).
      exists g. auto.
  - intros out w' Hrun r Hin.
    unfold createTodaysReminders in Hrun. cbn [bind get_db] in Hrun.
    destruct (createReminders_inv _ _ _ _ _ _ Hrun)
      as (done & rest & Hids & Hdb & _).
    rewrite Hdb in Hin. simpl in Hin. apply in_app_or in Hin.
    destruct Hin as [Hin | Hin]; [now left | right].
    apply in_map_iff in Hin. destruct Hin as (p & <- & Hp).
    assert (Hid : In (snd p)
                    (birthdays_without_reminder
                       (month_day (local_date (now env)))
                       (local_date (now env)) (db w))).
    { rewrite Hids. apply in_or_app. left. apply in_map. exact Hp. }
    apply birthdays_without_reminder_In in Hid.
    destruct Hid as (b & g & Hsnd & Hb & Hg & Hbg & _ & Hact & _).
    exists b. simpl. split; [exact Hb |]. split; [now rewrite Hsnd |].
    exists g. auto.
  - destruct (checkTodaysBirthdays_run env w)
      as (w' & Hrun & _ & delivered & Hout & Hdel).
    exists w', delivered. split; [exact Hrun |]. split; [exact Hout |].
    intros chat msg Hin. destruct (Hdel chat msg Hin) as (row & Hrow & ->).
    apply select_pending_In in Hrow.
    destruct Hrow as (r & b & u & g & -> & _ & _ & Hg & _ & Hbg & Hact & _).
    simpl. exists g. auto.
Qed.

Lemma reminders_only_for_active_groups_witness :
  let env := env_at march_15_0000 always in
  let w := world_of inactive_group in
  map sent (reminders (db w)) = [false]
  /\ exists rows,
       getPendingReminders env None w = (Resolved rows, w)
       /\ ~ In (mkReminder "r_001" "bd_001" (mkDate 2025 3 15) false None)
              (map p_reminder rows).
Proof.
  intros env w. split; [reflexivity |].
  destruct (reminders_only_for_active_groups env w) as (Hlist & _).
  destruct (Hlist None) as (rows & Hrun & _ & Hnone).
  exists rows. split; [exact Hrun |].
  apply Hnone. intros b Hb _ (g & Hg & _ & Hact).
  simpl in Hg. destruct Hg as [<- | []]. discriminate Hact.
Defined.

(* ================================================================= *)
(** * More on the dates of commandParser.js                           *)
(* ================================================================= *)

Lemma isLeapYear_iff y :
  isLeapYear y = true <-> (y mod 4 = 0 /\ y mod 100 <> 0) \/ y mod 400 = 0.
Proof.
  unfold isLeapYear.
  rewrite orb_true_iff, andb_true_iff, negb_true_iff, !Z.eqb_eq, Z.eqb_neq.
  tauto.
Qed.

Lemma month_cases m :
  1 <= m <= 12 ->
  m = 1 \/ m = 2 \/ m = 3 \/ m = 4 \/ m = 5 \/ m = 6 \/ m = 7 \/ m = 8
  \/ m = 9 \/ m = 10 \/ m = 11 \/ m = 12.
Proof. lia. Qed.

Ltac split_ifs :=
  repeat match goal with
         | |- context [if ?a <=? ?b then _ else _] =>
             destruct (Z.leb_spec a b); try lia
         | |- context [if ?a <? ?b then _ else _] =>
             destruct (Z.ltb_spec a b); try lia
         end.

(** The day number of [valueOf] advances by one from a day to the
    next, through the ends of months, of February and of the year. *)
Lemma days_from_civil_next_day d :
  valid_date d = true -> days_from_civil (next_day d) = days_from_civil d + 1.
Proof.
  intros Hv. apply valid_date_bounds in Hv. destruct d as [y m dd].
  cbn [year month day] in Hv. destruct Hv as [Hm [Hd1 Hd]].
  unfold next_day. cbn [year month day].
  destruct (month_cases m Hm) as
    [-> | [-> | [-> | [-> | [-> | [-> | [-> | [-> | [-> | [-> | [-> | ->]]]]]]]]]]];
    unfold daysInMonth in *; cbn [Z.eqb Pos.eqb orb] in *.
  all: try (destruct (isLeapYear y) eqn:Hleap;
            [apply isLeapYear_iff in Hleap
            | assert (Hnl : ~ ((y mod 4 = 0 /\ y mod 100 <> 0) \/ y mod 400 = 0))
                by (rewrite <- isLeapYear_iff; congruence)]).
  all: match goal with
       | |- context [if ?a <? ?b then mkDate _ _ (_ + 1) else _] =>
           destruct (Z.ltb_spec a b)
       end;
       [| match goal with
          | |- context [?a <? 12] => destruct (Z.ltb_spec a 12); try lia
          end];
       unfold days_from_civil; cbn [year month day]; split_ifs;
       Z.div_mod_to_equations; lia.
Qed.

Lemma daysInMonth_lower y m : 28 <= daysInMonth y m.
Proof.
  unfold daysInMonth.
  destruct (m =? 2); [destruct (isLeapYear y); lia |].
  destruct ((m =? 4) || (m =? 6) || (m =? 9) || (m =? 11)); lia.
Qed.

Lemma valid_date_intro d :
  1 <= month d <= 12 -> 1 <= day d <= daysInMonth (year d) (month d) ->
  valid_date d = true.
Proof.
  intros Hm Hd. unfold valid_date. rewrite !andb_true_iff, !Z.leb_le. tauto.
Qed.

Lemma next_day_valid d : valid_date d = true -> valid_date (next_day d) = true.
Proof.
  intros Hv. apply valid_date_bounds in Hv. destruct Hv as [Hm Hd].
  unfold next_day.
  destruct (Z.ltb_spec (day d) (daysInMonth (year d) (month d))).
  - apply valid_date_intro; simpl; lia.
  - destruct (Z.ltb_spec (month d) 12); apply valid_date_intro; simpl;
      try lia.
    + pose proof (daysInMonth_lower (year d) (month d + 1)). lia.
    + pose proof (daysInMonth_lower (year d + 1) 1). lia.
Qed.

Lemma date_ltb_iff a b :
  date_ltb a b = true
  <-> year a < year b
      \/ (year a = year b
          /\ (month a < month b \/ (month a = month b /\ day a < day b))).
Proof.
  unfold date_ltb.
  rewrite !orb_true_iff, !andb_true_iff, !orb_true_iff, !andb_true_iff,
    !Z.ltb_lt, !Z.eqb_eq.
  tauto.
Qed.

Lemma date_ltb_next_day d : date_ltb d (next_day d) = true.
Proof.
  apply date_ltb_iff. unfold next_day.
  destruct (Z.ltb_spec (day d) (daysInMonth (year d) (month d)));
    [| destruct (Z.ltb_spec (month d) 12)]; simpl; lia.
Qed.

Lemma date_ltb_asym a b : date_ltb a b = true -> date_ltb b a = false.
Proof.
  intros H. apply date_ltb_iff in H.
  destruct (date_ltb b a) eqn:E; [| reflexivity].
  apply date_ltb_iff in E. lia.
Qed.

(** When the stored month and day are those of the next calendar day,
    the next birthday is the next calendar day. *)
Lemma getNextBirthdayDate_tomorrow b reference :
  valid_date b = true ->
  valid_moment reference = true ->
  month_day b = month_day (next_day (local_date reference)) ->
  getNextBirthdayDate (of_date b) reference
  = of_date (next_day (local_date reference)).
Proof.
  intros Hb Hr Hmd.
  pose proof (reference_date_valid reference Hr) as Ht.
  pose proof (next_day_valid _ Ht) as Hn.
  pose proof (valid_date_bounds _ Hn) as [_ Hnd].
  unfold month_day in Hmd. injection Hmd as Hm Hd.
  unfold getNextBirthdayDate.
  rewrite set_year_keeps_month_day; [| exact Hb |].
  - unfold isBefore_day. cbn [local_date of_date].
    remember (local_date reference) as today eqn:Etoday.
    unfold next_day in *.
    destruct (Z.ltb_spec (day today) (daysInMonth (year today) (month today)));
      [| destruct (Z.ltb_spec (month today) 12)];
      cbn [year month day] in *; rewrite Hm, Hd.
    + rewrite date_ltb_asym; [reflexivity |].
      apply date_ltb_iff. simpl. lia.
    + rewrite date_ltb_asym; [reflexivity |].
      apply date_ltb_iff. simpl. lia.
    + apply valid_date_bounds in Ht.
      assert (Hbefore : date_ltb (mkDate (year today) 1 1) today = true).
      { apply date_ltb_iff. simpl. lia. }
      rewrite Hbefore. unfold add_one_year, of_date.
      cbn [local_date year month day millis].
      rewrite Z.min_l; [reflexivity |].
      pose proof (daysInMonth_lower (year today + 1) 1). lia.
  - intros Hfeb H29.
    remember (local_date reference) as today eqn:Etoday.
    pose proof (daysInMonth_feb (year today)) as Hfb.
    apply valid_date_bounds in Ht.
    unfold next_day in Hm, Hd, Hnd.
    destruct (Z.ltb_spec (day today) (daysInMonth (year today) (month today)));
      [| destruct (Z.ltb_spec (month today) 12)];
      cbn [year month day] in *; try lia.
    rewrite <- Hm, Hfeb in Hnd. lia.
Qed.

(** X2.  A birthday on the next calendar day: [daysUntil] is 1 only at
    local midnight and 0 at every later time of the day, and the reply
    of [handleMyBirthday] then carries the text of the day itself. *)
Theorem daysUntil_of_tomorrow (b : Date) (reference : Moment) :
  valid_date b = true ->
  valid_moment reference = true ->
  month_day b = month_day (next_day (local_date reference)) ->
  daysUntil b reference = (if millis reference =? 0 then 1 else 0)
  /\ (0 < millis reference ->
      handleMyBirthday_dayText b reference = ItIsToday).
Proof.
  intros Hb Hr Hmd.
  pose proof (reference_date_valid reference Hr) as Ht.
  pose proof (reference_millis reference Hr) as Hms.
  assert (Hu : daysUntil b reference
               = (if millis reference =? 0 then 1 else 0)).
  { unfold daysUntil. rewrite (getNextBirthdayDate_tomorrow b reference Hb Hr Hmd).
    unfold diff_days, valueOf, of_date. cbn [local_date millis].
    rewrite (days_from_civil_next_day _ Ht).
    unfold MS_PER_DAY in *.
    destruct (Z.eqb_spec (millis reference) 0) as [E | E].
    - rewrite E.
      replace ((days_from_civil (local_date reference) + 1) * 86400000 + 0
               - (days_from_civil (local_date reference) * 86400000 + 0))
        with (1 * 86400000) by lia.
      apply Z.quot_mul. lia.
    - apply Z.quot_small. lia. }
  split; [exact Hu |].
  intros Hpos. unfold handleMyBirthday_dayText. rewrite Hu.
  destruct (Z.eqb_spec (millis reference) 0); [lia | reflexivity].
Qed.

Lemma daysUntil_of_tomorrow_witness :
  daysUntil (mkDate 1990 1 1) (mkMoment (mkDate 2025 12 31) 1) = 0
  /\ handleMyBirthday_dayText (mkDate 1990 1 1)
       (mkMoment (mkDate 2025 12 31) 1) = ItIsToday.
Proof.
  destruct (daysUntil_of_tomorrow (mkDate 1990 1 1)
              (mkMoment (mkDate 2025 12 31) 1) eq_refl eq_refl eq_refl)
    as [H1 H2].
  split; [exact H1 | apply H2; reflexivity].
Defined.

Lemma isBefore_day_iff a b :
  isBefore_day a b = true <-> date_ltb (local_date a) (local_date b) = true.
Proof. reflexivity. Qed.

(** The candidate of [getNextBirthdayDate] is a date of the reference
    year in the stored month. *)
Lemma set_year_valid b y :
  valid_date b = true ->
  let c := local_date (set_year (of_date b) y) in
  valid_date c = true /\ year c = y /\ month c = month b
  /\ (day c = day b \/ (month b = 2 /\ day b = 29 /\ day c = 28)).
Proof.
  intros Hb c. subst c. pose proof (valid_date_bounds _ Hb) as [Hm Hd].
  unfold set_year, of_date. cbn [local_date millis].
  destruct (isLeapYear (year b) && (month b =? 2) && (day b =? 29)) eqn:E;
    cbn [local_date year month day].
  - rewrite !andb_true_iff, !Z.eqb_eq in E. destruct E as [[_ E2] E29].
    pose proof (daysInMonth_feb y).
    split; [apply valid_date_intro; simpl; lia |].
    split; [reflexivity |]. split; [congruence |].
    unfold daysInMonth in *. simpl in *.
    destruct (isLeapYear y); [left; lia | right; auto].
  - split; [| auto].
    apply valid_date_intro; simpl; [lia |].
    destruct (Z.eq_dec (month b) 2) as [E2 | E2].
    + rewrite E2 in *. pose proof (daysInMonth_feb y).
      pose proof (daysInMonth_feb (year b)).
      destruct (Z.eq_dec (day b) 29) as [E29 | E29]; [| lia].
      exfalso. rewrite E29 in *.
      assert (isLeapYear (year b) = true).
      { unfold daysInMonth in Hd. simpl in Hd.
        destruct (isLeapYear (year b)); [reflexivity | lia]. }
      rewrite H1 in E. simpl in E. discriminate.
    + rewrite (daysInMonth_not_feb y (year b) _ E2). lia.
Qed.

Lemma add_one_year_valid m :
  valid_date (local_date m) = true ->
  let r := local_date (add_one_year m) in
  valid_date r = true /\ year r = year (local_date m) + 1
  /\ month r = month (local_date m)
  /\ (day r = day (local_date m)
      \/ (month r = 2 /\ day (local_date m) = 29 /\ day r = 28)).
Proof.
  intros Hv r. subst r. pose proof (valid_date_bounds _ Hv) as [Hm Hd].
  unfold add_one_year. cbn [local_date year month day].
  pose proof (daysInMonth_lower (year (local_date m) + 1) (month (local_date m))).
  split; [apply valid_date_intro; simpl; lia |].
  split; [reflexivity |]. split; [reflexivity |].
  destruct (Z.eq_dec (month (local_date m)) 2) as [E2 | E2].
  - rewrite E2 in *. pose proof (daysInMonth_feb (year (local_date m))).
    pose proof (daysInMonth_feb (year (local_date m) + 1)). lia.
  - rewrite (daysInMonth_not_feb _ (year (local_date m)) _ E2). lia.
Qed.

(** X1.  The next birthday is never before the reference day: it is a
    valid date at local midnight, in the reference year or the year
    after, in the stored month and on the stored day (a stored February
    29 may fall on February 28).  When the stored month and day are
    later in the year than the reference day and exist in the reference
    year, it is that day of the reference year. *)
Theorem getNextBirthdayDate_not_in_the_past (b : Date) (reference : Moment) :
  valid_date b = true ->
  valid_moment reference = true ->
  let today := local_date reference in
  let next := getNextBirthdayDate (of_date b) reference in
  isBefore_day next reference = false
  /\ millis next = 0
  /\ valid_date (local_date next) = true
  /\ (year (local_date next) = year today
      \/ year (local_date next) = year today + 1)
  /\ month (local_date next) = month b
  /\ (day (local_date next) = day b
      \/ (month b = 2 /\ day b = 29 /\ day (local_date next) = 28))
  /\ (month_day_ltb (month_day today) (month_day b) = true ->
      (month b = 2 -> day b = 29 -> isLeapYear (year today) = true) ->
      next = of_date (mkDate (year today) (month b) (day b))).
Proof.
  intros Hb Hr today next.
  pose proof (set_year_valid b (year today) Hb) as (Hcv & Hcy & Hcm & Hcd).
  cbv zeta in Hcv, Hcy, Hcm, Hcd.
  assert (Hmillis : forall m, millis (set_year (of_date b) m) = 0).
  { intros m. unfold set_year, of_date. cbn [local_date millis].
    destruct (_ && _); reflexivity. }
  subst next. unfold getNextBirthdayDate. fold today.
  destruct (isBefore_day (set_year (of_date b) (year today)) reference) eqn:E.
  - pose proof (add_one_year_valid _ Hcv) as (Hav & Hay & Ham & Had).
    cbv zeta in Hav, Hay, Ham, Had.
    split.
    { unfold isBefore_day. fold today.
      destruct (date_ltb _ today) eqn:E'; [| reflexivity].
      apply date_ltb_iff in E'. lia. }
    split; [unfold add_one_year; cbn [millis]; apply Hmillis |].
    split; [exact Hav |]. split; [right; lia |]. split; [congruence |].
    split; [lia |].
    intros Hlater Hexists. exfalso.
    rewrite set_year_keeps_month_day in E; [| exact Hb |].
    + unfold isBefore_day, of_date in E. cbn [local_date] in E. fold today in E.
      apply date_ltb_iff in E. cbn [year month day] in E.
      unfold month_day_ltb, month_day in Hlater. cbn [fst snd] in Hlater.
      rewrite orb_true_iff, andb_true_iff, !Z.ltb_lt, Z.eqb_eq in Hlater. lia.
    + intros H2 H29. specialize (Hexists H2 H29).
      unfold daysInMonth. simpl. now rewrite Hexists.
  - split; [exact E |]. split; [apply Hmillis |].
    split; [exact Hcv |]. split; [left; exact Hcy |]. split; [exact Hcm |].
    split; [exact Hcd |].
    intros _ Hexists. apply set_year_keeps_month_day; [exact Hb |].
    intros H2 H29. specialize (Hexists H2 H29).
    unfold daysInMonth. simpl. now rewrite Hexists.
Qed.

Lemma getNextBirthdayDate_not_in_the_past_witness :
  getNextBirthdayDate (of_date (mkDate 1985 7 22)) march_14_1000
  = of_date (mkDate 2025 7 22).
Proof.
  destruct (getNextBirthdayDate_not_in_the_past (mkDate 1985 7 22)
              march_14_1000 eq_refl eq_refl)
    as (_ & _ & _ & _ & _ & _ & H).
  apply H; [reflexivity | discriminate].
Defined.

(** ** [validateDate]: the accepted strings *)

Lemma digit_of_digit_char n : digit_of (digit_char n) = Some (n mod 10).
Proof.
  unfold digit_of, digit_char.
  pose proof (Z.mod_pos_bound n 10 ltac:(lia)) as Hb.
  rewrite nat_ascii_embedding by lia.
  replace (Z.of_nat (48 + Z.to_nat (n mod 10))) with (48 + n mod 10) by lia.
  destruct (Z.leb_spec 48 (48 + n mod 10)); [| lia].
  destruct (Z.leb_spec (48 + n mod 10) 57); [| lia].
  cbn [andb]. f_equal. lia.
Qed.

Lemma digit_char_digit_of c k : digit_of c = Some k -> digit_char k = c /\ 0 <= k <= 9.
Proof.
  unfold digit_of, digit_char.
  destruct (Z.leb_spec 48 (Z.of_nat (nat_of_ascii c))); [| discriminate].
  destruct (Z.leb_spec (Z.of_nat (nat_of_ascii c)) 57); [| discriminate].
  cbn [andb]. intros [= <-]. split; [| lia].
  rewrite Z.mod_small by lia.
  replace (48 + Z.to_nat (Z.of_nat (nat_of_ascii c) - 48))%nat
    with (nat_of_ascii c) by lia.
  apply ascii_nat_embedding.
Qed.

Lemma parse_DD_MM_pad2 sep dd mm :
  0 <= dd < 100 -> 0 <= mm < 100 ->
  parse_DD_MM sep (pad2 dd ++ String sep (pad2 mm)) = Some (dd, mm).
Proof.
  intros Hd Hm. unfold pad2. cbn [String.append parse_DD_MM].
  rewrite Ascii.eqb_refl, !digit_of_digit_char.
  f_equal. f_equal; Z.div_mod_to_equations; lia.
Qed.

Lemma parse_DD_MM_inv sep s dd mm :
  parse_DD_MM sep s = Some (dd, mm) ->
  s = (pad2 dd ++ String sep (pad2 mm))%string /\ 0 <= dd < 100 /\ 0 <= mm < 100.
Proof.
  unfold parse_DD_MM.
  destruct s as [| d1 [| d2 [| c [| m1 [| m2 [| ? ?]]]]]]; try discriminate.
  destruct (Ascii.eqb_spec c sep) as [-> | ?]; [| discriminate].
  destruct (digit_of d1) as [a |] eqn:E1; [| discriminate].
  destruct (digit_of d2) as [b |] eqn:E2; [| discriminate].
  destruct (digit_of m1) as [x |] eqn:E3; [| discriminate].
  destruct (digit_of m2) as [y |] eqn:E4; [| discriminate].
  intros H.
  assert (E : (10 * a + b, 10 * x + y) = (dd, mm)) by congruence.
  apply pair_equal_spec in E. destruct E as [<- <-]. clear H.
  apply digit_char_digit_of in E1, E2, E3, E4.
  destruct E1 as [<- Ha], E2 as [<- Hb], E3 as [<- Hx], E4 as [<- Hy].
  split; [| lia]. unfold pad2. cbn [String.append].
  assert (Hdc : forall p q, 0 <= p <= 9 -> 0 <= q <= 9 ->
                  digit_char ((10 * p + q) / 10) = digit_char p
                  /\ digit_char (10 * p + q) = digit_char q).
  { intros p q Hp Hq. unfold digit_char. split; do 3 f_equal;
      Z.div_mod_to_equations; lia. }
  destruct (Hdc a b Ha Hb) as [-> ->]. destruct (Hdc x y Hx Hy) as [-> ->].
  reflexivity.
Qed.

Lemma first_valid_formats_inv s reference m :
  first_valid ["/"; "-"; "."]%char s reference = Some m ->
  exists sep dd mm,
    In sep ["/"; "-"; "."]%char
    /\ parse_DD_MM sep s = Some (dd, mm)
    /\ valid_date (mkDate (year (local_date reference)) mm dd) = true
    /\ m = of_date (mkDate (year (local_date reference)) mm dd).
Proof.
  generalize ["/"; "-"; "."]%char as formats.
  induction formats as [| sep rest IH]; simpl; [discriminate |].
  unfold parse_strict at 1.
  destruct (parse_DD_MM sep s) as [[dd mm] |] eqn:Hp.
  - destruct (valid_date _) eqn:Hv.
    + intros [= <-]. exists sep, dd, mm. auto.
    + intros H. destruct (IH H) as (sep' & dd' & mm' & Hin & Hrest).
      exists sep', dd', mm'. auto.
  - intros H. destruct (IH H) as (sep' & dd' & mm' & Hin & Hrest).
    exists sep', dd', mm'. auto.
Qed.

Lemma validateDate_pad2 sep dd mm reference :
  In sep ["/"; "-"; "."]%char ->
  valid_date (mkDate (year (local_date reference)) mm dd) = true ->
  validateDate (pad2 dd ++ String sep (pad2 mm)) reference
  = mkValidation true
      (Some (of_date (mkDate (year (local_date reference)) mm dd))) None.
Proof.
  set (currentYear := year (local_date reference)).
  intros Hsep Hv.
  pose proof (valid_date_bounds _ Hv) as [Hm Hd]. cbn [year month day] in Hm, Hd.
  pose proof (daysInMonth_upper currentYear mm).
  assert (Hparse : forall c, c = sep ->
            parse_strict c (pad2 dd ++ String sep (pad2 mm)) reference
            = Some (of_date (mkDate currentYear mm dd))).
  { intros c ->. unfold parse_strict. rewrite parse_DD_MM_pad2 by lia.
    fold currentYear. now rewrite Hv. }
  assert (Hmiss : forall c, c <> sep ->
            parse_strict c (pad2 dd ++ String sep (pad2 mm)) reference = None).
  { intros c Hne. unfold parse_strict, pad2. cbn [String.append parse_DD_MM].
    destruct (Ascii.eqb_spec sep c); [congruence | reflexivity]. }
  assert (Hfirst : first_valid ["/"; "-"; "."]%char
                     (pad2 dd ++ String sep (pad2 mm)) reference
                   = Some (of_date (mkDate currentYear mm dd))).
  { cbn [first_valid].
    destruct Hsep as [<- | [<- | [<- | []]]].
    - now rewrite Hparse.
    - rewrite Hmiss by discriminate. now rewrite Hparse.
    - rewrite !Hmiss by discriminate. now rewrite Hparse. }
  unfold validateDate. rewrite Hfirst. fold currentYear.
  rewrite set_year_keeps_month_day; [reflexivity | exact Hv |].
  cbn [year month day]. intros -> ->.
  pose proof (daysInMonth_feb currentYear). lia.
Qed.

Lemma validateDate_inv dateStr reference :
  isValid (validateDate dateStr reference) = true ->
  exists sep dd mm,
    In sep ["/"; "-"; "."]%char
    /\ dateStr = (pad2 dd ++ String sep (pad2 mm))%string
    /\ valid_date (mkDate (year (local_date reference)) mm dd) = true
    /\ v_date (validateDate dateStr reference)
       = Some (of_date (mkDate (year (local_date reference)) mm dd)).
Proof.
  set (currentYear := year (local_date reference)).
  unfold validateDate.
  destruct (first_valid _ dateStr reference) as [m |] eqn:Hf;
    [| discriminate].
  intros _. cbn [v_date].
  destruct (first_valid_formats_inv _ _ _ Hf)
    as (sep & dd & mm & Hsep & Hp & Hv & ->).
  destruct (parse_DD_MM_inv _ _ _ _ Hp) as (-> & _ & _).
  exists sep, dd, mm. fold currentYear in Hv |- *.
  repeat (split; [assumption || reflexivity |]).
  rewrite set_year_keeps_month_day; [reflexivity | exact Hv |].
  cbn [year month day]. intros -> ->.
  apply valid_date_bounds in Hv. cbn [year month day] in Hv.
  pose proof (daysInMonth_feb currentYear). lia.
Qed.

(** C9, as amended.  What [handleAddBirthday] stores is a full date.
    An input is stored exactly when it reads DD/MM, DD-MM or DD.MM, two
    digits each, and names a day that exists in the year of the command;
    the stored date then has the month MM and the day DD of the input,
    whatever the day on which the command runs, and the year in which
    the command runs; and [addOrUpdateBirthday] stores that date as
    [birth_date]. *)
Theorem stored_birth_date_carries_current_year (dateStr : string)
  (reference : Moment) :
  (forall d,
     handleAddBirthday_birthDate dateStr reference = Some d ->
     (exists sep dd mm,
        In sep ["/"; "-"; "."]%char
        /\ dateStr = (pad2 dd ++ String sep (pad2 mm))%string
        /\ valid_date d = true
        /\ d = mkDate (year (local_date reference)) mm dd)
     /\ (forall reference2 d2,
           handleAddBirthday_birthDate dateStr reference2 = Some d2 ->
           month_day d2 = month_day d
           /\ year d2 = year (local_date reference2))
     /\ (forall env phoneNumber groupId w r w',
           addOrUpdateBirthday env phoneNumber d groupId w = (Resolved r, w') ->
           exists row,
             In row (birthdays (db w'))
             /\ b_phone_number row = phoneNumber
             /\ b_group_id row = groupId
             /\ birth_date row = d))
  /\ (forall sep dd mm,
        In sep ["/"; "-"; "."]%char ->
        valid_date (mkDate (year (local_date reference)) mm dd) = true ->
        handleAddBirthday_birthDate (pad2 dd ++ String sep (pad2 mm)) reference
        = Some (mkDate (year (local_date reference)) mm dd)).
Proof.
  split.
  - intros d Hd.
    assert (Hvalid : isValid (validateDate dateStr reference) = true).
    { unfold handleAddBirthday_birthDate, validateDate in *.
      destruct (first_valid _ dateStr reference); [reflexivity | discriminate]. }
    destruct (validateDate_inv _ _ Hvalid)
      as (sep & dd & mm & Hsep & Hstr & Hv & Hdate).
    assert (Heq : d = mkDate (year (local_date reference)) mm dd).
    { unfold handleAddBirthday_birthDate in Hd. rewrite Hdate in Hd.
      now injection Hd as <-. }
    split; [| split].
    + exists sep, dd, mm. rewrite Heq. auto.
    + intros reference2 d2 Hd2.
      destruct (handleAddBirthday_birthDate_inv _ _ _ Hd)
        as (sep1 & dd1 & mm1 & Hp1 & ->).
      destruct (handleAddBirthday_birthDate_inv _ _ _ Hd2)
        as (sep2 & dd2 & mm2 & Hp2 & ->).
      pose proof (parse_DD_MM_any_separator _ _ _ _ _ Hp1 Hp2) as [= -> ->].
      split; reflexivity.
    + intros env phoneNumber groupId w r w'. apply addOrUpdateBirthday_stores.
  - intros sep dd mm Hsep Hv. unfold handleAddBirthday_birthDate.
    rewrite (validateDate_pad2 sep dd mm reference Hsep Hv). reflexivity.
Qed.

Lemma stored_birth_date_carries_current_year_witness :
  handleAddBirthday_birthDate "05/03" (mkMoment (mkDate 2024 6 1) 0)
  = Some (mkDate 2024 3 5)
  /\ handleAddBirthday_birthDate "05/03" (mkMoment (mkDate 2025 6 1) 0)
     = Some (mkDate 2025 3 5)
  /\ month_day (mkDate 2025 3 5) = month_day (mkDate 2024 3 5).
Proof.
  destruct (stored_birth_date_carries_current_year "05/03"
              (mkMoment (mkDate 2024 6 1) 0)) as [Hstored Haccept].
  destruct (stored_birth_date_carries_current_year "05/03"
              (mkMoment (mkDate 2025 6 1) 0)) as [_ Haccept2].
  split; [exact (Haccept "/"%char 5 3 (or_introl eq_refl) eq_refl) |].
  split; [exact (Haccept2 "/"%char 5 3 (or_introl eq_refl) eq_refl) |].
  destruct (Hstored (mkDate 2024 3 5)
              (Haccept "/"%char 5 3 (or_introl eq_refl) eq_refl))
    as (_ & Hother & _).
  exact (proj1 (Hother (mkMoment (mkDate 2025 6 1) 0) (mkDate 2025 3 5)
                  (Haccept2 "/"%char 5 3 (or_introl eq_refl) eq_refl))).
Defined.

(** X3.  [validateDate] accepts exactly the five-character strings
    "DD/MM", "DD-MM" and "DD.MM" (two digits each) that name a day which
    exists in the current year, and returns that day of the current year
    at local midnight; on every other string it reports the format
    error. *)
Theorem validateDate_accepts_existing_days (dateStr : string)
  (reference : Moment) :
  let currentYear := year (local_date reference) in
  (forall sep dd mm,
      In sep ["/"; "-"; "."]%char ->
      valid_date (mkDate currentYear mm dd) = true ->
      validateDate (pad2 dd ++ String sep (pad2 mm)) reference
      = mkValidation true (Some (of_date (mkDate currentYear mm dd))) None)
  /\ (isValid (validateDate dateStr reference) = true ->
      exists sep dd mm,
        In sep ["/"; "-"; "."]%char
        /\ dateStr = (pad2 dd ++ String sep (pad2 mm))%string
        /\ valid_date (mkDate currentYear mm dd) = true
        /\ v_date (validateDate dateStr reference)
           = Some (of_date (mkDate currentYear mm dd)))
  /\ (isValid (validateDate dateStr reference) = false ->
      validateDate dateStr reference
      = mkValidation false None
          (Some "Invalid date format. Please use DD/MM, DD-MM, or DD.MM"%string)).
Proof.
  intros currentYear. split; [| split].
  - intros sep dd mm. apply validateDate_pad2.
  - apply validateDate_inv.
  - unfold validateDate.
    destruct (first_valid _ dateStr reference); [discriminate | reflexivity].
Qed.

Lemma validateDate_accepts_existing_days_witness :
  validateDate "29.02" (mkMoment (mkDate 2024 6 1) 0)
  = mkValidation true (Some (of_date (mkDate 2024 2 29))) None
  /\ validateDate "29.02" (mkMoment (mkDate 2025 6 1) 0)
     = mkValidation false None
         (Some "Invalid date format. Please use DD/MM, DD-MM, or DD.MM"%string).
Proof.
  split.
  - destruct (validateDate_accepts_existing_days "29.02"
                (mkMoment (mkDate 2024 6 1) 0)) as (Hacc & _ & _).
    apply (Hacc "."%char 29 2); [simpl; tauto | reflexivity].
  - destruct (validateDate_accepts_existing_days "29.02"
                (mkMoment (mkDate 2025 6 1) 0)) as (_ & _ & Hrej).
    apply Hrej. reflexivity.
Defined.

(* ================================================================= *)
(** * The birthdays of a member                                       *)
(* ================================================================= *)

Lemma left_join_cons {A B} (a : A) (l : list A) (tbl : list B) on :
  left_join (a :: l) tbl on
  = match filter (on a) tbl with
    | [] => [(a, None)]
    | matches => map (fun b => (a, Some b)) matches
    end ++ left_join l tbl on.
Proof. reflexivity. Qed.

Lemma left_join_rows {A B} (a : A) (tbl : list B) (on : A -> B -> bool) :
  let rows := match filter (on a) tbl with
              | [] => [(a, None)]
              | matches => map (fun b => (a, Some b)) matches
              end in
  (exists x rest, rows = (a, x) :: rest) /\ forall y, In y rows -> fst y = a.
Proof.
  destruct (filter (on a) tbl) as [| b0 rest]; simpl.
  - split; [eauto |]. intros y [<- | []]. reflexivity.
  - split; [eauto |]. intros y [<- | Hy]; [reflexivity |].
    apply in_map_iff in Hy. destruct Hy as (b & <- & _). reflexivity.
Qed.

Lemma filter_all {A} (f : A -> bool) l :
  (forall x, In x l -> f x = true) -> filter f l = l.
Proof.
  induction l as [| x l IH]; simpl; intros H; [reflexivity |].
  rewrite (H x (or_introl eq_refl)). f_equal. apply IH.
  intros y Hy. apply H. now right.
Qed.

(** The first row of a left join that satisfies a condition on the left
    table is the first such row of the left table. *)
Lemma left_join_first {A B} (P : A -> bool) (l : list A) (tbl : list B) on :
  hd_error (map fst (filter (fun x => P (fst x)) (left_join l tbl on)))
  = hd_error (filter P l).
Proof.
  induction l as [| a l IH]; [reflexivity |].
  rewrite left_join_cons, filter_app, map_app.
  destruct (left_join_rows a tbl on) as [(x & rest & Hrows) Hfst].
  cbv zeta in Hrows, Hfst.
  cbn [filter]. destruct (P a) eqn:E.
  - rewrite filter_all by (intros y Hy; now rewrite (Hfst y Hy)).
    rewrite Hrows. reflexivity.
  - rewrite filter_none by (intros y Hy; now rewrite (Hfst y Hy)).
    exact IH.
Qed.

Lemma getBirthdayByUserAndGroup_run phoneNumber groupId w :
  getBirthdayByUserAndGroup phoneNumber groupId w
  = (Resolved (hd_error (filter (same_member phoneNumber groupId)
                                (birthdays (db w)))), w).
Proof.
  unfold getBirthdayByUserAndGroup, bind, get_db, ret.
  f_equal. f_equal.
  exact (left_join_first (same_member phoneNumber groupId) _ _ _).
Qed.

Lemma update_birth_date_same_member p g d p' g' b :
  same_member p' g' (update_birth_date p g d b) = same_member p' g' b.
Proof.
  unfold update_birth_date. destruct (_ && _); reflexivity.
Qed.

Lemma update_birth_date_hit p g d b :
  same_member p g b = true ->
  update_birth_date p g d b = mkBirthday (b_id b) p d g.
Proof.
  intros H. unfold update_birth_date. unfold same_member in H. rewrite H.
  apply andb_true_iff in H. destruct H as [H1 H2].
  apply String.eqb_eq in H1, H2. now rewrite H1, H2.
Qed.

Lemma update_birth_date_miss p g d b :
  same_member p g b = false -> update_birth_date p g d b = b.
Proof.
  intros H. unfold update_birth_date. unfold same_member in H. now rewrite H.
Qed.

Lemma filter_map_commute {A} (P : A -> bool) (f : A -> A) l :
  (forall x, P (f x) = P x) -> filter P (map f l) = map f (filter P l).
Proof.
  intros H. induction l as [| x l IH]; simpl; [reflexivity |].
  rewrite H. destruct (P x); simpl; now rewrite IH.
Qed.

Lemma count_if_map {A} (P : A -> bool) (f : A -> A) l :
  (forall x, P (f x) = P x) -> count_if P (map f l) = count_if P l.
Proof.
  intros H. unfold count_if. rewrite filter_map_commute by exact H.
  apply length_map.
Qed.

Lemma count_if_app {A} (P : A -> bool) l1 l2 :
  count_if P (l1 ++ l2) = (count_if P l1 + count_if P l2)%nat.
Proof. unfold count_if. now rewrite filter_app, length_app. Qed.

(** The two branches of [addOrUpdateBirthday]. *)
Lemma addOrUpdateBirthday_run env p d g w :
  addOrUpdateBirthday env p d g w
  = match hd_error (filter (same_member p g) (birthdays (db w))) with
    | Some _ =>
        (Resolved (mkRun (count_if (same_member p g) (birthdays (db w)))),
         set_db w (set_birthdays (db w)
                     (map (update_birth_date p g d) (birthdays (db w)))))
    | None =>
        let birthdayId := randomUUID env (uuids_drawn w) in
        let w1 := mkWorld (db w) (S (uuids_drawn w)) (randoms_drawn w)
                          (send_attempts w) (outbox w) (console_errors w) in
        if existsb (fun b => String.eqb (b_id b) birthdayId) (birthdays (db w))
        then (Rejected (SqliteConstraint
                          "UNIQUE constraint failed: birthdays.id"), w1)
        else (Resolved (mkRun 1),
              set_db w1 (set_birthdays (db w)
                           (birthdays (db w) ++ [mkBirthday birthdayId p d g])))
    end.
Proof.
  unfold addOrUpdateBirthday. unfold bind at 1.
  rewrite getBirthdayByUserAndGroup_run.
  destruct (hd_error _) as [existing |]; [reflexivity |].
  cbn [bind crypto_randomUUID get_db db].
  match goal with
  | |- context [existsb ?f ?l] => destruct (existsb f l)
  end; reflexivity.
Qed.

Lemma hd_error_filter_none {A} (P : A -> bool) l :
  hd_error (filter P l) = None -> filter P l = [].
Proof. destruct (filter P l); [reflexivity | discriminate]. Qed.

Lemma same_member_new id p d g : same_member p g (mkBirthday id p d g) = true.
Proof.
  unfold same_member. cbn [b_phone_number b_group_id].
  now rewrite !String.eqb_refl.
Qed.

Lemma hasBirthdayInGroup_run p g w :
  hasBirthdayInGroup p g w
  = (Resolved (match hd_error (filter (same_member p g) (birthdays (db w)))
               with Some _ => true | None => false end), w).
Proof.
  unfold hasBirthdayInGroup. unfold bind.
  rewrite getBirthdayByUserAndGroup_run. reflexivity.
Qed.

(** X4.  Insert or update, then look up: after a resolved
    [addOrUpdateBirthday], [getBirthdayByUserAndGroup] of the same
    member and group finds a row of that member and group whose date is
    the one just given, and [hasBirthdayInGroup] is true. *)
Theorem addOrUpdateBirthday_then_lookup (env : Env) (p : string) (d : Date)
  (g : string) (w : World) (r : RunResult) (w' : World) :
  addOrUpdateBirthday env p d g w = (Resolved r, w') ->
  exists row,
    getBirthdayByUserAndGroup p g w' = (Resolved (Some row), w')
    /\ b_phone_number row = p
    /\ b_group_id row = g
    /\ birth_date row = d
    /\ hasBirthdayInGroup p g w' = (Resolved true, w').
Proof.
  rewrite addOrUpdateBirthday_run, hasBirthdayInGroup_run,
    getBirthdayByUserAndGroup_run.
  destruct (hd_error (filter (same_member p g) (birthdays (db w))))
    as [existing |] eqn:Hex.
  - intros [= _ <-]. cbn [db set_db set_birthdays birthdays].
    rewrite filter_map_commute
      by (intros x; apply update_birth_date_same_member).
    destruct (filter (same_member p g) (birthdays (db w))) as [| b0 rest] eqn:Hf;
      [discriminate |].
    assert (Hb0 : same_member p g b0 = true).
    { assert (Hin : In b0 (filter (same_member p g) (birthdays (db w))))
        by (rewrite Hf; now left).
      apply filter_In in Hin. tauto. }
    cbn [map hd_error]. rewrite (update_birth_date_hit p g d b0 Hb0).
    eexists. repeat split.
  - cbv zeta. destruct (existsb _ _); [discriminate |].
    intros [= _ <-]. cbn [db set_db set_birthdays birthdays].
    rewrite filter_app, (hd_error_filter_none _ _ Hex). cbn [filter app].
    rewrite !same_member_new. cbn [hd_error].
    eexists. repeat split.
Qed.

Lemma addOrUpdateBirthday_then_lookup_witness :
  exists row,
    getBirthdayByUserAndGroup "1234567890" "sample_group_123"
      (snd (addOrUpdateBirthday (env_at march_15_0000 always) "1234567890"
              (mkDate 2025 4 2) "sample_group_123" (world_of init_sql)))
    = (Resolved (Some row),
       snd (addOrUpdateBirthday (env_at march_15_0000 always) "1234567890"
              (mkDate 2025 4 2) "sample_group_123" (world_of init_sql)))
    /\ b_id row = "bd_001"%string
    /\ birth_date row = mkDate 2025 4 2.
Proof.
  destruct (addOrUpdateBirthday_then_lookup (env_at march_15_0000 always)
              "1234567890" (mkDate 2025 4 2) "sample_group_123"
              (world_of init_sql) (mkRun 1) _ eq_refl)
    as (row & Hget & _ & _ & Hd & _).
  exists row. split; [exact Hget |]. split; [| exact Hd].
  injection Hget as <-. reflexivity.
Defined.

(** X5.  [addOrUpdateBirthday] updates in place: a store with at most
    one birthday per member and group stays so, the rows of the other
    members and groups are neither changed nor removed, the primary key
    of the table is kept, the table grows by one row exactly when the
    member had no birthday in the group, and a rejected insert leaves
    the store as it was. *)
Theorem addOrUpdateBirthday_one_per_member (env : Env) (p : string) (d : Date)
  (g : string) (w : World) (out : Outcome RunResult) (w' : World) :
  addOrUpdateBirthday env p d g w = (out, w') ->
  (forall p' g', (count_if (same_member p' g') (birthdays (db w)) <= 1)%nat) ->
  (forall p' g', (count_if (same_member p' g') (birthdays (db w')) <= 1)%nat)
  /\ (forall b, same_member p g b = false ->
                (In b (birthdays (db w')) <-> In b (birthdays (db w))))
  /\ (NoDup (map b_id (birthdays (db w))) ->
      NoDup (map b_id (birthdays (db w'))))
  /\ (forall r, out = Resolved r ->
        List.length (birthdays (db w'))
        = (List.length (birthdays (db w))
           + (1 - count_if (same_member p g) (birthdays (db w))))%nat)
  /\ (forall e, out = Rejected e -> db w' = db w)
  /\ users (db w') = users (db w)
  /\ groups (db w') = groups (db w)
  /\ reminders (db w') = reminders (db w).
Proof.
  rewrite addOrUpdateBirthday_run. intros Hrun Hone.
  destruct (hd_error (filter (same_member p g) (birthdays (db w))))
    as [existing |] eqn:Hex.
  - injection Hrun as <- <-. cbn [db set_db set_birthdays birthdays users
                                   groups reminders].
    split; [| split; [| split; [| split; [| split]]]].
    + intros p' g'. rewrite count_if_map
        by (intros x; apply update_birth_date_same_member). apply Hone.
    + intros b Hb. split.
      * intros Hin. apply in_map_iff in Hin. destruct Hin as (b0 & <- & Hin).
        rewrite update_birth_date_same_member in Hb.
        now rewrite (update_birth_date_miss _ _ _ _ Hb).
      * intros Hin. rewrite <- (update_birth_date_miss p g d b Hb).
        now apply in_map.
    + rewrite map_map.
      replace (map (fun x => b_id (update_birth_date p g d x)) (birthdays (db w)))
        with (map b_id (birthdays (db w))); [auto |].
      apply map_ext. intros b. unfold update_birth_date.
      destruct (_ && _); reflexivity.
    + intros r _. rewrite length_map.
      assert (1 <= count_if (same_member p g) (birthdays (db w)))%nat.
      { unfold count_if.
        destruct (filter (same_member p g) (birthdays (db w)));
          [discriminate | simpl; lia]. }
      specialize (Hone p g). lia.
    + discriminate.
    + auto.
  - cbv zeta in Hrun. apply hd_error_filter_none in Hex.
    destruct (existsb _ _) eqn:Hdup; injection Hrun as <- <-;
      cbn [db set_db set_birthdays birthdays users groups reminders].
    + split; [exact Hone |]. split; [tauto |]. split; [auto |].
      split; [discriminate |]. auto.
    + split; [| split; [| split; [| split; [| split]]]].
      * intros p' g'. rewrite count_if_app.
        destruct (same_member p' g' (mkBirthday (randomUUID env (uuids_drawn w))
                                                p d g)) eqn:E.
        -- unfold same_member in E. cbn [b_phone_number b_group_id] in E.
           apply andb_true_iff in E. destruct E as [E1 E2].
           apply String.eqb_eq in E1, E2. subst p' g'.
           unfold count_if at 1. rewrite Hex.
           unfold count_if. cbn [filter].
           destruct (same_member p g _); simpl; lia.
        -- unfold count_if at 2. cbn [filter]. rewrite E. simpl.
           specialize (Hone p' g'). lia.
      * intros b Hb. rewrite in_app_iff. split; [| tauto].
        intros [Hin | [<- | []]]; [exact Hin |].
        unfold same_member in Hb. cbn [b_phone_number b_group_id] in Hb.
        rewrite !String.eqb_refl in Hb. discriminate.
      * intros Hnd. rewrite map_app. apply NoDup_app; [exact Hnd | |].
        -- repeat constructor. intros [].
        -- intros k Hk [<- | []]. simpl in Hk.
           apply in_map_iff in Hk. destruct Hk as (b0 & Hid & Hin).
           assert (existsb (fun b => String.eqb (b_id b)
                                       (randomUUID env (uuids_drawn w)))
                     (birthdays (db w)) = true).
           { apply existsb_exists. exists b0. split; [exact Hin |].
             now apply String.eqb_eq. }
           congruence.
      * intros r _. rewrite length_app. unfold count_if. rewrite Hex.
        reflexivity.
      * discriminate.
      * auto.
Qed.

Lemma addOrUpdateBirthday_one_per_member_witness :
  let w' := snd (addOrUpdateBirthday (env_at march_15_0000 always)
                   "1234567890" (mkDate 2025 4 2) "sample_group_123"
                   (world_of init_sql)) in
  List.length (birthdays (db w')) = 2%nat
  /\ In (mkBirthday "bd_002" "0987654321" (mkDate 1985 7 22) "sample_group_123")
        (birthdays (db w')).
Proof.
  intros w'.
  assert (Hone : forall p' g',
             (count_if (same_member p' g')
                (birthdays (db (world_of init_sql))) <= 1)%nat).
  { intros p' g'. unfold count_if, same_member.
    cbn [world_of db init_sql birthdays filter b_phone_number b_group_id].
    destruct (String.eqb_spec "1234567890" p');
      destruct (String.eqb_spec "0987654321" p'); subst; try discriminate;
      destruct (String.eqb "sample_group_123" g'); cbn [andb List.length]; lia. }
  destruct (addOrUpdateBirthday_one_per_member (env_at march_15_0000 always)
              "1234567890" (mkDate 2025 4 2) "sample_group_123"
              (world_of init_sql) (Resolved (mkRun 1)) w' eq_refl Hone)
    as (_ & Hothers & _ & Hlen & _).
  split.
  - rewrite (Hlen (mkRun 1) eq_refl). reflexivity.
  - apply Hothers; [reflexivity |]. simpl. tauto.
Defined.

(** X6.  When [removeBirthday] resolves, it has deleted exactly the
    rows of the member in the group and reports their number; no row of
    the member in the group is left, so a [hasBirthdayInGroup] that
    resolves is false; every other birthday is still there, and the
    reminders table is untouched: the reminders of the deleted birthday
    stay behind. *)
Theorem removeBirthday_removes_only_the_member (p g : string) (w : World)
  (result : RunResult) (w' : World) :
  removeBirthday p g w = (Resolved result, w') ->
  changes result = count_if (same_member p g) (birthdays (db w))
  /\ filter (same_member p g) (birthdays (db w')) = []
  /\ (forall found w2,
        hasBirthdayInGroup p g w' = (Resolved found, w2) -> found = false)
  /\ (forall b, In b (birthdays (db w'))
                <-> In b (birthdays (db w)) /\ same_member p g b = false)
  /\ (List.length (birthdays (db w')) + changes result)%nat
     = List.length (birthdays (db w))
  /\ reminders (db w') = reminders (db w)
  /\ users (db w') = users (db w)
  /\ groups (db w') = groups (db w).
Proof.
  intros Hrun.
  assert (Hw : result = mkRun (count_if (same_member p g) (birthdays (db w)))
               /\ w' = set_db w (set_birthdays (db w)
                                   (filter (fun b => negb (same_member p g b))
                                           (birthdays (db w))))).
  { unfold removeBirthday, bind, get_db, put_db, ret in Hrun.
    injection Hrun as <- <-. split; reflexivity. }
  destruct Hw as [-> ->].
  cbn [changes db set_db set_birthdays birthdays users groups reminders].
  assert (Hgone : filter (same_member p g)
                    (filter (fun b => negb (same_member p g b))
                            (birthdays (db w))) = []).
  { apply filter_none. intros b Hb. apply filter_In in Hb.
    destruct Hb as [_ Hb]. now apply negb_true_iff in Hb. }
  split; [reflexivity |]. split; [exact Hgone |].
  split; [| split; [| split]].
  - intros found w2. rewrite hasBirthdayInGroup_run.
    cbn [db set_db set_birthdays birthdays]. rewrite Hgone.
    now intros [= <- _].
  - intros b. rewrite filter_In, negb_true_iff. tauto.
  - clear Hrun Hgone. unfold count_if.
    induction (birthdays (db w)) as [| b l IH]; simpl; [reflexivity |].
    destruct (same_member p g b); simpl; lia.
  - auto.
Qed.

Lemma removeBirthday_removes_only_the_member_witness :
  let w' := snd (removeBirthday "1234567890" "sample_group_123"
                   (world_of init_sql)) in
  filter (same_member "1234567890" "sample_group_123") (birthdays (db w')) = []
  /\ List.length (birthdays (db w')) = 1%nat
  /\ reminders (db w') = reminders init_sql.
Proof.
  intros w'.
  destruct (removeBirthday_removes_only_the_member "1234567890"
              "sample_group_123" (world_of init_sql) (mkRun 1) w' eq_refl)
    as (_ & Hgone & _ & _ & _ & Hrem & _).
  split; [exact Hgone |]. split; [reflexivity | exact Hrem].
Defined.

Lemma left_join_Some_iff {A B} (l : list A) (tbl : list B) on a b :
  In (a, Some b) (left_join l tbl on) <-> In a l /\ In b tbl /\ on a b = true.
Proof.
  split; [apply left_join_Some |].
  intros (Ha & Hb & Hon). unfold left_join. apply in_flat_map.
  exists a. split; [exact Ha |].
  assert (Hin : In b (filter (on a) tbl)) by (apply filter_In; auto).
  destruct (filter (on a) tbl) as [| b0 rest]; [destruct Hin |].
  apply (in_map (fun b => (a, Some b))). exact Hin.
Qed.

Lemma left_join_fst_In {A B} (l : list A) (tbl : list B) on a :
  In a l -> exists x, In (a, x) (left_join l tbl on).
Proof.
  intros Ha. destruct (left_join_rows a tbl on) as [(x & rest & Hrows) _].
  cbv zeta in Hrows. exists x. unfold left_join. apply in_flat_map.
  exists a. split; [exact Ha |]. rewrite Hrows. now left.
Qed.

Lemma left_join_None_iff {A B} (l : list A) (tbl : list B) on a :
  In (a, None) (left_join l tbl on)
  <-> In a l /\ forall b, In b tbl -> on a b = false.
Proof.
  unfold left_join. rewrite in_flat_map. split.
  - intros (a' & Ha & Hin).
    destruct (filter (on a') tbl) as [| b0 rest] eqn:Hf.
    + destruct Hin as [[= <-] | []]. split; [exact Ha |].
      intros b Hb. destruct (on a' b) eqn:E; [| reflexivity].
      assert (In b (filter (on a') tbl)) by (apply filter_In; auto).
      rewrite Hf in H. destruct H.
    + apply in_map_iff in Hin. destruct Hin as (b & [=] & _).
  - intros (Ha & Hnone). exists a. split; [exact Ha |].
    rewrite filter_none by exact Hnone. now left.
Qed.

Lemma Sorted_weaken {A} (R R' : A -> A -> Prop) l :
  (forall x y, R x y -> R' x y) -> Sorted R l -> Sorted R' l.
Proof.
  intros H. induction 1 as [| x l Hs IH Hhd]; constructor; [exact IH |].
  destruct Hhd; constructor. now apply H.
Qed.

Lemma month_day_leb_iff a b :
  month_day_leb a b = true
  <-> fst a < fst b \/ (fst a = fst b /\ snd a <= snd b).
Proof.
  unfold month_day_leb, month_day_ltb.
  rewrite negb_true_iff, orb_false_iff, andb_false_iff, !Z.ltb_ge, Z.eqb_neq.
  lia.
Qed.

(** X7.  [getBirthdaysByGroup] returns the birthdays of the group and
    no other, each with the name of its user when there is one, in the
    order of the calendar: by month, then by day of the month, whatever
    the stored year. *)
Theorem getBirthdaysByGroup_calendar_order (groupId : string) (w : World) :
  exists rows,
    getBirthdaysByGroup groupId w = (Resolved rows, w)
    /\ StronglySorted
         (fun x y =>
            month (birth_date (fst x)) < month (birth_date (fst y))
            \/ (month (birth_date (fst x)) = month (birth_date (fst y))
                /\ day (birth_date (fst x)) <= day (birth_date (fst y))))
         rows
    /\ (forall row, In row rows ->
          In (fst row) (birthdays (db w))
          /\ b_group_id (fst row) = groupId
          /\ match snd row with
             | Some n => exists u, In u (users (db w))
                                   /\ u_phone_number u = b_phone_number (fst row)
                                   /\ u_name u = n
             | None => forall u, In u (users (db w)) ->
                                 u_phone_number u <> b_phone_number (fst row)
             end)
    /\ (forall b, In b (birthdays (db w)) -> b_group_id b = groupId ->
                  exists n, In (b, n) rows).
Proof.
  eexists. split; [reflexivity |]. split; [| split].
  - apply Sorted_StronglySorted.
    + intros x y z Hxy Hyz. lia.
    + eapply Sorted_weaken; [| apply order_by_Sorted].
      * intros x y H. apply month_day_leb_iff in H. exact H.
      * intros x y.
        destruct (month_day_leb (month_day (birth_date (fst x)))
                                (month_day (birth_date (fst y)))) eqn:E;
          [now left | right].
        apply month_day_leb_iff. unfold month_day_leb in E.
        apply negb_false_iff in E. unfold month_day_ltb in E.
        rewrite orb_true_iff, andb_true_iff, !Z.ltb_lt, Z.eqb_eq in E.
        simpl in *. lia.
  - intros row Hin. apply order_by_In in Hin. apply in_map_iff in Hin.
    destruct Hin as ([b u] & <- & Hin). apply filter_In in Hin.
    destruct Hin as [Hjoin Hg]. cbn [fst snd] in *.
    apply String.eqb_eq in Hg.
    split; [eapply left_join_fst; exact Hjoin |]. split; [exact Hg |].
    destruct u as [u |]; cbn [option_map].
    + apply left_join_Some in Hjoin. destruct Hjoin as (_ & Hu & Hon).
      apply String.eqb_eq in Hon. exists u. auto.
    + apply left_join_None_iff in Hjoin. destruct Hjoin as [_ Hnone].
      intros u Hu Heq. specialize (Hnone u Hu).
      apply String.eqb_neq in Hnone. congruence.
  - intros b Hb Hg.
    destruct (left_join_fst_In (birthdays (db w)) (users (db w))
                (fun b u => String.eqb (b_phone_number b) (u_phone_number u))
                b Hb) as [u Hu].
    exists (option_map u_name u). apply order_by_In.
    apply in_map_iff. exists (b, u). split; [reflexivity |].
    apply filter_In. split; [exact Hu |]. now apply String.eqb_eq.
Qed.

(** X8.  [getTodaysBirthdays] returns the birthdays whose month and day
    are today's and whose group is active, restricted to the given group
    when one is given, and misses none of them; an empty group
    identifier is no restriction. *)
Theorem getTodaysBirthdays_today_and_active (env : Env)
  (groupId : option string) (w : World) :
  let today := local_date (now env) in
  let wanted b :=
    forall g, groupId = Some g -> g <> ""%string -> b_group_id b = g in
  exists rows,
    getTodaysBirthdays env groupId w = (Resolved rows, w)
    /\ (forall b n gn, In (b, n, gn) rows ->
          In b (birthdays (db w))
          /\ month_day (birth_date b) = month_day today
          /\ active_group (db w) (b_group_id b)
          /\ wanted b)
    /\ (forall b, In b (birthdays (db w)) ->
          month_day (birth_date b) = month_day today ->
          active_group (db w) (b_group_id b) ->
          wanted b ->
          exists n gn, In (b, n, gn) rows)
    /\ getTodaysBirthdays env (Some ""%string) w
       = getTodaysBirthdays env None w.
Proof.
  intros today wanted. eexists. split; [reflexivity |].
  assert (Hfilter : forall b,
            (if truthy groupId
             then match groupId with
                  | Some g => String.eqb (b_group_id b) g
                  | None => true
                  end
             else true) = true <-> wanted b).
  { intros b. subst wanted. cbv beta. destruct groupId as [g |]; simpl.
    - destruct (String.eqb_spec g ""); simpl.
      + split; [| reflexivity]. intros _ g' [= <-] Hne. contradiction.
      + rewrite String.eqb_eq. split.
        * intros H g' [= <-] _. exact H.
        * intros H. now apply H.
    - split; [| reflexivity]. intros _ g' [=]. }
  split; [| split; [| reflexivity]].
  - intros b n gn Hin. apply in_map_iff in Hin.
    destruct Hin as ([[b0 u] g] & [= <- <- <-] & Hin).
    apply filter_In in Hin. destruct Hin as [Hjoin Hw]. cbn [fst snd] in Hw.
    rewrite !andb_true_iff, month_day_eqb_eq in Hw.
    destruct Hw as [[Hmd Hgid] Hact].
    destruct g as [g |]; [| discriminate].
    apply left_join_Some in Hjoin. destruct Hjoin as (Hbu & Hg & Hon).
    cbn [fst] in Hon. apply String.eqb_eq in Hon.
    split; [eapply left_join_fst; exact Hbu |]. split; [exact Hmd |].
    split; [exists g; auto |]. now apply Hfilter.
  - intros b Hb Hmd (g & Hg & Hgid & Hact) Hwanted.
    destruct (left_join_fst_In (birthdays (db w)) (users (db w))
                (fun b u => String.eqb (b_phone_number b) (u_phone_number u))
                b Hb) as [u Hu].
    exists (option_map u_name u), (Some (group_name g)).
    apply in_map_iff. exists (b, u, Some g). split; [reflexivity |].
    apply filter_In. split.
    + apply left_join_Some_iff. split; [exact Hu |]. split; [exact Hg |].
      cbn [fst]. now apply String.eqb_eq.
    + cbn [fst snd]. rewrite !andb_true_iff, month_day_eqb_eq.
      split; [split; [exact Hmd | now apply Hfilter] | exact Hact].
Qed.

(* ================================================================= *)
(** * How the listing of pending reminders follows the store          *)
(* ================================================================= *)

(** ** Filters and maps through the joins and the ordering *)

Lemma filter_filter_implied {A} (f g : A -> bool) l :
  (forall x, f x = true -> g x = true) -> filter f (filter g l) = filter f l.
Proof.
  intros H. induction l as [| x l IH]; simpl; [reflexivity |].
  destruct (g x) eqn:Eg; simpl.
  - now rewrite IH.
  - destruct (f x) eqn:Ef; [| exact IH].
    rewrite (H x Ef) in Eg. discriminate.
Qed.

Lemma filter_comm {A} (f g : A -> bool) l :
  filter f (filter g l) = filter g (filter f l).
Proof.
  induction l as [| x l IH]; simpl; [reflexivity |].
  destruct (g x) eqn:Eg, (f x) eqn:Ef; simpl; rewrite ?Eg, ?Ef, IH;
    reflexivity.
Qed.

Lemma filter_andb {A} (f g : A -> bool) l :
  filter (fun x => f x && g x) l = filter f (filter g l).
Proof.
  induction l as [| x l IH]; simpl; [reflexivity |].
  destruct (f x) eqn:Ef, (g x) eqn:Eg; simpl; rewrite ?Ef, IH; reflexivity.
Qed.

Lemma map_id_on {A} (f : A -> A) l :
  (forall x, In x l -> f x = x) -> map f l = l.
Proof.
  induction l as [| x l IH]; simpl; intros H; [reflexivity |].
  rewrite (H x (or_introl eq_refl)). f_equal. apply IH.
  intros y Hy. apply H. now right.
Qed.

Lemma filter_map_swap {A B} (P : B -> bool) (f : A -> B) l :
  filter P (map f l) = map f (filter (fun x => P (f x)) l).
Proof.
  induction l as [| x l IH]; simpl; [reflexivity |].
  destruct (P (f x)); simpl; now rewrite IH.
Qed.

Lemma inner_join_cons {A B} (a : A) (l : list A) (tbl : list B) on :
  inner_join (a :: l) tbl on
  = map (fun b => (a, b)) (filter (on a) tbl) ++ inner_join l tbl on.
Proof. reflexivity. Qed.

Lemma inner_join_filter_l {A B} (p : A -> bool) (l : list A) (tbl : list B) on :
  inner_join (filter p l) tbl on
  = filter (fun ab => p (fst ab)) (inner_join l tbl on).
Proof.
  induction l as [| a l IH]; [reflexivity |].
  rewrite inner_join_cons, filter_app, <- IH. cbn [filter].
  destruct (p a) eqn:E.
  - rewrite inner_join_cons. f_equal. symmetry. apply filter_all.
    intros x Hx. apply in_map_iff in Hx. destruct Hx as (b & <- & _). exact E.
  - rewrite (filter_none (fun ab : A * B => p (fst ab))); [reflexivity |].
    intros x Hx.
    apply in_map_iff in Hx. destruct Hx as (b & <- & _). exact E.
Qed.

Lemma inner_join_filter_r {A B} (p : B -> bool) (l : list A) (tbl : list B) on :
  inner_join l (filter p tbl) on
  = filter (fun ab => p (snd ab)) (inner_join l tbl on).
Proof.
  induction l as [| a l IH]; [reflexivity |].
  rewrite !inner_join_cons, filter_app, <- IH. f_equal.
  rewrite filter_map_swap. cbn [snd]. now rewrite filter_comm.
Qed.

Lemma inner_join_map_l {A B} (f : A -> A) (l : list A) (tbl : list B) on :
  (forall a b, on (f a) b = on a b) ->
  inner_join (map f l) tbl on
  = map (fun ab => (f (fst ab), snd ab)) (inner_join l tbl on).
Proof.
  intros H. induction l as [| a l IH]; [reflexivity |].
  cbn [map]. rewrite !inner_join_cons, map_app, <- IH. f_equal.
  rewrite map_map. cbn [fst snd].
  f_equal. apply filter_ext. intros b. apply H.
Qed.

Lemma left_join_app {A B} (l1 l2 : list A) (tbl : list B) on :
  left_join (l1 ++ l2) tbl on = left_join l1 tbl on ++ left_join l2 tbl on.
Proof. unfold left_join. apply flat_map_app. Qed.

Lemma left_join_filter_l {A B} (p : A -> bool) (l : list A) (tbl : list B) on :
  left_join (filter p l) tbl on
  = filter (fun ax => p (fst ax)) (left_join l tbl on).
Proof.
  induction l as [| a l IH]; [reflexivity |].
  rewrite left_join_cons, filter_app, <- IH.
  destruct (left_join_rows a tbl on) as [_ Hfst]. cbv zeta in Hfst.
  cbn [filter]. destruct (p a) eqn:E.
  - rewrite left_join_cons. f_equal. symmetry. apply filter_all.
    intros x Hx. now rewrite (Hfst x Hx).
  - rewrite (filter_none (fun ax : A * option B => p (fst ax)));
      [reflexivity |].
    intros x Hx. now rewrite (Hfst x Hx).
Qed.

Lemma left_join_map_l {A B} (f : A -> A) (l : list A) (tbl : list B) on :
  (forall a b, on (f a) b = on a b) ->
  left_join (map f l) tbl on
  = map (fun ax => (f (fst ax), snd ax)) (left_join l tbl on).
Proof.
  intros H. induction l as [| a l IH]; [reflexivity |].
  cbn [map]. rewrite !left_join_cons, map_app, <- IH. f_equal.
  rewrite (filter_ext (on (f a)) (on a)) by (intros b; apply H).
  destruct (filter (on a) tbl); [reflexivity |].
  rewrite map_map. reflexivity.
Qed.

Lemma left_join_map_r {A B} (f : B -> B) (l : list A) (tbl : list B) on :
  (forall a b, on a (f b) = on a b) ->
  left_join l (map f tbl) on
  = map (fun ax => (fst ax, option_map f (snd ax))) (left_join l tbl on).
Proof.
  intros H. induction l as [| a l IH]; [reflexivity |].
  rewrite !left_join_cons, map_app, <- IH. f_equal.
  rewrite filter_map_swap.
  rewrite (filter_ext (fun x => on a (f x)) (on a)) by (intros b; apply H).
  destruct (filter (on a) tbl); [reflexivity |].
  cbn [map]. rewrite !map_map. reflexivity.
Qed.

Section FilterSorted.

Context {A : Type} (leb : A -> A -> bool).
Hypothesis leb_total : forall x y, leb x y = true \/ leb y x = true.
Hypothesis leb_trans :
  forall x y z, leb x y = true -> leb y z = true -> leb x z = true.

Lemma insert_by_below x l :
  Forall (fun y => leb x y = true) l -> insert_by leb x l = x :: l.
Proof.
  intros H. destruct l as [| y l]; [reflexivity |].
  simpl. inversion H as [| ? ? Hy _]; subst. now rewrite Hy.
Qed.

Lemma filter_insert_by (p : A -> bool) x s :
  StronglySorted (le_of leb) s ->
  filter p (insert_by leb x s)
  = if p x then insert_by leb x (filter p s) else filter p s.
Proof.
  induction 1 as [| y s Hs IH Hall]; simpl.
  - destruct (p x); reflexivity.
  - destruct (leb x y) eqn:Exy.
    + cbn [filter]. destruct (p x) eqn:Epx; [| reflexivity].
      symmetry. apply insert_by_below.
      assert (Hge : Forall (fun z => leb x z = true) (y :: s)).
      { constructor; [exact Exy |].
        eapply Forall_impl; [| exact Hall].
        intros z Hz. exact (leb_trans x y z Exy Hz). }
      apply Forall_forall. intros z Hz.
      change (In z (filter p (y :: s))) in Hz.
      apply filter_In in Hz. destruct Hz as [Hz _].
      rewrite Forall_forall in Hge. now apply Hge.
    + cbn [filter]. rewrite IH. destruct (p y) eqn:Epy, (p x) eqn:Epx;
        try reflexivity.
      simpl. now rewrite Exy.
Qed.

(** Filtering a sorted listing and sorting the filtered rows agree. *)
Lemma filter_order_by (p : A -> bool) l :
  filter p (order_by leb l) = order_by leb (filter p l).
Proof.
  induction l as [| x l IH]; [reflexivity |].
  cbn [order_by fold_right]. fold (order_by leb l).
  rewrite filter_insert_by.
  - cbn [filter]. destruct (p x); rewrite IH; reflexivity.
  - apply Sorted_StronglySorted.
    + intros a b c. apply leb_trans.
    + apply order_by_Sorted. exact leb_total.
Qed.

End FilterSorted.

(** ** The joined rows when one table changes *)

Lemma pending_from_filter_reminders (keep : ReminderRow -> bool) d :
  pending_from (set_reminders d (filter keep (reminders d)))
  = filter (fun row => keep (fst (fst (fst row)))) (pending_from d).
Proof.
  unfold pending_from. cbn [set_reminders reminders birthdays users groups].
  rewrite inner_join_filter_l, !left_join_filter_l. reflexivity.
Qed.

Lemma pending_from_map_reminders (f : ReminderRow -> ReminderRow) d :
  (forall r, birthday_id (f r) = birthday_id r) ->
  pending_from (set_reminders d (map f (reminders d)))
  = map (fun row => (f (fst (fst (fst row))), snd (fst (fst row)),
                     snd (fst row), snd row))
        (pending_from d).
Proof.
  intros H. unfold pending_from.
  cbn [set_reminders reminders birthdays users groups].
  rewrite inner_join_map_l by (intros r b; now rewrite H).
  rewrite (left_join_map_l
             (fun rb : ReminderRow * BirthdayRow => (f (fst rb), snd rb)))
    by reflexivity.
  rewrite (left_join_map_l
             (fun rbu : ReminderRow * BirthdayRow * option UserRow =>
                (f (fst (fst rbu)), snd (fst rbu), snd rbu)))
    by reflexivity.
  reflexivity.
Qed.

Lemma pending_from_filter_birthdays (keep : BirthdayRow -> bool) d :
  pending_from (set_birthdays d (filter keep (birthdays d)))
  = filter (fun row => keep (snd (fst (fst row)))) (pending_from d).
Proof.
  unfold pending_from. cbn [set_birthdays reminders birthdays users groups].
  rewrite inner_join_filter_r, !left_join_filter_l. reflexivity.
Qed.

Lemma pending_from_map_groups (f : GroupRow -> GroupRow) d :
  (forall g, g_group_id (f g) = g_group_id g) ->
  pending_from (set_groups d (map f (groups d)))
  = map (fun row => (fst row, option_map f (snd row))) (pending_from d).
Proof.
  intros H. unfold pending_from.
  cbn [set_groups reminders birthdays users groups].
  apply left_join_map_r. intros rbu g. now rewrite H.
Qed.

Lemma pending_leb_total p q : pending_leb p q = true \/ pending_leb q p = true.
Proof. apply order_key_leb_total. Qed.

Lemma pending_leb_trans p q r :
  pending_leb p q = true -> pending_leb q r = true -> pending_leb p r = true.
Proof. apply order_key_leb_trans. Qed.

(** Dropping rows before the [WHERE] clause by a condition that the
    selected columns decide drops them from the listing. *)
Lemma select_pending_filter reminderDate
  (keep : ReminderRow * BirthdayRow * option UserRow * option GroupRow -> bool)
  (keep' : PendingReminder -> bool) rows :
  (forall row, In row rows -> keep' (pending_select row) = keep row) ->
  order_by pending_leb
    (map pending_select
       (filter (pending_where reminderDate) (filter keep rows)))
  = filter keep'
      (order_by pending_leb
         (map pending_select (filter (pending_where reminderDate) rows))).
Proof.
  intros H.
  rewrite (filter_order_by pending_leb pending_leb_total pending_leb_trans).
  f_equal. rewrite filter_map_swap. f_equal. rewrite filter_comm.
  apply filter_ext_in. intros row Hrow. symmetry. apply H.
  apply filter_In in Hrow. tauto.
Qed.

(** ** Retention *)

Lemma deleteOldReminders_run env daysOld w :
  let cutoffDate := subtract_days daysOld (local_date (now env)) in
  let old r := date_ltb (reminder_date r) cutoffDate && sent r in
  deleteOldReminders env daysOld w
  = (Resolved (mkRun (count_if old (reminders (db w)))),
     set_db w (set_reminders (db w)
                 (filter (fun r => negb (old r)) (reminders (db w))))).
Proof. reflexivity. Qed.

Lemma set_db_same w l :
  reminders (db w) = l -> set_db w (set_reminders (db w) l) = w.
Proof. intros <-. destruct w as [[? ? ? ?] ? ? ? ? ?]. reflexivity. Qed.

(** X9.  When [deleteOldReminders] resolves, it has deleted exactly the
    records that are sent and dated before the cutoff, today minus
    [daysOld] calendar days, and reports their number: an unsent record
    is never deleted, however old, and the other tables are untouched.
    A second run at the same time that resolves deletes nothing. *)
Theorem deleteOldReminders_only_sent_and_old (env : Env) (daysOld : nat)
  (w : World) (result : RunResult) (w' : World) :
  deleteOldReminders env daysOld w = (Resolved result, w') ->
  let cutoffDate := subtract_days daysOld (local_date (now env)) in
  (forall r, In r (reminders (db w'))
             <-> In r (reminders (db w))
                 /\ (sent r = false
                     \/ date_ltb (reminder_date r) cutoffDate = false))
  /\ (List.length (reminders (db w')) + changes result)%nat
     = List.length (reminders (db w))
  /\ users (db w') = users (db w)
  /\ groups (db w') = groups (db w)
  /\ birthdays (db w') = birthdays (db w)
  /\ (forall result2 w2,
        deleteOldReminders env daysOld w' = (Resolved result2, w2) ->
        changes result2 = 0%nat /\ db w2 = db w').
Proof.
  intros Hrun cutoffDate. rewrite deleteOldReminders_run in Hrun.
  cbv zeta in Hrun. injection Hrun as <- <-.
  cbn [changes db set_db set_reminders reminders users groups birthdays].
  fold cutoffDate.
  split; [| split; [| split; [| split; [| split]]]]; try reflexivity.
  - intros r. rewrite filter_In, negb_true_iff, andb_false_iff.
    split; intros [Hin H]; (split; [exact Hin | tauto]).
  - unfold count_if.
    induction (reminders (db w)) as [| r l IH]; simpl; [reflexivity |].
    destruct (date_ltb (reminder_date r) cutoffDate && sent r); simpl; lia.
  - intros result2 w2. rewrite deleteOldReminders_run. cbv zeta.
    fold cutoffDate. intros [= <- <-].
    cbn [changes db set_db set_reminders reminders]. split.
    + unfold count_if. rewrite filter_none; [reflexivity |].
      intros r Hr. apply filter_In in Hr. destruct Hr as [_ Hr].
      now apply negb_true_iff in Hr.
    + rewrite filter_filter_implied by auto. reflexivity.
Qed.

Lemma deleteOldReminders_only_sent_and_old_witness :
  let env := env_at (mkMoment (mkDate 2025 4 1) 0) always in
  reminders (db (snd (deleteOldReminders env 7 (world_of sent_march_15)))) = []
  /\ reminders (db (snd (deleteOldReminders env 7
                           (world_of pending_march_15))))
     = reminders pending_march_15.
Proof.
  intros env. split.
  - destruct (deleteOldReminders_only_sent_and_old env 7
                (world_of sent_march_15) (mkRun 1)
                (snd (deleteOldReminders env 7 (world_of sent_march_15)))
                eq_refl) as (_ & Hlen & _).
    cbn [changes] in Hlen.
    destruct (reminders (db (snd (deleteOldReminders env 7
                                    (world_of sent_march_15)))));
      [reflexivity | simpl in Hlen; lia].
  - reflexivity.
Defined.

(** X10.  The nightly cleanup resolves, sends nothing and never changes
    what [getPendingReminders] returns, for any date: it reaches
    [deleteOldReminders] with seven days, and the store after it is the
    store after that call.  When that call resolves, nothing is
    logged. *)
Theorem cleanupOldReminders_keeps_pending (env : Env) (w : World) :
  exists w',
    cleanupOldReminders env w = (Resolved tt, w')
    /\ db w' = db (snd (deleteOldReminders env 7 w))
    /\ outbox w' = outbox w
    /\ send_attempts w' = send_attempts w
    /\ (forall date,
          getPendingReminders env date w'
          = (fst (getPendingReminders env date w), w'))
    /\ (forall result,
          fst (deleteOldReminders env 7 w) = Resolved result ->
          console_errors w' = console_errors w).
Proof.
  exists (snd (deleteOldReminders env 7 w)).
  split; [reflexivity |]. rewrite deleteOldReminders_run.
  cbn [snd db set_db console_errors outbox send_attempts].
  split; [reflexivity |]. split; [reflexivity |]. split; [reflexivity |].
  split; [| reflexivity].
  intros date. unfold getPendingReminders, bind, get_db, ret.
  cbn [fst db set_db]. f_equal. f_equal. unfold select_pending.
  rewrite pending_from_filter_reminders. do 2 f_equal.
  apply filter_filter_implied.
  intros [[[r b] u] g] H. cbn [fst]. unfold pending_where in H.
  rewrite !andb_true_iff, negb_true_iff in H.
  destruct H as [[_ Hs] _]. rewrite Hs. now rewrite andb_false_r.
Qed.

(** ** Marking, removing, deactivating *)

Lemma mark_sent_birthday_id id ts r :
  birthday_id (mark_sent id ts r) = birthday_id r.
Proof. unfold mark_sent. destruct (String.eqb _ _); reflexivity. Qed.

(** X11.  Marking, then listing: after [markReminderSent] of an
    identifier, [getPendingReminders] returns, for every date, the rows
    it returned before without the rows of that reminder, in the same
    order. *)
Theorem markReminderSent_then_pending (env : Env) (reminderId : string)
  (date : option Date) (w : World) :
  let w' := snd (markReminderSent env reminderId w) in
  exists before,
    getPendingReminders env date w = (Resolved before, w)
    /\ getPendingReminders env date w'
       = (Resolved
            (filter (fun row =>
                       negb (String.eqb (r_id (p_reminder row)) reminderId))
                    before),
          w').
Proof.
  intros w'. eexists. split; [reflexivity |].
  subst w'. rewrite markReminderSent_run.
  unfold getPendingReminders, bind, get_db, ret. cbn [snd db set_db].
  f_equal. f_equal. unfold select_pending.
  rewrite pending_from_map_reminders by (intros r; apply mark_sent_birthday_id).
  set (reminderDate := match date with
                       | Some d => d
                       | None => local_date (now env)
                       end).
  set (ts := CURRENT_TIMESTAMP env).
  rewrite filter_map_swap.
  rewrite (filter_ext
             (fun row => pending_where reminderDate
                           (mark_sent reminderId ts (fst (fst (fst row))),
                            snd (fst (fst row)), snd (fst row), snd row))
             (fun row => negb (String.eqb (r_id (fst (fst (fst row))))
                                          reminderId)
                         && pending_where reminderDate row)).
  2:{ intros [[[r b] u] g]. cbn [fst snd]. unfold pending_where, mark_sent.
      destruct (String.eqb (r_id r) reminderId); cbn [sent reminder_date negb];
        [now rewrite andb_false_r | reflexivity]. }
  rewrite filter_andb, filter_comm, map_id_on.
  2:{ intros [[[r b] u] g] Hin. cbn [fst snd].
      apply filter_In in Hin. destruct Hin as [Hin _].
      apply filter_In in Hin. destruct Hin as [_ Hne]. cbn [fst] in Hne.
      unfold mark_sent.
      destruct (String.eqb (r_id r) reminderId); [discriminate | reflexivity]. }
  apply select_pending_filter. intros [[[r b] u] g] _. reflexivity.
Qed.

(** X12.  Removing, then listing: [removeBirthday] leaves the reminders
    of the birthday in the table, but [getPendingReminders] no longer
    returns them: for every date it returns the rows it returned before
    without the rows of that member in that group, in the same order. *)
Theorem removeBirthday_then_pending (env : Env) (p g : string)
  (date : option Date) (w : World) :
  let w' := snd (removeBirthday p g w) in
  exists before,
    getPendingReminders env date w = (Resolved before, w)
    /\ reminders (db w') = reminders (db w)
    /\ getPendingReminders env date w'
       = (Resolved
            (filter (fun row =>
                       negb (String.eqb (phone_number row) p
                             && String.eqb (group_id row) g))
                    before),
          w').
Proof.
  intros w'. eexists. split; [reflexivity |]. split; [reflexivity |].
  subst w'. unfold removeBirthday, getPendingReminders, bind, get_db, put_db,
    ret. cbn [snd db set_db].
  f_equal. f_equal. unfold select_pending.
  rewrite pending_from_filter_birthdays.
  apply select_pending_filter. intros [[[r b] u] g0] _. reflexivity.
Qed.

Lemma set_bot_active_id gid act g :
  g_group_id (set_bot_active gid act g) = g_group_id g.
Proof. unfold set_bot_active. destruct (String.eqb _ _); reflexivity. Qed.

Lemma pending_from_group_id d r b u g :
  In (r, b, u, Some g) (pending_from d) -> b_group_id b = g_group_id g.
Proof.
  unfold pending_from. intros H. apply left_join_Some in H.
  destruct H as (_ & _ & Hon). cbn [fst snd] in Hon.
  now apply String.eqb_eq.
Qed.

(** X13.  Deactivating, then listing: after [updateBotStatus(groupId,
    false)], [getPendingReminders] returns, for every date, the rows it
    returned before without the rows of that group, in the same order,
    and a materialization adds no record for a birthday of that group. *)
Theorem updateBotStatus_false_then_pending (env : Env) (groupId : string)
  (date : option Date) (w : World) :
  let w' := snd (updateBotStatus groupId false w) in
  exists before,
    getPendingReminders env date w = (Resolved before, w)
    /\ getPendingReminders env date w'
       = (Resolved
            (filter (fun row => negb (String.eqb (group_id row) groupId))
                    before),
          w')
    /\ forall out w2,
         createTodaysReminders env w' = (out, w2) ->
         forall r, In r (reminders (db w2)) ->
           In r (reminders (db w))
           \/ exists b, In b (birthdays (db w))
                        /\ b_id b = birthday_id r
                        /\ b_group_id b <> groupId.
Proof.
  intros w'. eexists. split; [reflexivity |]. split.
  - subst w'. unfold updateBotStatus, getPendingReminders, bind, get_db,
      put_db, ret. cbn [snd db set_db].
    f_equal. f_equal. unfold select_pending.
    rewrite pending_from_map_groups by (intros g; apply set_bot_active_id).
    set (reminderDate := match date with
                         | Some d => d
                         | None => local_date (now env)
                         end).
    rewrite filter_map_swap.
    rewrite (filter_ext_in
               (fun row => pending_where reminderDate
                             (fst row,
                              option_map (set_bot_active groupId false)
                                         (snd row)))
               (fun row => negb (String.eqb
                                   (b_group_id (snd (fst (fst row)))) groupId)
                           && pending_where reminderDate row)).
    2:{ intros [[[r b] u] g] Hin. cbn [fst snd]. unfold pending_where.
        destruct g as [g |]; cbn [option_map];
          [| now rewrite !andb_false_r].
        rewrite (pending_from_group_id _ _ _ _ _ Hin).
        unfold set_bot_active.
        destruct (String.eqb (g_group_id g) groupId); cbn [bot_active negb];
          [now rewrite andb_false_r | reflexivity]. }
    rewrite filter_andb, filter_comm, map_id_on.
    2:{ intros [[[r b] u] g] Hin. cbn [fst snd].
        apply filter_In in Hin. destruct Hin as [Hin _].
        apply filter_In in Hin. destruct Hin as [Hin Hne]. cbn [fst snd] in Hne.
        destruct g as [g |]; [| reflexivity]. cbn [option_map].
        rewrite (pending_from_group_id _ _ _ _ _ Hin) in Hne.
        unfold set_bot_active.
        destruct (String.eqb (g_group_id g) groupId);
          [discriminate | reflexivity]. }
    apply select_pending_filter. intros [[[r b] u] g] _. reflexivity.
  - intros out w2 Hrun r Hin.
    unfold createTodaysReminders in Hrun. cbn [bind get_db] in Hrun.
    destruct (createReminders_inv _ _ _ _ _ _ Hrun)
      as (done & rest & Hids & Hdb & _).
    rewrite Hdb in Hin. subst w'. cbn [snd updateBotStatus bind get_db put_db
      ret db set_db set_groups set_reminders reminders] in Hin, Hids.
    apply in_app_or in Hin. destruct Hin as [Hin | Hin]; [now left | right].
    apply in_map_iff in Hin. destruct Hin as (q & <- & Hq).
    assert (Hid : In (snd q) (map snd done ++ rest))
      by (apply in_or_app; left; now apply in_map).
    rewrite <- Hids in Hid. apply birthdays_without_reminder_In in Hid.
    destruct Hid as (b & g & Hsnd & Hb & Hg & Hbg & _ & Hact & _).
    cbn [birthdays groups] in Hb, Hg.
    exists b. split; [exact Hb |].
    split; [unfold new_reminder; cbn [birthday_id]; congruence |].
    apply in_map_iff in Hg. destruct Hg as (g0 & <- & _).
    rewrite set_bot_active_id in Hbg. unfold set_bot_active in Hact.
    destruct (String.eqb_spec (g_group_id g0) groupId) as [E | E];
      [discriminate Hact | congruence].
Qed.

(* ================================================================= *)
(** * More on the reminders table                                     *)
(* ================================================================= *)

Lemma reminderExists_run birthdayId d w :
  reminderExists birthdayId d w
  = (Resolved (has_reminder birthdayId d (reminders (db w))), w).
Proof. reflexivity. Qed.

Lemma has_reminder_app_other birthdayId d rs r :
  String.eqb (birthday_id r) birthdayId && date_eqb (reminder_date r) d
  = false ->
  has_reminder birthdayId d (rs ++ [r]) = has_reminder birthdayId d rs.
Proof.
  intros H. unfold has_reminder.
  induction rs as [| x rs IH]; simpl; [now rewrite H | now rewrite IH].
Qed.

(** X14.  Insert, then check: a resolved [createReminder] adds one
    unsent record, so [reminderExists] is true for its birthday and date
    and unchanged for every other pair; a rejected one (the random
    identifier is already a key) leaves the store as it was. *)
Theorem createReminder_then_exists (env : Env) (birthdayId : string)
  (d : Date) (w : World) (out : Outcome RunResult) (w' : World) :
  createReminder env birthdayId d w = (out, w') ->
  (forall r, out = Resolved r ->
     reminderExists birthdayId d w' = (Resolved true, w')
     /\ reminders (db w')
        = reminders (db w)
          ++ [mkReminder (randomUUID env (uuids_drawn w)) birthdayId d
                         false None]
     /\ (forall birthdayId' d',
           birthdayId' <> birthdayId \/ d' <> d ->
           fst (reminderExists birthdayId' d' w')
           = fst (reminderExists birthdayId' d' w))
     /\ ~ In (randomUUID env (uuids_drawn w)) (map r_id (reminders (db w))))
  /\ (forall e, out = Rejected e ->
        db w' = db w
        /\ In (randomUUID env (uuids_drawn w)) (map r_id (reminders (db w)))).
Proof.
  rewrite createReminder_run. cbv zeta.
  destruct (existsb _ _) eqn:Hdup; intros [= <- <-].
  - split; [discriminate |]. intros e _. split; [reflexivity |].
    apply existsb_exists in Hdup. destruct Hdup as (r & Hr & Heq).
    apply String.eqb_eq in Heq. rewrite <- Heq. now apply in_map.
  - split; [| discriminate]. intros r _.
    rewrite !reminderExists_run.
    cbn [db set_db set_reminders reminders fst].
    split; [| split; [reflexivity | split]].
    + f_equal. f_equal. unfold has_reminder. apply existsb_exists.
      eexists. split; [apply in_or_app; right; now left |].
      cbn [new_reminder birthday_id reminder_date fst snd].
      now rewrite String.eqb_refl, date_eqb_refl.
    + intros birthdayId' d' Hne. rewrite !reminderExists_run.
      cbn [db set_db set_reminders reminders fst]. f_equal.
      apply has_reminder_app_other.
      cbn [new_reminder birthday_id reminder_date fst snd].
      apply andb_false_iff.
      destruct (String.eqb_spec birthdayId birthdayId') as [-> | ?];
        [| now left].
      right. destruct (date_eqb d d') eqn:E; [| reflexivity].
      apply date_eqb_eq in E. destruct Hne; congruence.
    + intros Hin. apply in_map_iff in Hin. destruct Hin as (r0 & Hid & Hin).
      assert (existsb (fun r => String.eqb (r_id r)
                                  (randomUUID env (uuids_drawn w)))
                (reminders (db w)) = true).
      { apply existsb_exists. exists r0. split; [exact Hin |].
        now apply String.eqb_eq. }
      congruence.
Qed.

Lemma createReminder_then_exists_witness :
  let env := env_at march_15_0000 always in
  let w' := snd (createReminder env "bd_002" (mkDate 2025 7 22)
                   (world_of pending_march_15)) in
  reminderExists "bd_002" (mkDate 2025 7 22) w' = (Resolved true, w')
  /\ fst (reminderExists "bd_002" (mkDate 2025 7 23) w') = Resolved false.
Proof.
  intros env w'.
  destruct (createReminder_then_exists env "bd_002" (mkDate 2025 7 22)
              (world_of pending_march_15) (Resolved (mkRun 1)) w' eq_refl)
    as [H _].
  destruct (H (mkRun 1) eq_refl) as (Hex & _ & Hother & _).
  split; [exact Hex |].
  rewrite (Hother "bd_002"%string (mkDate 2025 7 23));
    [reflexivity | right; discriminate].
Defined.

(** X15.  [createTodaysReminders] only appends: the records that were
    there stay, first and unchanged; every new record is unsent, has no
    [sent_at] and is dated today; users, groups, birthdays and the outbox
    are untouched; when the run resolves, it returns one result per new
    record, and the new records are those of the birthdays that the
    query selected, one each, in the order in which the query returned
    them, which the statement leaves open. *)
Theorem createTodaysReminders_appends (env : Env) (w : World)
  (out : Outcome (list RunResult)) (w' : World) :
  createTodaysReminders env w = (out, w') ->
  let today := local_date (now env) in
  exists new,
    reminders (db w') = reminders (db w) ++ new
    /\ Forall (fun r => sent r = false /\ sent_at r = None
                        /\ reminder_date r = today) new
    /\ users (db w') = users (db w)
    /\ groups (db w') = groups (db w)
    /\ birthdays (db w') = birthdays (db w)
    /\ outbox w' = outbox w
    /\ forall rs, out = Resolved rs ->
         List.length rs = List.length new
         /\ Permutation
              (birthdays_without_reminder (month_day today) today (db w))
              (map birthday_id new).
Proof.
  intros Hrun today.
  unfold createTodaysReminders in Hrun. cbn [bind get_db] in Hrun.
  fold today in Hrun.
  destruct (createReminders_inv _ _ _ _ _ _ Hrun)
    as (done & rest & Hids & Hdb & Hout & Hres).
  exists (map (new_reminder today) done).
  rewrite Hdb. cbn [set_reminders reminders users groups birthdays].
  split; [reflexivity |]. split.
  - apply Forall_forall. intros r Hr. apply in_map_iff in Hr.
    destruct Hr as (q & <- & _). auto.
  - repeat (split; [reflexivity || exact Hout |]).
    intros rs Hrs. destruct (Hres rs Hrs) as [-> Hlen].
    rewrite app_nil_r in Hids. rewrite Hlen, Hids, !length_map, map_map.
    split; reflexivity.
Qed.

Lemma createTodaysReminders_appends_witness :
  let env := env_at march_15_0000 always in
  exists new,
    reminders (db (snd (createTodaysReminders env (world_of init_sql))))
    = reminders init_sql ++ new
    /\ map birthday_id new = ["bd_001"]%string.
Proof.
  intros env.
  destruct (createTodaysReminders_appends env (world_of init_sql)
              (Resolved [mkRun 1])
              (snd (createTodaysReminders env (world_of init_sql))) eq_refl)
    as (new & Hnew & _ & _ & _ & _ & _ & Hres).
  exists new. split; [exact Hnew |].
  destruct (Hres [mkRun 1] eq_refl) as [_ Hperm].
  exact (Permutation_length_1_inv Hperm).
Defined.


(* ================================================================= *)
(** * Listings of reminders                                           *)
(* ================================================================= *)

Lemma Sorted_firstn {A} (R : A -> A -> Prop) n l :
  Sorted R l -> Sorted R (firstn n l).
Proof.
  revert l. induction n as [| n IH]; intros l Hs; [constructor |].
  destruct l as [| x l]; [constructor |]. cbn [firstn].
  inversion Hs as [| ? ? Hs' Hhd]; subst.
  constructor; [now apply IH |].
  destruct l as [| y l]; [destruct n; constructor |].
  destruct n; cbn [firstn]; [constructor |].
  inversion Hhd; subst. now constructor.
Qed.

Lemma In_firstn {A} n (l : list A) x : In x (firstn n l) -> In x l.
Proof.
  revert l. induction n as [| n IH]; intros [| y l]; cbn [firstn];
    try contradiction.
  intros [-> | H]; [now left | right; now apply IH].
Qed.

Lemma firstn_short {A} n (l : list A) :
  (List.length (firstn n l) < n)%nat -> firstn n l = l.
Proof.
  revert l. induction n as [| n IH]; intros l H; [simpl in H; lia |].
  destruct l as [| y l]; [reflexivity |]. cbn [firstn List.length] in *.
  f_equal. apply IH. lia.
Qed.

Lemma sent_at_geb_total a b : sent_at_geb a b = true \/ sent_at_geb b a = true.
Proof.
  destruct a as [x |], b as [y |]; simpl; auto.
  destruct (Z.leb_spec y x); [now left | right; apply Z.leb_le; lia].
Qed.

(** X17.  [getReminderHistory] returns at most [limit] rows, the one
    sent last first; every row is a sent reminder of the store with the
    phone number and the date of its birthday, a birthday of the group
    asked for; and when fewer than [limit] rows come back, no sent
    reminder of the group is missing. *)
Theorem getReminderHistory_sent_latest_first (groupId : string)
  (limit : nat) (w : World) :
  exists rows,
    getReminderHistory groupId limit w = (Resolved rows, w)
    /\ (List.length rows <= limit)%nat
    /\ Sorted (fun x y =>
                 match sent_at (h_reminder x), sent_at (h_reminder y) with
                 | Some a, Some b => b <= a
                 | None, Some _ => False
                 | _, None => True
                 end) rows
    /\ (forall row, In row rows ->
          sent (h_reminder row) = true
          /\ In (h_reminder row) (reminders (db w))
          /\ exists b, In b (birthdays (db w))
                       /\ b_id b = birthday_id (h_reminder row)
                       /\ b_group_id b = groupId
                       /\ b_phone_number b = h_phone_number row
                       /\ birth_date b = h_birth_date row)
    /\ ((List.length rows < limit)%nat ->
        forall r b, In r (reminders (db w)) -> sent r = true ->
                    In b (birthdays (db w)) -> birthday_id r = b_id b ->
                    b_group_id b = groupId ->
                    exists row, In row rows /\ h_reminder row = r
                                /\ h_phone_number row = b_phone_number b).
Proof.
  eexists. split; [reflexivity |]. split; [apply firstn_le_length |].
  split; [| split].
  - apply Sorted_firstn.
    eapply Sorted_weaken; [| apply order_by_Sorted].
    + intros x y H. unfold le_of, sent_at_geb in H.
      destruct (sent_at (h_reminder x)), (sent_at (h_reminder y));
        try discriminate; auto.
      now apply Z.leb_le in H.
    + intros x y. apply sent_at_geb_total.
  - intros row Hin. apply In_firstn, order_by_In, in_map_iff in Hin.
    destruct Hin as ([[r b] u] & <- & Hin). apply filter_In in Hin.
    destruct Hin as [Hjoin Hw]. cbn [fst snd h_reminder h_phone_number
      h_birth_date] in *.
    apply andb_true_iff in Hw. destruct Hw as [Hg Hsent].
    apply String.eqb_eq in Hg. apply left_join_fst, inner_join_In in Hjoin.
    destruct Hjoin as (Hr & Hb & Hon). apply String.eqb_eq in Hon.
    split; [exact Hsent |]. split; [exact Hr |]. exists b. auto.
  - intros Hlt r b Hr Hsent Hb Hon Hg.
    rewrite (firstn_short _ _ Hlt).
    destruct (left_join_fst_In
                (inner_join (reminders (db w)) (birthdays (db w))
                   (fun r b => String.eqb (birthday_id r) (b_id b)))
                (users (db w))
                (fun rb u => String.eqb (b_phone_number (snd rb))
                                        (u_phone_number u))
                (r, b)) as [u Hu].
    { apply inner_join_In. split; [exact Hr |]. split; [exact Hb |].
      now apply String.eqb_eq. }
    exists (mkHistory r (b_phone_number b) (birth_date b)
                      (option_map u_name u)).
    split; [| split; reflexivity].
    apply order_by_In, in_map_iff. exists (r, b, u). split; [reflexivity |].
    apply filter_In. split; [exact Hu |]. cbn [fst snd].
    apply andb_true_iff. split; [now apply String.eqb_eq | exact Hsent].
Qed.

(** X18.  [getRemindersByBirthday] returns the reminders of the
    birthday, each as often as the table holds it and no other, the
    latest reminder date first. *)
Theorem getRemindersByBirthday_latest_first (birthdayId : string)
  (w : World) :
  exists rows,
    getRemindersByBirthday birthdayId w = (Resolved rows, w)
    /\ Permutation
         (filter (fun r => String.eqb (birthday_id r) birthdayId)
                 (reminders (db w)))
         rows
    /\ (forall r, In r rows
                  <-> In r (reminders (db w)) /\ birthday_id r = birthdayId)
    /\ StronglySorted
         (fun x y => date_ltb (reminder_date x) (reminder_date y) = false)
         rows.
Proof.
  eexists. split; [reflexivity |]. split; [apply order_by_Permutation |].
  split.
  - intros r. rewrite order_by_In, filter_In, String.eqb_eq. reflexivity.
  - apply Sorted_StronglySorted.
    + intros x y z Hxy Hyz.
      destruct (date_ltb (reminder_date x) (reminder_date z)) eqn:E;
        [| reflexivity].
      apply date_ltb_iff in E.
      assert (Hxy' : ~ date_ltb (reminder_date x) (reminder_date y) = true)
        by congruence.
      assert (Hyz' : ~ date_ltb (reminder_date y) (reminder_date z) = true)
        by congruence.
      rewrite date_ltb_iff in Hxy', Hyz'. lia.
    + eapply Sorted_weaken; [| apply order_by_Sorted].
      * intros x y H. unfold le_of in H. now apply negb_true_iff in H.
      * intros x y.
        destruct (date_ltb (reminder_date x) (reminder_date y)) eqn:E;
          [right | now left].
        apply negb_true_iff.
        destruct (date_ltb (reminder_date y) (reminder_date x)) eqn:E';
          [| reflexivity].
        apply date_ltb_iff in E, E'. lia.
Qed.

(* ================================================================= *)
(** * The groups table                                                *)
(* ================================================================= *)

Lemma string_leb_total a b : String.leb a b = true \/ String.leb b a = true.
Proof.
  unfold String.leb. rewrite (String.compare_antisym a b).
  destruct (String.compare b a); simpl; auto.
Qed.

Lemma filter_app_last {A} (f : A -> bool) l x :
  filter f (l ++ [x]) = filter f l ++ (if f x then [x] else []).
Proof. rewrite filter_app. reflexivity. Qed.

(** X19.  Replace, then look up: when [createOrUpdateGroup] resolves,
    exactly one row has the identifier, holding the name and the flag
    just given, and a [getGroupById] that resolves returns it; the rows
    of the other groups are found as before, and the other tables are
    untouched. *)
Theorem createOrUpdateGroup_then_getGroupById (groupId groupName : string)
  (botActive : bool) (w : World) (result : RunResult) (w' : World) :
  createOrUpdateGroup groupId groupName botActive w = (Resolved result, w') ->
  filter (fun g => String.eqb (g_group_id g) groupId) (groups (db w'))
  = [mkGroup groupId groupName botActive]
  /\ (forall found w2,
        getGroupById groupId w' = (Resolved found, w2) ->
        found = Some (mkGroup groupId groupName botActive))
  /\ (forall found w2,
        groupExists groupId w' = (Resolved found, w2) -> found = true)
  /\ (forall other, other <> groupId ->
        fst (getGroupById other w') = fst (getGroupById other w))
  /\ (NoDup (map g_group_id (groups (db w))) ->
      NoDup (map g_group_id (groups (db w'))))
  /\ users (db w') = users (db w)
  /\ birthdays (db w') = birthdays (db w)
  /\ reminders (db w') = reminders (db w).
Proof.
  intros Hrun.
  assert (Hw : w' = set_db w
                      (set_groups (db w)
                         (filter (fun g => negb (String.eqb (g_group_id g)
                                                            groupId))
                                 (groups (db w))
                          ++ [mkGroup groupId groupName botActive]))).
  { unfold createOrUpdateGroup, bind, get_db, put_db, ret in Hrun.
    now injection Hrun as _ <-. }
  subst w'. clear Hrun.
  assert (Hone :
    filter (fun g => String.eqb (g_group_id g) groupId)
      (filter (fun g => negb (String.eqb (g_group_id g) groupId))
              (groups (db w))
       ++ [mkGroup groupId groupName botActive])
    = [mkGroup groupId groupName botActive]).
  { rewrite filter_app_last. cbn [g_group_id]. rewrite String.eqb_refl.
    rewrite filter_none; [reflexivity |].
    intros g Hg. apply filter_In in Hg. destruct Hg as [_ Hg].
    now apply negb_true_iff in Hg. }
  unfold groupExists, getGroupById, bind, get_db, ret.
  cbn [fst snd db set_db set_groups groups users birthdays reminders].
  rewrite Hone. cbn [hd_error].
  split; [reflexivity |].
  split; [now intros found w2 [= <- _] |].
  split; [now intros found w2 [= <- _] |].
  split; [| split; [| auto]].
  - intros other Hne. f_equal. f_equal.
    rewrite filter_app_last. cbn [g_group_id].
    destruct (String.eqb_spec groupId other) as [? | _]; [congruence |].
    rewrite app_nil_r.
    rewrite filter_filter_implied; [reflexivity |].
    intros g Hg. apply String.eqb_eq in Hg. apply negb_true_iff.
    apply String.eqb_neq. congruence.
  - intros Hnd. rewrite map_app. apply NoDup_app.
    + now apply NoDup_map_filter.
    + repeat constructor. intros [].
    + intros k Hk [Hk' | []]. cbn [g_group_id] in Hk'. subst k.
      apply in_map_iff in Hk.
      destruct Hk as (g & Hid & Hg). apply filter_In in Hg.
      destruct Hg as [_ Hg]. apply negb_true_iff, String.eqb_neq in Hg.
      congruence.
Qed.

Lemma createOrUpdateGroup_then_getGroupById_witness :
  let w' := snd (createOrUpdateGroup "sample_group_123" "Family" true
                   (world_of inactive_group)) in
  groups (db w') = [mkGroup "sample_group_123" "Family" true]
  /\ forall found w2,
       getGroupById "sample_group_123" w' = (Resolved found, w2) ->
       found = Some (mkGroup "sample_group_123" "Family" true).
Proof.
  intros w'.
  destruct (createOrUpdateGroup_then_getGroupById "sample_group_123" "Family"
              true (world_of inactive_group) (mkRun 1) w' eq_refl)
    as (_ & Hget & _).
  split; [reflexivity | exact Hget].
Defined.

(** X20.  Switch, then list: when [updateBotStatus] resolves, it reports
    the number of rows with the identifier and has changed no identifier
    and no name; a [getActiveGroups] that then resolves returns active
    groups only, by name, among them the group exactly when it was
    switched on, and the other groups exactly when they were active
    before. *)
Theorem updateBotStatus_then_getActiveGroups (groupId : string)
  (botActive : bool) (w : World) (result : RunResult) (w' : World)
  (rows : list GroupRow) (w2 : World) :
  updateBotStatus groupId botActive w = (Resolved result, w') ->
  getActiveGroups w' = (Resolved rows, w2) ->
  changes result
  = count_if (fun g => String.eqb (g_group_id g) groupId) (groups (db w))
  /\ w2 = w'
  /\ map g_group_id (groups (db w')) = map g_group_id (groups (db w))
  /\ map group_name (groups (db w')) = map group_name (groups (db w))
  /\ Sorted (fun x y => String.leb (group_name x) (group_name y) = true) rows
  /\ (forall g, In g rows -> bot_active g = true)
  /\ (forall g, In g (groups (db w)) -> g_group_id g = groupId ->
        (In (mkGroup groupId (group_name g) true) rows
         <-> botActive = true))
  /\ (forall g, g_group_id g <> groupId ->
        (In g rows <-> In g (groups (db w)) /\ bot_active g = true)).
Proof.
  intros Hrun Hlist.
  assert (Hw : result = mkRun (count_if (fun g => String.eqb (g_group_id g)
                                                             groupId)
                                        (groups (db w)))
               /\ w' = set_db w
                         (set_groups (db w)
                            (map (set_bot_active groupId botActive)
                                 (groups (db w))))).
  { unfold updateBotStatus, bind, get_db, put_db, ret in Hrun.
    injection Hrun as <- <-. split; reflexivity. }
  destruct Hw as [-> ->]. clear Hrun.
  unfold getActiveGroups, bind, get_db, ret in Hlist.
  cbn [fst snd db set_db set_groups groups] in Hlist.
  injection Hlist as <- <-.
  cbn [changes fst snd db set_db set_groups groups].
  split; [reflexivity |]. split; [reflexivity |].
  assert (Hin : forall g,
             In g (map (set_bot_active groupId botActive) (groups (db w)))
             <-> exists g0, In g0 (groups (db w))
                            /\ g = set_bot_active groupId botActive g0).
  { intros g. rewrite in_map_iff. split; intros (g0 & H1 & H2);
      exists g0; [split; [exact H2 | now symmetry] | split; [now symmetry | exact H1]]. }
  split; [| split; [| split; [| split; [| split]]]].
  - rewrite map_map. apply map_ext. intros g. apply set_bot_active_id.
  - rewrite map_map. apply map_ext. intros g. unfold set_bot_active.
    now destruct (String.eqb (g_group_id g) groupId).
  - apply (order_by_Sorted
             (fun x y => String.leb (group_name x) (group_name y))).
    intros x y. apply string_leb_total.
  - intros g Hg. apply order_by_In, filter_In in Hg. tauto.
  - intros g Hg Hid. rewrite order_by_In, filter_In, Hin. cbn [bot_active].
    split.
    + intros [(g0 & Hg0 & Heq) _]. unfold set_bot_active in Heq.
      destruct (String.eqb_spec (g_group_id g0) groupId) as [E | E].
      * now injection Heq as _ _ <-.
      * rewrite <- Heq in E. now cbn [g_group_id] in E.
    + intros ->. split; [| reflexivity]. exists g. split; [exact Hg |].
      unfold set_bot_active. rewrite Hid, String.eqb_refl. reflexivity.
  - intros g Hne. rewrite order_by_In, filter_In, Hin. split.
    + intros [(g0 & Hg0 & Heq) Hact]. unfold set_bot_active in Heq.
      destruct (String.eqb_spec (g_group_id g0) groupId) as [E | E].
      * rewrite Heq in Hne. now cbn [g_group_id] in Hne.
      * subst g0. auto.
    + intros [Hg Hact]. split; [| exact Hact]. exists g. split; [exact Hg |].
      unfold set_bot_active.
      now destruct (String.eqb_spec (g_group_id g) groupId).
Qed.

Lemma updateBotStatus_then_getActiveGroups_witness :
  let w' := snd (updateBotStatus "sample_group_123" false
                   (world_of init_sql)) in
  fst (getActiveGroups (world_of init_sql))
  = Resolved [mkGroup "sample_group_123" "Family Group" true]
  /\ ~ In (mkGroup "sample_group_123" "Family Group" true)
          (match fst (getActiveGroups w') with
           | Resolved rows => rows
           | Rejected _ => []
           end).
Proof.
  intros w'. split; [reflexivity |].
  destruct (updateBotStatus_then_getActiveGroups "sample_group_123" false
              (world_of init_sql) (mkRun 1) w' [] w' eq_refl eq_refl)
    as (_ & _ & _ & _ & _ & _ & Hgroup & _).
  intros Hin.
  assert (false = true); [| discriminate].
  apply (Hgroup (mkGroup "sample_group_123" "Family Group" true));
    [now left | reflexivity | exact Hin].
Defined.

(* ================================================================= *)
(** * The registry of the scheduler                                   *)
(* ================================================================= *)

Lemma Map_set_keys_In key job m k :
  In k (map fst (Map_set key job m)) <-> k = key \/ In k (map fst m).
Proof.
  induction m as [| [k0 j0] m IH]; cbn [Map_set map fst In].
  - intuition congruence.
  - destruct (String.eqb_spec k0 key) as [-> | Hne]; cbn [map fst In].
    + intuition congruence.
    + rewrite IH. intuition congruence.
Qed.

Lemma Map_set_NoDup key job m :
  NoDup (map fst m) -> NoDup (map fst (Map_set key job m)).
Proof.
  induction m as [| [k0 j0] m IH]; cbn [Map_set map fst]; intros Hnd.
  - repeat constructor. intros [].
  - inversion Hnd as [| ? ? Hnot Hnd']; subst.
    destruct (String.eqb_spec k0 key) as [-> | Hne]; cbn [map fst].
    + now constructor.
    + constructor; [| now apply IH].
      rewrite Map_set_keys_In. intuition congruence.
Qed.

Lemma Map_set_In key job m k j :
  In (k, j) (Map_set key job m) -> (k = key /\ j = job) \/ In (k, j) m.
Proof.
  induction m as [| [k0 j0] m IH]; cbn [Map_set In].
  - intros [[= <- <-] | []]. now left.
  - destruct (String.eqb_spec k0 key) as [-> | Hne]; cbn [In].
    + intros [[= <- <-] | H]; [now left | right; now right].
    + intros [H | H]; [right; now left |].
      destruct (IH H) as [? | ?]; [now left | right; now right].
Qed.

Lemma Map_set_absent key job m :
  ~ In key (map fst m) -> Map_set key job m = m ++ [(key, job)].
Proof.
  induction m as [| [k0 j0] m IH]; cbn [Map_set map fst In app]; intros Hnot;
    [reflexivity |].
  destruct (String.eqb_spec k0 key) as [-> | Hne]; [tauto |].
  rewrite IH by tauto. reflexivity.
Qed.

Lemma Map_delete_keys key m :
  map fst (Map_delete key m)
  = filter (fun k => negb (String.eqb k key)) (map fst m).
Proof.
  unfold Map_delete. induction m as [| [k0 j0] m IH]; cbn [filter map fst];
    [reflexivity |].
  destruct (String.eqb k0 key); cbn [negb map fst]; now rewrite IH.
Qed.

Lemma NoDup_filter_keys (f : string -> bool) l : NoDup l -> NoDup (filter f l).
Proof.
  induction 1 as [| x l Hnot Hnd IH]; cbn [filter]; [constructor |].
  destruct (f x); [constructor; [| exact IH] | exact IH].
  intros Hin. apply filter_In in Hin. tauto.
Qed.

Lemma start_jobs s :
  isRunning s = false ->
  jobs (start s)
  = Map_set "reminderCreation"
      (mkCronJob 59 23 (Some "Africa/Lagos"%string) true)
      (Map_set "cleanup" (mkCronJob 0 2 (Some "Africa/Lagos"%string) true)
         (Map_set "birthdayCheck"
            (mkCronJob 0 0 (Some "Africa/Lagos"%string) true) (jobs s))).
Proof. intros H. unfold start. rewrite H. reflexivity. Qed.

Lemma scheduleTestJob_well_formed reference delayMinutes s k j :
  In (k, j) (jobs (scheduleTestJob reference delayMinutes s)) ->
  (k = "test"%string /\ scheduled_as "test" j) \/ In (k, j) (jobs s).
Proof.
  unfold scheduleTestJob, register. cbn [jobs]. intros H.
  apply Map_set_In in H. destruct H as [[-> ->] | H]; [left | now right].
  split; [reflexivity |]. unfold scheduled_as.
  cbn [String.eqb Ascii.eqb Bool.eqb started timezone at_minute at_hour].
  pose proof (Z.mod_pos_bound (millis reference / 60000 + delayMinutes) 60).
  pose proof (Z.mod_pos_bound
                ((millis reference / 60000 + delayMinutes) / 60) 24).
  repeat split; lia.
Qed.

(** The invariant of the registry. *)
Lemma reachable_invariant s :
  reachable s ->
  NoDup (map fst (jobs s))
  /\ (forall k j, In (k, j) (jobs s) -> scheduled_as k j)
  /\ (isRunning s = true ->
      incl daily_jobs (map fst (jobs s))
      /\ incl (map fst (jobs s)) ("test"%string :: daily_jobs))
  /\ (isRunning s = false -> incl (map fst (jobs s)) ["test"%string]).
Proof.
  induction 1 as [| s Hs IH | s Hs IH | s reference delayMinutes Hs IH
                  | s Hs IH].
  - cbn [newCronScheduler jobs isRunning map].
    split; [constructor |]. split; [intros k j [] |].
    split; [discriminate |]. intros _ k [].
  - destruct IH as (Hnd & Hjobs & Hrun & Hstop).
    destruct (isRunning s) eqn:Hr.
    + unfold start. rewrite Hr. rewrite Hr. auto.
    + assert (Hr' : isRunning (start s) = true)
        by (unfold start; now rewrite Hr).
      rewrite Hr', (start_jobs s Hr).
      split; [now repeat apply Map_set_NoDup |].
      split; [| split; [intros _; split | discriminate]].
      * intros k j H.
        repeat (apply Map_set_In in H; destruct H as [[-> ->] | H];
                [reflexivity |]).
        now apply Hjobs.
      * intros k Hk. rewrite !Map_set_keys_In.
        destruct Hk as [<- | [<- | [<- | []]]]; auto.
      * intros k Hk. rewrite !Map_set_keys_In in Hk.
        destruct Hk as [-> | [-> | [-> | Hk]]];
          [right; right; right; now left | right; right; now left
          | right; now left |].
        destruct (Hstop eq_refl k Hk) as [<- | []]. now left.
  - destruct IH as (Hnd & Hjobs & Hrun & Hstop).
    destruct (isRunning s) eqn:Hr.
    + unfold stop. rewrite Hr. cbn [negb jobs isRunning map].
      split; [constructor |]. split; [intros k j [] |].
      split; [discriminate |]. intros _ k [].
    + unfold stop. rewrite Hr. cbn [negb]. rewrite Hr. auto.
  - destruct IH as (Hnd & Hjobs & Hrun & Hstop).
    split; [apply Map_set_NoDup; exact Hnd |].
    split; [| split].
    + intros k j H. apply scheduleTestJob_well_formed in H.
      destruct H as [[-> H] | H]; [exact H | now apply Hjobs].
    + intros Hr. cbn [scheduleTestJob register isRunning jobs] in *.
      destruct (Hrun Hr) as [Hin Hout]. split.
      * intros k Hk. rewrite Map_set_keys_In. right. now apply Hin.
      * intros k Hk. rewrite Map_set_keys_In in Hk.
        destruct Hk as [-> | Hk]; [now left | now apply Hout].
    + intros Hr. cbn [scheduleTestJob register isRunning jobs] in *.
      intros k Hk. rewrite Map_set_keys_In in Hk.
      destruct Hk as [-> | Hk]; [now left | now apply Hstop].
  - destruct IH as (Hnd & Hjobs & Hrun & Hstop).
    cbn [testJobExecuted jobs isRunning]. rewrite Map_delete_keys.
    split; [now apply NoDup_filter_keys |].
    split; [| split].
    + intros k j H. unfold Map_delete in H. apply filter_In in H.
      now apply Hjobs.
    + intros Hr. destruct (Hrun Hr) as [Hin Hout]. split.
      * intros k Hk. apply filter_In. split; [now apply Hin |].
        destruct Hk as [<- | [<- | [<- | []]]]; reflexivity.
      * intros k Hk. apply filter_In in Hk. now apply Hout.
    + intros Hr k Hk. apply filter_In in Hk. now apply Hstop.
Qed.

(** X21.  Whatever sequence of [start], [stop], [scheduleTestJob] and
    test-job executions follows the constructor, [getStatus] reports
    each job name once and the count of the names; a running scheduler
    has the three daily jobs and at most the test job besides, a stopped
    one at most the test job; and every registered job is started, the
    daily ones at 00:00, 02:00 and 23:59 in Africa/Lagos, the test job
    at a minute and an hour of the day. *)
Theorem scheduler_registry_invariant (s : CronScheduler) :
  reachable s ->
  let st := getStatus s in
  NoDup (activeJobs st)
  /\ jobCount st = List.length (activeJobs st)
  /\ (status_isRunning st = true ->
      incl daily_jobs (activeJobs st)
      /\ incl (activeJobs st) ("test"%string :: daily_jobs)
      /\ (3 <= jobCount st <= 4)%nat)
  /\ (status_isRunning st = false ->
      incl (activeJobs st) ["test"%string] /\ (jobCount st <= 1)%nat)
  /\ (forall name job, In (name, job) (jobs s) ->
        started job = true /\ scheduled_as name job).
Proof.
  intros Hs. destruct (reachable_invariant s Hs) as (Hnd & Hjobs & Hrun & Hstop).
  cbn [getStatus activeJobs jobCount status_isRunning].
  rewrite <- (length_map fst (jobs s)).
  split; [exact Hnd |]. split; [reflexivity |].
  split; [| split].
  - intros Hr. destruct (Hrun Hr) as [Hin Hout].
    split; [exact Hin |]. split; [exact Hout |]. split.
    + apply (NoDup_incl_length (l := daily_jobs)); [| exact Hin].
      unfold daily_jobs. repeat constructor; cbn [In]; intuition discriminate.
    + apply (NoDup_incl_length Hnd Hout).
  - intros Hr. split; [now apply Hstop |].
    apply (NoDup_incl_length Hnd (Hstop Hr)).
  - intros name job Hin. pose proof (Hjobs name job Hin) as H.
    split; [| exact H]. unfold scheduled_as in H.
    destruct (String.eqb name "birthdayCheck"); [now subst |].
    destruct (String.eqb name "cleanup"); [now subst |].
    destruct (String.eqb name "reminderCreation"); [now subst | tauto].
Qed.

Lemma scheduler_registry_invariant_witness :
  getStatus (start newCronScheduler) = mkStatus true daily_jobs 3
  /\ NoDup daily_jobs.
Proof.
  split; [reflexivity |].
  exact (proj1 (scheduler_registry_invariant (start newCronScheduler)
                  (reach_start _ reach_new))).
Defined.

(** X22.  [stop] after [start] always gives back the empty, stopped
    scheduler, and [start] and [stop] are idempotent; but [stop] on a
    stopped scheduler returns at once, so a test job scheduled while the
    scheduler is stopped stays registered and started, and a later
    [start] adds the three daily jobs after it. *)
Theorem stop_does_not_reach_a_test_job (s : CronScheduler)
  (reference : Moment) (delayMinutes : Z) :
  reachable s ->
  isRunning s = false ->
  let s' := stop (scheduleTestJob reference delayMinutes s) in
  stop (start s) = newCronScheduler
  /\ start (start s) = start s
  /\ stop (stop s) = stop s
  /\ getStatus s' = mkStatus false ["test"%string] 1
  /\ (forall name job, In (name, job) (jobs s') -> started job = true)
  /\ getStatus (start s') = mkStatus true ("test"%string :: daily_jobs) 4.
Proof.
  intros Hs Hr s'.
  destruct (reachable_invariant s Hs) as (Hnd & Hjobs & _ & Hstop).
  specialize (Hstop Hr).
  assert (Hstart : isRunning (start s) = true)
    by (unfold start; now rewrite Hr).
  assert (Hs' : s' = scheduleTestJob reference delayMinutes s).
  { unfold s', stop. cbn [scheduleTestJob register isRunning].
    now rewrite Hr. }
  assert (Hkeys : map fst (jobs s') = ["test"%string]).
  { rewrite Hs'. cbn [scheduleTestJob register jobs].
    destruct (jobs s) as [| [k j] rest]; [reflexivity |].
    cbn [map fst] in Hnd, Hstop.
    assert (k = "test"%string) as ->.
    { destruct (Hstop k (or_introl eq_refl)) as [<- | []]. reflexivity. }
    destruct rest as [| [k' j'] rest]; [reflexivity |].
    exfalso. cbn [map fst] in Hnd, Hstop.
    assert (k' = "test"%string) as ->.
    { destruct (Hstop k' (or_intror (or_introl eq_refl))) as [<- | []].
      reflexivity. }
    inversion Hnd as [| ? ? Hnot _]; subst. apply Hnot. now left. }
  split; [unfold stop; now rewrite Hstart |].
  split; [unfold start at 1; now rewrite Hstart |].
  split; [unfold stop; rewrite Hr; cbn [negb]; now rewrite Hr |].
  split; [| split].
  - unfold getStatus. rewrite <- (length_map fst (jobs s')), Hkeys.
    rewrite Hs'. cbn [scheduleTestJob register isRunning]. now rewrite Hr.
  - intros name job Hin. rewrite Hs' in Hin.
    apply scheduleTestJob_well_formed in Hin.
    destruct Hin as [[_ H] | H]; [apply H |].
    specialize (Hjobs name job H). unfold scheduled_as in Hjobs.
    destruct (String.eqb name "birthdayCheck"); [now subst |].
    destruct (String.eqb name "cleanup"); [now subst |].
    destruct (String.eqb name "reminderCreation"); [now subst | tauto].
  - assert (Hr' : isRunning s' = false).
    { rewrite Hs'. cbn [scheduleTestJob register isRunning]. exact Hr. }
    unfold getStatus. rewrite <- (length_map fst (jobs (start s'))).
    assert (Hk : map fst (jobs (start s')) = "test"%string :: daily_jobs).
    { rewrite (start_jobs s' Hr').
      destruct (jobs s') as [| [k j] [| ? ?]]; try discriminate.
      injection Hkeys as ->. reflexivity. }
    rewrite Hk. unfold start. rewrite Hr'. reflexivity.
Qed.

Lemma stop_does_not_reach_a_test_job_witness :
  getStatus (stop (scheduleTestJob march_14_2359 1 newCronScheduler))
  = mkStatus false ["test"%string] 1.
Proof.
  exact (proj1 (proj2 (proj2 (proj2
    (stop_does_not_reach_a_test_job newCronScheduler march_14_2359 1
       reach_new eq_refl))))).
Defined.

(* ================================================================= *)
(** * The handlers of the birthday commands                           *)
(* ================================================================= *)

Lemma In_map_update_birth_date p g d l b :
  same_member p g b = false ->
  (In b (map (update_birth_date p g d) l) <-> In b l).
Proof.
  intros Hb. rewrite in_map_iff. split.
  - intros (b0 & Heq & Hin).
    destruct (same_member p g b0) eqn:E.
    + rewrite <- Heq, update_birth_date_same_member in Hb. congruence.
    + rewrite update_birth_date_miss in Heq by exact E. now subst.
  - intros Hin. exists b. split; [now apply update_birth_date_miss | exact Hin].
Qed.

(** What [addOrUpdateBirthday] leaves alone, whatever its outcome. *)
Lemma addOrUpdateBirthday_frame env p d g w :
  let w' := snd (addOrUpdateBirthday env p d g w) in
  users (db w') = users (db w)
  /\ groups (db w') = groups (db w)
  /\ reminders (db w') = reminders (db w)
  /\ (forall b, same_member p g b = false ->
        (In b (birthdays (db w')) <-> In b (birthdays (db w))))
  /\ send_attempts w' = send_attempts w
  /\ console_errors w' = console_errors w
  /\ (forall e, fst (addOrUpdateBirthday env p d g w) = Rejected e ->
        db w' = db w).
Proof.
  rewrite addOrUpdateBirthday_run.
  destruct (hd_error _) as [existing |].
  - cbn [fst snd db set_db set_birthdays users groups reminders birthdays
           send_attempts console_errors].
    repeat (split; [reflexivity |]).
    split; [intros b Hb; now apply In_map_update_birth_date |].
    split; [reflexivity |]. split; [reflexivity | discriminate].
  - cbv zeta. destruct (existsb _ _).
    + cbn [fst snd db send_attempts console_errors].
      repeat (split; [reflexivity |]). reflexivity.
    + cbn [fst snd db set_db set_birthdays users groups reminders birthdays
             send_attempts console_errors].
      repeat (split; [reflexivity |]).
      split; [| split; [reflexivity | split; [reflexivity | discriminate]]].
      intros b Hb. rewrite in_app_iff. cbn [In]. split; [| tauto].
      intros [H | [<- | []]]; [exact H |].
      rewrite same_member_new in Hb. discriminate.
Qed.

(** One call of the client from a handler. *)
Lemma sendReply_run env chatId reply s :
  let n := send_attempts (world s) in
  let w' := mkWorld (db (world s)) (uuids_drawn (world s))
                    (randoms_drawn (world s)) (S n) (outbox (world s))
                    (console_errors (world s)) in
  sendReply env chatId reply s
  = if client_delivers env n chatId
    then (Resolved tt, mkSession w' (replies s ++ [(chatId, reply)]))
    else (Rejected (ClientError chatId), mkSession w' (replies s)).
Proof. reflexivity. Qed.

Lemma sendReply_frame env chatId reply s :
  let out := fst (sendReply env chatId reply s) in
  let s' := snd (sendReply env chatId reply s) in
  db (world s') = db (world s)
  /\ send_attempts (world s') = S (send_attempts (world s))
  /\ (forall e, out = Rejected e -> e = ClientError chatId)
  /\ (forall r, In r (replies s') -> In r (replies s) \/ fst r = chatId).
Proof.
  rewrite sendReply_run. cbv zeta.
  destruct (client_delivers _ _ _); cbn [fst snd world db send_attempts replies].
  - split; [reflexivity |]. split; [reflexivity |]. split; [discriminate |].
    intros r Hr. apply in_app_iff in Hr. destruct Hr as [H | [<- | []]]; auto.
  - split; [reflexivity |]. split; [reflexivity |].
    split; [now intros e [= <-] | auto].
Qed.

(** A reply of which the outcome and the session are known. *)
Ltac reply_frame E :=
  match type of E with
  | sendReply ?env ?chatId ?r ?s0 = _ =>
      let H := fresh "Hsend" in
      pose proof (sendReply_frame env chatId r s0) as H;
      cbv zeta in H; rewrite E in H;
      cbn [fst snd world replies db send_attempts] in H;
      destruct H as (?Hdb & ?Hn & ?Hrej & ?Hrep)
  end.

(** The [catch] block of a handler: the error is logged, then told. *)
Ltac catch_block E :=
  unfold lift, console_error, sendErrorMessage in E;
  cbn [world replies] in E; reply_frame E.

(** X23.  [handleAddBirthday] contains its failures: a rejection of the
    store never leaves the handler, which rejects only when the client
    rejects; it makes one or two calls of the client, all to the chat of
    the command; it never touches the users, the groups, the reminders
    or the birthdays of another member or group; and without a first
    argument that [validateDate] accepts, it leaves the whole store as
    it was and answers with the usage or the format text. *)
Theorem handleAddBirthday_contained (env : Env) (chatId phoneNumber : string)
  (args : list string) (s : Session) :
  let out := fst (handleAddBirthday env chatId phoneNumber args s) in
  let s' := snd (handleAddBirthday env chatId phoneNumber args s) in
  (forall e, out = Rejected e -> e = ClientError chatId)
  /\ (send_attempts (world s) < send_attempts (world s')
      <= send_attempts (world s) + 2)%nat
  /\ (forall r, In r (replies s') -> In r (replies s) \/ fst r = chatId)
  /\ users (db (world s')) = users (db (world s))
  /\ groups (db (world s')) = groups (db (world s))
  /\ reminders (db (world s')) = reminders (db (world s))
  /\ (forall b, same_member phoneNumber chatId b = false ->
        (In b (birthdays (db (world s')))
         <-> In b (birthdays (db (world s)))))
  /\ (match args with
      | [] => True
      | dateStr :: _ => isValid (validateDate dateStr (now env)) = false
      end ->
      db (world s') = db (world s)
      /\ send_attempts (world s') = S (send_attempts (world s))
      /\ (client_delivers env (send_attempts (world s)) chatId = true ->
          out = Resolved tt
          /\ replies s'
             = replies s
               ++ [(chatId, match args with
                            | [] => AddBirthdayUsage
                            | _ => InvalidDateFormat
                            end)])).
Proof.
  cbv zeta.
  destruct (handleAddBirthday env chatId phoneNumber args s) as [out s']
    eqn:E.
  cbn [fst snd]. unfold handleAddBirthday in E.
  destruct args as [| dateStr rest].
  - reply_frame E. rewrite Hdb, Hn.
    split; [exact Hrej |]. split; [lia |]. split; [exact Hrep |].
    do 3 (split; [reflexivity |]). split; [tauto |].
    intros _. split; [reflexivity |]. split; [reflexivity |].
    intros Hc. rewrite sendReply_run in E. cbv zeta in E. rewrite Hc in E.
    injection E as <- <-. now split.
  - destruct (isValid (validateDate dateStr (now env))) eqn:Hv;
      cbn [negb] in E.
    + destruct (validateDate_inv _ _ Hv) as (sep & dd & mm & _ & _ & _ & Hd).
      rewrite Hd in E. cbn [local_date of_date] in E.
      set (d := mkDate (year (local_date (now env))) mm dd) in E.
      unfold chat_try, chat_bind in E. unfold lift at 1 in E.
      pose proof (addOrUpdateBirthday_frame env phoneNumber d chatId (world s))
        as Hadd. cbv zeta in Hadd.
      destruct (addOrUpdateBirthday env phoneNumber d chatId (world s))
        as [[r | e] w1]; cbn [fst snd] in Hadd;
        destruct Hadd as (Hu & Hg & Hr & Hb & Hn1 & _ & _).
      * destruct (sendReply env chatId (BirthdayAdded d)
                    (mkSession w1 (replies s))) as [[[] | e1] s2] eqn:E1;
          reply_frame E1.
        -- injection E as <- <-. rewrite Hdb, Hn, Hn1, Hu, Hg, Hr.
           split; [discriminate |]. split; [lia |]. split; [exact Hrep |].
           do 3 (split; [reflexivity |]). split; [exact Hb | discriminate].
        -- catch_block E. rewrite Hdb0, Hn0, Hdb, Hn, Hn1, Hu, Hg, Hr.
           split; [exact Hrej0 |]. split; [lia |].
           split; [intros r0 Hr0; destruct (Hrep0 r0 Hr0); auto |].
           do 3 (split; [reflexivity |]). split; [exact Hb | discriminate].
      * catch_block E. rewrite Hdb, Hn, Hn1, Hu, Hg, Hr.
        split; [exact Hrej |]. split; [lia |]. split; [exact Hrep |].
        do 3 (split; [reflexivity |]). split; [exact Hb | discriminate].
    + reply_frame E. rewrite Hdb, Hn.
      split; [exact Hrej |]. split; [lia |]. split; [exact Hrep |].
      do 3 (split; [reflexivity |]). split; [tauto |].
      intros _. split; [reflexivity |]. split; [reflexivity |].
      intros Hc. rewrite sendReply_run in E. cbv zeta in E. rewrite Hc in E.
      injection E as <- <-. now split.
Qed.

Lemma removeBirthday_run p g w :
  removeBirthday p g w
  = (Resolved (mkRun (count_if (same_member p g) (birthdays (db w)))),
     set_db w (set_birthdays (db w)
                 (filter (fun b => negb (same_member p g b))
                         (birthdays (db w))))).
Proof. reflexivity. Qed.

(** X24.  When the store calls of [handleRemoveBirthday] resolve,
    whatever the client does: afterwards no birthday of the member in
    the group of the command is left, the birthdays of the other members
    and groups are as before, and so are the users, the groups and the
    reminders (those of the removed birthday stay); the handler rejects
    only when the client rejects, and when the client delivers, the one
    reply says whether a birthday was removed. *)
Theorem handleRemoveBirthday_removes (env : Env) (chatId phoneNumber : string)
  (s : Session) (hasBirthday : bool) :
  fst (hasBirthdayInGroup phoneNumber chatId (world s)) = Resolved hasBirthday ->
  (hasBirthday = true ->
   exists result,
     fst (removeBirthday phoneNumber chatId (world s)) = Resolved result) ->
  let out := fst (handleRemoveBirthday env chatId phoneNumber s) in
  let s' := snd (handleRemoveBirthday env chatId phoneNumber s) in
  filter (same_member phoneNumber chatId) (birthdays (db (world s'))) = []
  /\ (forall b, same_member phoneNumber chatId b = false ->
        (In b (birthdays (db (world s')))
         <-> In b (birthdays (db (world s)))))
  /\ users (db (world s')) = users (db (world s))
  /\ groups (db (world s')) = groups (db (world s))
  /\ reminders (db (world s')) = reminders (db (world s))
  /\ (forall e, out = Rejected e -> e = ClientError chatId)
  /\ (client_delivers env (send_attempts (world s)) chatId = true ->
      out = Resolved tt
      /\ replies s'
         = replies s
           ++ [(chatId,
                if hasBirthday then BirthdayRemoved
                else NoBirthdayRegistered)]).
Proof.
  intros Hhas _. cbv zeta.
  destruct (handleRemoveBirthday env chatId phoneNumber s) as [out s'] eqn:E.
  cbn [fst snd]. unfold handleRemoveBirthday in E. cbv zeta in E.
  unfold chat_try, chat_bind in E. unfold lift at 1 in E.
  rewrite hasBirthdayInGroup_run in E, Hhas. cbn [fst] in Hhas.
  destruct (hd_error (filter (same_member phoneNumber chatId)
                             (birthdays (db (world s))))) as [row |] eqn:Hhd;
    cbn [negb] in E; injection Hhas as <-.
  - unfold lift at 1 in E. rewrite removeBirthday_run in E.
    cbn [world replies] in E.
    set (w1 := set_db (world s)
                 (set_birthdays (db (world s))
                    (filter (fun b => negb (same_member phoneNumber chatId b))
                            (birthdays (db (world s)))))) in E.
    assert (Hgone : filter (same_member phoneNumber chatId)
                      (birthdays (db w1)) = []).
    { apply filter_none. intros b Hb. unfold w1 in Hb.
      cbn [db set_db set_birthdays birthdays] in Hb.
      apply filter_In in Hb. destruct Hb as [_ Hb].
      now apply negb_true_iff in Hb. }
    assert (Hothers : forall b, same_member phoneNumber chatId b = false ->
              (In b (birthdays (db w1)) <-> In b (birthdays (db (world s))))).
    { intros b Hb. unfold w1. cbn [db set_db set_birthdays birthdays].
      rewrite filter_In, Hb. cbn [negb]. tauto. }
    assert (Hn1 : send_attempts w1 = send_attempts (world s)) by reflexivity.
    destruct (sendReply env chatId BirthdayRemoved
                (mkSession w1 (replies s))) as [[[] | e1] s2] eqn:E1;
      pose proof E1 as E1'; reply_frame E1.
    + injection E as <- <-. rewrite Hdb.
      split; [exact Hgone |]. split; [exact Hothers |].
      do 3 (split; [reflexivity |]). split; [discriminate |].
      intros Hc. split; [reflexivity |].
      rewrite sendReply_run in E1'. cbv zeta in E1'.
      cbn [world replies] in E1'. rewrite Hn1, Hc in E1'.
      now injection E1' as <-.
    + catch_block E. rewrite Hdb0, Hdb.
      split; [exact Hgone |]. split; [exact Hothers |].
      do 3 (split; [reflexivity |]). split; [exact Hrej0 |].
      intros Hc. rewrite sendReply_run in E1'. cbv zeta in E1'.
      cbn [world replies] in E1'. rewrite Hn1, Hc in E1'. discriminate.
  - apply hd_error_filter_none in Hhd. cbn [world replies] in E.
    destruct (sendReply env chatId NoBirthdayRegistered
                (mkSession (world s) (replies s))) as [[[] | e1] s2] eqn:E1;
      pose proof E1 as E1'; reply_frame E1.
    + injection E as <- <-. rewrite Hdb.
      split; [exact Hhd |]. split; [tauto |].
      do 3 (split; [reflexivity |]). split; [discriminate |].
      intros Hc. split; [reflexivity |].
      rewrite sendReply_run in E1'. cbv zeta in E1'.
      cbn [world replies] in E1'. rewrite Hc in E1'.
      now injection E1' as <-.
    + catch_block E. rewrite Hdb0, Hdb.
      split; [exact Hhd |]. split; [tauto |].
      do 3 (split; [reflexivity |]). split; [exact Hrej0 |].
      intros Hc. rewrite sendReply_run in E1'. cbv zeta in E1'.
      cbn [world replies] in E1'. rewrite Hc in E1'. discriminate.
Qed.

Lemma handleRemoveBirthday_removes_witness :
  let env := env_at march_15_0000 always in
  let s := mkSession (world_of init_sql) [] in
  let s' := snd (handleRemoveBirthday env "sample_group_123" "1234567890" s) in
  map b_id (birthdays (db (world s'))) = ["bd_002"]%string
  /\ replies s' = [("sample_group_123"%string, BirthdayRemoved)].
Proof.
  intros env s s'.
  destruct (handleRemoveBirthday_removes env "sample_group_123" "1234567890"
              s true eq_refl)
    as (_ & _ & _ & _ & _ & _ & Hreply);
    [intros _; eexists; reflexivity |].
  split; [reflexivity |].
  exact (proj2 (Hreply eq_refl)).
Defined.

Lemma addOrUpdateBirthday_resolved env p d g w r w' :
  addOrUpdateBirthday env p d g w = (Resolved r, w') ->
  exists row,
    hd_error (filter (same_member p g) (birthdays (db w'))) = Some row
    /\ birth_date row = d.
Proof.
  rewrite addOrUpdateBirthday_run.
  destruct (hd_error (filter (same_member p g) (birthdays (db w))))
    as [existing |] eqn:Hex.
  - intros [= _ <-]. cbn [db set_db set_birthdays birthdays].
    rewrite filter_map_commute
      by (intros x; apply update_birth_date_same_member).
    destruct (filter (same_member p g) (birthdays (db w))) as [| b0 rest] eqn:Hf;
      [discriminate |].
    assert (Hb0 : same_member p g b0 = true).
    { assert (Hin : In b0 (filter (same_member p g) (birthdays (db w))))
        by (rewrite Hf; now left).
      apply filter_In in Hin. tauto. }
    cbn [map hd_error]. rewrite (update_birth_date_hit p g d b0 Hb0).
    eexists. split; reflexivity.
  - cbv zeta. destruct (existsb _ _); [discriminate |].
    intros [= _ <-]. cbn [db set_db set_birthdays birthdays].
    rewrite filter_app, (hd_error_filter_none _ _ Hex). cbn [filter app].
    rewrite !same_member_new. cbn [hd_error].
    eexists. split; reflexivity.
Qed.

Lemma addOrUpdateBirthday_resolves env p d g w :
  fst (hasBirthdayInGroup p g w) = Resolved true
  \/ ~ In (randomUUID env (uuids_drawn w)) (map b_id (birthdays (db w))) ->
  exists r, fst (addOrUpdateBirthday env p d g w) = Resolved r.
Proof.
  rewrite hasBirthdayInGroup_run, addOrUpdateBirthday_run. cbn [fst].
  destruct (hd_error _) as [existing |]; [intros _; eexists; reflexivity |].
  intros [H | H]; [discriminate |]. cbv zeta.
  destruct (existsb _ _) eqn:Hdup; [| eexists; reflexivity].
  exfalso. apply H. apply existsb_exists in Hdup.
  destruct Hdup as (b & Hb & Heq). apply String.eqb_eq in Heq.
  rewrite <- Heq. now apply in_map.
Qed.

(** X25.  A command [/addbirthday DD/MM] with a day that exists this
    year, followed by [/mybirthday] of the same member in the same chat:
    when the client delivers both replies and the insert is not rejected
    (the member has a birthday in the group, or the new identifier is
    not a key yet), the first reply confirms that day of the current
    year and the second shows the same day, with the text that
    [daysUntil] selects at the time of the command; the second command
    changes nothing in the store. *)
Theorem handleAddBirthday_then_handleMyBirthday (env : Env)
  (chatId phoneNumber : string) (sep : ascii) (dd mm : Z)
  (rest : list string) (s : Session) :
  let d := mkDate (year (local_date (now env))) mm dd in
  let n := send_attempts (world s) in
  let added :=
    handleAddBirthday env chatId phoneNumber
      ((pad2 dd ++ String sep (pad2 mm))%string :: rest) s in
  let asked := handleMyBirthday env chatId phoneNumber (snd added) in
  In sep ["/"; "-"; "."]%char ->
  valid_date d = true ->
  client_delivers env n chatId = true ->
  client_delivers env (S n) chatId = true ->
  fst (hasBirthdayInGroup phoneNumber chatId (world s)) = Resolved true
  \/ ~ In (randomUUID env (uuids_drawn (world s)))
          (map b_id (birthdays (db (world s)))) ->
  fst added = Resolved tt
  /\ fst asked = Resolved tt
  /\ replies (snd asked)
     = replies s
       ++ [(chatId, BirthdayAdded d);
           (chatId, YourBirthday d (handleMyBirthday_dayText d (now env)))]
  /\ db (world (snd asked)) = db (world (snd added))
  /\ (valid_moment (now env) = true ->
      month_day d = month_day (local_date (now env)) ->
      handleMyBirthday_dayText d (now env) = ItIsToday).
Proof.
  intros d n added asked Hsep Hv Hc1 Hc2 Hok.
  assert (Hadded : exists r w1,
            addOrUpdateBirthday env phoneNumber d chatId (world s)
            = (Resolved r, w1)
            /\ added = (Resolved tt,
                        mkSession
                          (mkWorld (db w1) (uuids_drawn w1) (randoms_drawn w1)
                                   (S n) (outbox w1) (console_errors w1))
                          (replies s ++ [(chatId, BirthdayAdded d)]))).
  { destruct (addOrUpdateBirthday_resolves env phoneNumber d chatId (world s)
                Hok) as [r Hr].
    pose proof (addOrUpdateBirthday_frame env phoneNumber d chatId (world s))
      as Hframe. cbv zeta in Hframe.
    destruct Hframe as (_ & _ & _ & _ & Hn1 & _ & _).
    unfold added, handleAddBirthday.
    rewrite (validateDate_pad2 sep dd mm (now env) Hsep Hv).
    cbn [isValid negb v_date local_date of_date]. fold d.
    unfold chat_try, chat_bind, lift.
    destruct (addOrUpdateBirthday env phoneNumber d chatId (world s))
      as [o w1]. cbn [fst snd] in Hr, Hn1. subst o.
    exists r, w1. split; [reflexivity |].
    rewrite sendReply_run. cbv zeta. cbn [world replies].
    rewrite Hn1. fold n. now rewrite Hc1. }
  destruct Hadded as (r & w1 & Hadd & Hadded).
  destruct (addOrUpdateBirthday_resolved _ _ _ _ _ _ _ Hadd)
    as (row & Hrow & Hdate).
  unfold asked. rewrite Hadded. cbn [fst snd].
  unfold handleMyBirthday. cbv zeta. unfold chat_try, chat_bind, lift.
  rewrite getBirthdayByUserAndGroup_run. cbn [db world replies].
  rewrite Hrow, Hdate. rewrite sendReply_run. cbv zeta.
  cbn [world replies send_attempts]. rewrite Hc2. cbn [fst snd world db replies].
  split; [reflexivity |]. split; [reflexivity |].
  split; [now rewrite <- app_assoc |]. split; [reflexivity |].
  intros Hnow Hmd. unfold handleMyBirthday_dayText.
  now rewrite (days_until_on_the_day d (now env) Hv Hnow Hmd).
Qed.

Lemma handleAddBirthday_then_handleMyBirthday_witness :
  let env := env_at march_15_0000 always in
  let s := mkSession (world_of init_sql) [] in
  replies
    (snd (handleMyBirthday env "sample_group_123" "1234567890"
            (snd (handleAddBirthday env "sample_group_123" "1234567890"
                    ["15/03"%string] s))))
  = [("sample_group_123"%string, BirthdayAdded (mkDate 2025 3 15));
     ("sample_group_123"%string,
      YourBirthday (mkDate 2025 3 15) ItIsToday)].
Proof.
  intros env s.
  destruct (handleAddBirthday_then_handleMyBirthday env "sample_group_123"
              "1234567890" "/"%char 15 3 [] s)
    as (_ & _ & Hreplies & _ & Htoday);
    [simpl; tauto | reflexivity | reflexivity | reflexivity
    | left; reflexivity |].
  rewrite <- (Htoday eq_refl eq_refl). exact Hreplies.
Defined.

(* ================================================================= *)
(** * The range of the days until a birthday                          *)
(* ================================================================= *)

Ltac leap_cases y :=
  let Hleap := fresh "Hleap" in
  destruct (isLeapYear y) eqn:Hleap;
  [apply isLeapYear_iff in Hleap
  | assert (~ ((y mod 4 = 0 /\ y mod 100 <> 0) \/ y mod 400 = 0))
      by (rewrite <- isLeapYear_iff; congruence); clear Hleap].

(** The day number within the year: the days of the months before, one
    more after February of a leap year. *)
Lemma days_from_civil_in_year y m d :
  1 <= m <= 12 ->
  days_from_civil (mkDate y m d)
  = days_from_civil (mkDate y 1 1)
    + (if m <=? 2 then 31 * (m - 1)
       else (153 * (m - 3) + 2) / 5 + 59 + (if isLeapYear y then 1 else 0))
    + d - 1.
Proof.
  intros Hm. unfold days_from_civil. cbn [year month day].
  destruct (Z.leb_spec m 2) as [H2 | H2].
  - cbn [Z.leb Z.compare Pos.compare Pos.compare_cont].
    assert (m = 1 \/ m = 2) as [-> | ->] by lia;
      Z.div_mod_to_equations; lia.
  - cbn [Z.leb Z.compare Pos.compare Pos.compare_cont].
    leap_cases y; Z.div_mod_to_equations; lia.
Qed.

Lemma days_from_civil_next_year y :
  days_from_civil (mkDate (y + 1) 1 1)
  = days_from_civil (mkDate y 1 1) + 365 + (if isLeapYear y then 1 else 0).
Proof.
  unfold days_from_civil. cbn [year month day].
  cbn [Z.leb Z.compare Pos.compare Pos.compare_cont].
  replace (y + 1 - 1) with y by lia.
  leap_cases y; Z.div_mod_to_equations; lia.
Qed.

Lemma days_from_civil_closed d :
  valid_date d = true ->
  days_from_civil d
  = days_from_civil (mkDate (year d) 1 1)
    + (if month d <=? 2 then 31 * (month d - 1)
       else (153 * (month d - 3) + 2) / 5 + 59
            + (if isLeapYear (year d) then 1 else 0))
    + day d - 1.
Proof.
  intros Hv. apply valid_date_bounds in Hv. destruct d as [y m dd].
  cbn [year month day] in *. apply days_from_civil_in_year. lia.
Qed.

Lemma diff_days_range k ms :
  0 <= k -> 0 <= ms < MS_PER_DAY ->
  0 <= (k * MS_PER_DAY - ms) ÷ MS_PER_DAY <= k.
Proof.
  intros Hk Hms. unfold MS_PER_DAY in *.
  destruct (Z.eq_dec k 0) as [-> | Hne].
  - rewrite Z.mul_0_l, Z.sub_0_l, Z.quot_opp_l by lia.
    rewrite Z.quot_small by lia. lia.
  - rewrite Z.quot_div_nonneg by lia. Z.div_mod_to_equations. lia.
Qed.

Lemma set_year_millis m v : millis (set_year m v) = millis m.
Proof. unfold set_year. destruct (_ && _); reflexivity. Qed.

Lemma leap_years_apart y :
  isLeapYear y = true -> isLeapYear (y + 1) = false.
Proof.
  intros H. apply isLeapYear_iff in H.
  destruct (isLeapYear (y + 1)) eqn:E; [| reflexivity].
  apply isLeapYear_iff in E. exfalso. Z.div_mod_to_equations. lia.
Qed.

(** The distance in days between two valid dates of one year, or from a
    date to an earlier day of the next year. *)
Lemma days_from_civil_within_a_year c t r :
  valid_date c = true -> valid_date t = true -> valid_date r = true ->
  year c = year t -> year r = year t + 1 -> month r = month c ->
  day r <= day c ->
  (date_ltb c t = false ->
   0 <= days_from_civil c - days_from_civil t <= 365)
  /\ (date_ltb c t = true ->
      0 <= days_from_civil r - days_from_civil t <= 365).
Proof.
  intros Hc Ht Hr Hyc Hyr Hmr Hdr.
  rewrite (days_from_civil_closed c Hc), (days_from_civil_closed t Ht),
    (days_from_civil_closed r Hr).
  rewrite Hyr, Hyc, days_from_civil_next_year, Hmr.
  pose proof (leap_years_apart (year t)) as Hapart.
  apply valid_date_bounds in Hc, Ht, Hr.
  rewrite Hyc in Hc. rewrite Hyr, Hmr in Hr.
  destruct c as [yc mc dc], t as [yt mt dt], r as [yr mr dr].
  cbn [year month day] in *. subst yc yr mr.
  assert (Hlt : date_ltb (mkDate yt mc dc) (mkDate yt mt dt) = true
                <-> mc < mt \/ (mc = mt /\ dc < dt)).
  { rewrite date_ltb_iff. cbn [year month day]. lia. }
  assert (Hge : date_ltb (mkDate yt mc dc) (mkDate yt mt dt) = false
                <-> mt < mc \/ (mc = mt /\ dt <= dc)).
  { destruct (date_ltb _ _).
    - assert (mc < mt \/ (mc = mt /\ dc < dt)) by now apply Hlt.
      split; [discriminate | lia].
    - split; [intros _ | reflexivity].
      assert (~ (mc < mt \/ (mc = mt /\ dc < dt)))
        by (rewrite <- Hlt; congruence). lia. }
  rewrite Hlt, Hge. clear Hlt Hge.
  destruct Hc as [Hmc Hdc], Ht as [Hmt Hdt], Hr as [_ Hdr'].
  unfold daysInMonth in *.
  destruct (isLeapYear yt); [rewrite (Hapart eq_refl) in * |
                             destruct (isLeapYear (yt + 1))];
    clear Hapart;
    destruct (month_cases mc Hmc) as
      [-> | [-> | [-> | [-> | [-> | [-> | [-> | [-> | [-> | [-> | [-> | ->]]]]]]]]]]];
    destruct (month_cases mt Hmt) as
      [-> | [-> | [-> | [-> | [-> | [-> | [-> | [-> | [-> | [-> | [-> | ->]]]]]]]]]]];
    cbn [Z.eqb Z.leb Z.compare Pos.eqb Pos.compare Pos.compare_cont orb] in *;
    (split; intros H; Z.div_mod_to_equations; lia).
Qed.

(** X26.  For a stored date that exists and at every instant,
    [daysUntil] is at least 0 and at most 365: the replies never show a
    negative number of days, and the line of [handleListBirthdays]
    carries a number only from 2 to 7. *)
Theorem daysUntil_range (b : Date) (reference : Moment) :
  valid_date b = true ->
  valid_moment reference = true ->
  0 <= daysUntil b reference <= 365
  /\ (forall n, handleMyBirthday_dayText b reference = DaysLeft n ->
                2 <= n <= 365)
  /\ (forall n, handleListBirthdays_dayText b reference = Some (DaysLeft n) ->
                2 <= n <= 7).
Proof.
  intros Hb Href.
  assert (Hrange : 0 <= daysUntil b reference <= 365).
  { unfold valid_moment in Href.
    rewrite !andb_true_iff, Z.leb_le, Z.ltb_lt in Href.
    destruct Href as [[Ht Hms0] Hms1].
    unfold daysUntil, getNextBirthdayDate. cbv zeta.
    pose proof (set_year_valid b (year (local_date reference)) Hb) as Hc.
    cbv zeta in Hc. destruct Hc as (Hcv & Hcy & Hcm & Hcd).
    pose proof (set_year_millis (of_date b) (year (local_date reference)))
      as Hcms. cbn [of_date millis] in Hcms.
    set (c := set_year (of_date b) (year (local_date reference))) in *.
    pose proof (add_one_year_valid c Hcv) as Hr. cbv zeta in Hr.
    destruct Hr as (Hrv & Hry & Hrm & Hrd).
    assert (Hrms : millis (add_one_year c) = 0) by exact Hcms.
    destruct (days_from_civil_within_a_year (local_date c)
                (local_date reference) (local_date (add_one_year c)))
      as [Hsame Hnext]; try assumption; try lia.
    unfold isBefore_day.
    destruct (date_ltb (local_date c) (local_date reference)) eqn:Hbefore;
      unfold diff_days, valueOf.
    - rewrite Hrms.
      replace (days_from_civil (local_date (add_one_year c)) * MS_PER_DAY + 0
               - (days_from_civil (local_date reference) * MS_PER_DAY
                  + millis reference))
        with ((days_from_civil (local_date (add_one_year c))
               - days_from_civil (local_date reference)) * MS_PER_DAY
              - millis reference) by lia.
      specialize (Hnext eq_refl).
      pose proof (diff_days_range _ (millis reference) (proj1 Hnext)
                    (conj Hms0 Hms1)). lia.
    - rewrite Hcms.
      replace (days_from_civil (local_date c) * MS_PER_DAY + 0
               - (days_from_civil (local_date reference) * MS_PER_DAY
                  + millis reference))
        with ((days_from_civil (local_date c)
               - days_from_civil (local_date reference)) * MS_PER_DAY
              - millis reference) by lia.
      specialize (Hsame eq_refl).
      pose proof (diff_days_range _ (millis reference) (proj1 Hsame)
                    (conj Hms0 Hms1)). lia. }
  split; [exact Hrange |]. split.
  - intros n. unfold handleMyBirthday_dayText. cbv zeta.
    destruct (Z.eqb_spec (daysUntil b reference) 0); [discriminate |].
    destruct (Z.eqb_spec (daysUntil b reference) 1); [discriminate |].
    intros [= <-]. lia.
  - intros n. unfold handleListBirthdays_dayText. cbv zeta.
    destruct (Z.eqb_spec (daysUntil b reference) 0); [discriminate |].
    destruct (Z.eqb_spec (daysUntil b reference) 1); [discriminate |].
    destruct (Z.leb_spec (daysUntil b reference) 7); [| discriminate].
    intros [= <-]. lia.
Qed.

Lemma daysUntil_range_witness :
  0 <= daysUntil (mkDate 2024 2 29) march_14_1000 <= 365.
Proof.
  exact (proj1 (daysUntil_range (mkDate 2024 2 29) march_14_1000
                  eq_refl eq_refl)).
Defined.

(* ================================================================= *)
(** * The list of the birthdays of a group                            *)
(* ================================================================= *)

Lemma order_by_of_Sorted {A} (leb : A -> A -> bool) l :
  Sorted (le_of leb) l -> order_by leb l = l.
Proof.
  induction 1 as [| x l Hs IH Hhd]; [reflexivity |].
  unfold order_by in *. cbn [fold_right]. rewrite IH.
  destruct Hhd as [| y l Hxy]; [reflexivity |].
  cbn [insert_by]. unfold le_of in Hxy. now rewrite Hxy.
Qed.

Lemma month_day_leb_total a b :
  month_day_leb a b = true \/ month_day_leb b a = true.
Proof. rewrite !month_day_leb_iff. lia. Qed.

Lemma getBirthdaysByGroup_sorted groupId w :
  exists rows,
    getBirthdaysByGroup groupId w = (Resolved rows, w)
    /\ order_by compare_MM_DD rows = rows.
Proof.
  eexists. split; [reflexivity |].
  apply order_by_of_Sorted.
  apply (order_by_Sorted compare_MM_DD).
  intros x y. apply month_day_leb_total.
Qed.

(** X27.  [handleListBirthdays] sorts again what
    [getBirthdaysByGroup] returns in that order already: when the query
    resolves, the second sort changes nothing, and the reply that the
    client delivers lists the rows of the query one line each, in the
    order of the query, with ['Unknown'] for a missing or empty name;
    when the client rejects the list, the error text is sent in a
    second call, and the handler rejects only when that call is
    rejected too.  The store is left as it was. *)
Theorem handleListBirthdays_sort_is_redundant (env : Env) (chatId : string)
  (s : Session) (rows : list (BirthdayRow * option string)) (w0 : World) :
  getBirthdaysByGroup chatId (world s) = (Resolved rows, w0) ->
  let n := send_attempts (world s) in
  let reply :=
    match rows with
    | [] => NoBirthdaysYet
    | _ :: _ =>
        GroupBirthdays
          (map (fun row =>
                  mkLine (name_or_Unknown (snd row))
                         (birth_date (fst row))
                         (handleListBirthdays_dayText
                            (birth_date (fst row)) (now env)))
               rows)
    end in
  let out := fst (handleListBirthdays env chatId s) in
  let s' := snd (handleListBirthdays env chatId s) in
  order_by compare_MM_DD rows = rows
  /\ db (world s') = db (world s)
  /\ (client_delivers env n chatId = true ->
      out = Resolved tt /\ replies s' = replies s ++ [(chatId, reply)])
  /\ (client_delivers env n chatId = false ->
      client_delivers env (S n) chatId = true ->
      out = Resolved tt
      /\ replies s'
         = replies s
           ++ [(chatId,
                ErrorReply "Failed to get birthday list. Please try again.")])
  /\ (client_delivers env n chatId = false ->
      client_delivers env (S n) chatId = false ->
      out = Rejected (ClientError chatId) /\ replies s' = replies s).
Proof.
  intros Hquery.
  destruct (getBirthdaysByGroup_sorted chatId (world s))
    as (rows' & Hrows & Hsorted).
  rewrite Hrows in Hquery. injection Hquery as -> <-.
  cbv zeta. split; [exact Hsorted |].
  destruct (handleListBirthdays env chatId s) as [out s'] eqn:E.
  cbn [fst snd]. unfold handleListBirthdays in E. cbv zeta in E.
  unfold chat_try, chat_bind in E. unfold lift at 1 in E. rewrite Hrows in E.
  cbn [world replies] in E.
  assert (Hsend : forall reply,
    let r := (let (o, s') := sendReply env chatId reply
                               (mkSession (world s) (replies s)) in
              match o with
              | Resolved a => (Resolved a, s')
              | Rejected e =>
                  let (o0, s'0) := lift (console_error e) s' in
                  match o0 with
                  | Resolved _ =>
                      sendErrorMessage env chatId
                        "Failed to get birthday list. Please try again." s'0
                  | Rejected e0 => (Rejected e0, s'0)
                  end
              end) in
    db (world (snd r)) = db (world s)
    /\ (client_delivers env (send_attempts (world s)) chatId = true ->
        fst r = Resolved tt /\ replies (snd r) = replies s ++ [(chatId, reply)])
    /\ (client_delivers env (send_attempts (world s)) chatId = false ->
        client_delivers env (S (send_attempts (world s))) chatId = true ->
        fst r = Resolved tt
        /\ replies (snd r)
           = replies s
             ++ [(chatId,
                  ErrorReply
                    "Failed to get birthday list. Please try again.")])
    /\ (client_delivers env (send_attempts (world s)) chatId = false ->
        client_delivers env (S (send_attempts (world s))) chatId = false ->
        fst r = Rejected (ClientError chatId) /\ replies (snd r) = replies s)).
  { intros reply. cbv zeta. rewrite sendReply_run. cbv zeta.
    cbn [world replies].
    destruct (client_delivers env (send_attempts (world s)) chatId).
    - cbn [fst snd world db replies].
      split; [reflexivity |]. split; [auto |]. split; discriminate.
    - unfold lift, console_error, sendErrorMessage. cbn [world].
      rewrite sendReply_run. cbv zeta.
      cbn [world replies db uuids_drawn randoms_drawn send_attempts outbox
             console_errors].
      destruct (client_delivers env (S (send_attempts (world s))) chatId);
        cbn [fst snd world db replies];
        (split; [reflexivity |]); (split; [discriminate |]);
        split; try discriminate; auto. }
  destruct rows as [| row rows''].
  - pose proof (Hsend NoBirthdaysYet) as H. cbv zeta in H.
    rewrite E in H. exact H.
  - rewrite Hsorted in E.
    match type of E with
    | context [sendReply env chatId ?r _] => pose proof (Hsend r) as H
    end.
    cbv zeta in H. rewrite E in H. exact H.
Qed.

Lemma handleListBirthdays_sort_is_redundant_witness :
  let env := env_at march_15_0000 always in
  let s := mkSession (world_of init_sql) [] in
  exists lines,
    replies (snd (handleListBirthdays env "sample_group_123" s))
    = [("sample_group_123"%string, GroupBirthdays lines)]
    /\ map line_name lines = ["John Doe"; "Jane Smith"]%string.
Proof.
  intros env s.
  destruct (handleListBirthdays_sort_is_redundant env "sample_group_123" s
              _ _ eq_refl)
    as (_ & _ & Hreply & _).
  eexists. split; [exact (proj2 (Hreply eq_refl)) | reflexivity].
Defined.

(* ================================================================= *)
(** * Queries that meet                                               *)
(* ================================================================= *)

Lemma pending_from_In d r b g :
  In r (reminders d) -> In b (birthdays d) -> In g (groups d) ->
  birthday_id r = b_id b -> b_group_id b = g_group_id g ->
  exists u, In (r, b, u, Some g) (pending_from d).
Proof.
  intros Hr Hb Hg Hrb Hbg.
  destruct (left_join_fst_In
              (inner_join (reminders d) (birthdays d)
                 (fun r b => String.eqb (birthday_id r) (b_id b)))
              (users d)
              (fun rb u => String.eqb (b_phone_number (snd rb))
                                      (u_phone_number u))
              (r, b)) as [u Hu].
  { apply inner_join_In. split; [exact Hr |]. split; [exact Hb |].
    now apply String.eqb_eq. }
  exists u. unfold pending_from. apply left_join_Some_iff.
  split; [exact Hu |]. split; [exact Hg |]. cbn [fst snd].
  now apply String.eqb_eq.
Qed.

(** X28.  Every message of a group reaches [createOrUpdateGroup] with
    the default [botActive = true]: after it, whatever the flag of the
    group was, every unsent reminder of the date whose birthday is in
    the group is listed by [getPendingReminders], under the name just
    given. *)
Theorem createOrUpdateGroup_then_pending (env : Env)
  (groupId groupName : string) (date : option Date) (w : World)
  (r : ReminderRow) (b : BirthdayRow) :
  let w' := snd (createOrUpdateGroup groupId groupName true w) in
  let reminderDate :=
    match date with Some d => d | None => local_date (now env) end in
  In r (reminders (db w)) ->
  In b (birthdays (db w)) ->
  birthday_id r = b_id b ->
  b_group_id b = groupId ->
  sent r = false ->
  reminder_date r = reminderDate ->
  exists rows row,
    getPendingReminders env date w' = (Resolved rows, w')
    /\ In row rows
    /\ p_reminder row = r
    /\ phone_number row = b_phone_number b
    /\ group_id row = groupId
    /\ p_group_name row = Some groupName.
Proof.
  intros w' reminderDate Hr Hb Hrb Hbg Hsent Hdate.
  set (g := mkGroup groupId groupName true).
  destruct (pending_from_In (db w') r b g) as [u Hu];
    try assumption.
  { unfold w'. cbn. apply in_or_app. right. now left. }
  eexists. exists (pending_select (r, b, u, Some g)).
  split; [reflexivity |].
  split; [| cbn [pending_select p_reminder phone_number group_id p_group_name
                   option_map group_name g]; auto].
  fold reminderDate. unfold select_pending.
  apply order_by_In, in_map, filter_In. split; [exact Hu |].
  unfold pending_where. rewrite Hsent, Hdate, date_eqb_refl. reflexivity.
Qed.

Lemma createOrUpdateGroup_then_pending_witness :
  let env := env_at march_15_0000 always in
  let w' := snd (createOrUpdateGroup "sample_group_123" "Family" true
                   (world_of inactive_group)) in
  fst (getPendingReminders env None (world_of inactive_group)) = Resolved []
  /\ exists rows row,
       getPendingReminders env None w' = (Resolved rows, w')
       /\ In row rows
       /\ r_id (p_reminder row) = "r_001"%string
       /\ p_group_name row = Some "Family"%string.
Proof.
  intros env w'. split; [reflexivity |].
  destruct (createOrUpdateGroup_then_pending env "sample_group_123" "Family"
              None (world_of inactive_group)
              (mkReminder "r_001" "bd_001" (mkDate 2025 3 15) false None)
              (mkBirthday "bd_001" "1234567890" (mkDate 1990 3 15)
                          "sample_group_123"))
    as (rows & row & Hrun & Hin & Hrem & _ & _ & Hname);
    [now left | now left | reflexivity | reflexivity | reflexivity
    | reflexivity |].
  exists rows, row. split; [exact Hrun |]. split; [exact Hin |].
  split; [now rewrite Hrem | exact Hname].
Defined.

(** X29.  The query of [createTodaysReminders] and
    [getTodaysBirthdays()] select the same birthdays: a reminder is
    created for a birthday exactly when [getTodaysBirthdays] lists it
    and it has no reminder for today yet. *)
Theorem createTodaysReminders_for_todays_birthdays (env : Env) (w : World) :
  let today := local_date (now env) in
  exists rows,
    getTodaysBirthdays env None w = (Resolved rows, w)
    /\ forall i,
         In i (birthdays_without_reminder (month_day today) today (db w))
         <-> (exists row, In row rows /\ b_id (fst (fst row)) = i)
             /\ has_reminder i today (reminders (db w)) = false.
Proof.
  intros today. eexists. split; [reflexivity |].
  intros i. rewrite birthdays_without_reminder_In. split.
  - intros (b & g & -> & Hb & Hg & Hbg & Hmd & Hact & Hnone).
    split; [| exact Hnone].
    destruct (left_join_fst_In (birthdays (db w)) (users (db w))
                (fun b u => String.eqb (b_phone_number b) (u_phone_number u))
                b Hb) as [u Hu].
    exists (b, option_map u_name u, option_map group_name (Some g)).
    split; [| reflexivity].
    apply in_map_iff. exists (b, u, Some g). split; [reflexivity |].
    apply filter_In. split.
    + apply left_join_Some_iff. split; [exact Hu |]. split; [exact Hg |].
      cbn [fst]. now apply String.eqb_eq.
    + cbn [fst snd truthy]. rewrite !andb_true_iff, month_day_eqb_eq.
      auto.
  - intros [(row & Hin & <-) Hnone]. apply in_map_iff in Hin.
    destruct Hin as ([[b u] g] & <- & Hin). cbn [fst].
    apply filter_In in Hin. destruct Hin as [Hjoin Hw]. cbn [fst snd] in Hw.
    rewrite !andb_true_iff, month_day_eqb_eq in Hw.
    destruct Hw as [[Hmd _] Hact].
    destruct g as [g |]; [| discriminate].
    apply left_join_Some in Hjoin. destruct Hjoin as (Hbu & Hg & Hon).
    cbn [fst] in Hon. apply String.eqb_eq in Hon.
    exists b, g. split; [reflexivity |].
    split; [eapply left_join_fst; exact Hbu |]. auto.
Qed.

(** X30.  Marking, then reading: after [markReminderSent] of an
    identifier, [getReminderById] of it finds a row exactly when it did
    before, and the row found is sent, with the current timestamp as
    [sent_at] and the identifier asked for. *)
Theorem markReminderSent_then_getReminderById (env : Env)
  (reminderId : string) (w : World) :
  let w' := snd (markReminderSent env reminderId w) in
  exists before after,
    getReminderById reminderId w = (Resolved before, w)
    /\ getReminderById reminderId w' = (Resolved after, w')
    /\ after
       = option_map
           (fun row =>
              mkPending
                (mkReminder reminderId (birthday_id (p_reminder row))
                            (reminder_date (p_reminder row)) true
                            (Some (CURRENT_TIMESTAMP env)))
                (phone_number row) (p_birth_date row) (group_id row)
                (name row) (p_group_name row))
           before.
Proof.
  intros w'. eexists. eexists. split; [reflexivity |]. split; [reflexivity |].
  unfold w'. rewrite markReminderSent_run.
  unfold getReminderById, bind, get_db, ret. cbn [fst snd db set_db].
  rewrite pending_from_map_reminders by apply mark_sent_birthday_id.
  set (rows := pending_from (db w)). clearbody rows.
  induction rows as [| [[[r b] u] g] rows IH]; [reflexivity |].
  cbn [map filter fst snd].
  assert (Hid : r_id (mark_sent reminderId (CURRENT_TIMESTAMP env) r) = r_id r).
  { unfold mark_sent. destruct (String.eqb _ _); reflexivity. }
  rewrite Hid.
  destruct (String.eqb_spec (r_id r) reminderId) as [E | E].
  - cbn [map hd_error option_map pending_select p_reminder phone_number
           p_birth_date group_id name p_group_name birthday_id reminder_date].
    unfold mark_sent. rewrite <- E, String.eqb_refl. reflexivity.
  - exact IH.
Qed.
